(** * PDF-KhmerParser: Khmer text extraction from PDFs and images

    A shallow embedding of [khmer_pdf_parser.py] (the "PDF-KhParser -
    Scanned" script) and [khmer_image_recognizer.py]
    (TextImage-KhParser.py), with the properties of the detection and
    fallback pipeline, of the image preprocessing and of the text
    normalisation.

    Python [str] values are lists of Unicode code points.  The external
    libraries (pdfplumber, pdf2image, pytesseract, Pillow, unicodedata)
    are capability records: what a call returns or raises is a function
    of its arguments, and every call is recorded in a trace next to the
    [logging] records the scripts emit.

    The modules [KhmerPdfParser] and [KhmerImageRecognizer] let the
    libraries raise instances of [Exception] only.  The modules
    [KhmerPdfParserBase] and [KhmerImageRecognizerBase] repeat the
    scripts with library calls that may also end with an exception
    outside [Exception], which [except Exception] does not catch. *)

From Stdlib Require Import List String NArith ZArith Bool Lia DecimalString.
Import ListNotations.

Set Implicit Arguments.

(** * Python text *)

Module Py.

Definition codepoint := N.
Definition text := list codepoint.

Definition space : codepoint := 0x20%N.
Definition newline : codepoint := 0x0A%N.

(** [str.isspace] on one code point: the characters CPython's
    [str.split()] and [str.strip()] treat as whitespace. *)
Definition isspace (c : codepoint) : bool :=
  ((0x09 <=? c) && (c <=? 0x0D) || (0x1C <=? c) && (c <=? 0x20)
   || (c =? 0x85) || (c =? 0xA0) || (c =? 0x1680)
   || (0x2000 <=? c) && (c <=? 0x200A)
   || (c =? 0x2028) || (c =? 0x2029) || (c =? 0x202F) || (c =? 0x205F)
   || (c =? 0x3000))%N.

Definition is_empty (s : text) : bool :=
  match s with [] => true | _ :: _ => false end.

(** [s.lstrip()] and [s.strip()] without argument. *)
Fixpoint lstrip (s : text) : text :=
  match s with
  | [] => []
  | c :: r => if isspace c then lstrip r else s
  end.

Definition strip (s : text) : text := rev (lstrip (rev (lstrip s))).

(** [s.split()] without argument: the maximal runs of non-whitespace
    characters, in order.  [w] is the word being scanned. *)
Definition flush (w : text) : list text :=
  match w with [] => [] | _ :: _ => [w] end.

Fixpoint split_go (w : text) (s : text) : list text :=
  match s with
  | [] => flush w
  | c :: r =>
      if isspace c then flush w ++ split_go [] r
      else split_go (w ++ [c]) r
  end.

Definition split (s : text) : list text := split_go [] s.

(** [sep.join(parts)]. *)
Fixpoint join (sep : text) (parts : list text) : text :=
  match parts with
  | [] => []
  | [p] => p
  | p :: rest => p ++ sep ++ join sep rest
  end.

(** [' '.join(s.split())]: every whitespace run becomes one space and the
    ends are trimmed. *)
Definition collapse (s : text) : text := join [space] (split s).

(** A word of [split]: non-empty and free of whitespace. *)
Definition no_space (w : text) : bool := forallb (fun c => negb (isspace c)) w.
Definition wordb (w : text) : bool := negb (is_empty w) && no_space w.

(** The shape of collapsed text, character by character. *)
Definition only_plain_spaces (s : text) : bool :=
  forallb (fun c => negb (isspace c) || (c =? space)%N) s.

Definition no_leading_ws (s : text) : bool :=
  match s with [] => true | c :: _ => negb (isspace c) end.

Definition no_trailing_ws (s : text) : bool := no_leading_ws (rev s).

Fixpoint no_double_space (s : text) : bool :=
  match s with
  | a :: ((b :: _) as r) =>
      negb ((a =? space)%N && (b =? space)%N) && no_double_space r
  | _ => true
  end.

Definition collapsedb (s : text) : bool :=
  only_plain_spaces s && no_leading_ws s && no_trailing_ws s
  && no_double_space s.

End Py.

(** * Exceptions, results and traces *)

(** A raised Python exception whose class derives from [Exception]: its
    class name and what [str(e)] prints.  Exceptions outside [Exception]
    ([KeyboardInterrupt], [SystemExit], [GeneratorExit]) are no values
    of this type; see [base_exception]. *)
Record exn : Type := Exn { exn_type : string; exn_str : string }.

Definition ValueError (msg : string) : exn := Exn "ValueError" msg.

(** How a call or a block ends when nothing outside [Exception] is
    raised: it returns, or raises an [Exception]. *)
Inductive result (A : Type) : Type :=
| Ok (a : A)
| Raise (e : exn).

Arguments Ok {A} a.
Arguments Raise {A} e.

Inductive level : Type := INFO | WARNING | ERROR.

(** What a run leaves behind: the [logging] records and the calls made to
    the external libraries, in program order. *)
Inductive event (call : Type) : Type :=
| Log (l : level) (msg : string)
| Call (c : call).

Arguments Log {call} l msg.
Arguments Call {call} c.

Module Eff.

Section Monad.
Variable call : Type.

(** A computation: the trace it emitted and how it ended. *)
Definition M (A : Type) : Type := (list (event call) * result A)%type.

Definition ret {A} (a : A) : M A := ([], Ok a).

Definition raise {A} (e : exn) : M A := ([], Raise e).

Definition bind {A B} (m : M A) (k : A -> M B) : M B :=
  match m with
  | (t, Ok a) => let (t', r) := k a in (t ++ t', r)
  | (t, Raise e) => (t, Raise e)
  end.

(** [try: m except Exception as e: h e], for a block that raises
    nothing outside [Exception]: every [Raise] carries an instance of
    [Exception], so the handler runs for each of them.  The handler
    that lets the other exceptions through is [Base.try_except]. *)
Definition try_except {A} (m : M A) (h : exn -> M A) : M A :=
  match m with
  | (t, Ok a) => (t, Ok a)
  | (t, Raise e) => let (t', r) := h e in (t ++ t', r)
  end.

(** [logging.info], [logging.warning], [logging.error]. *)
Definition log (l : level) (msg : string) : M unit := ([Log l msg], Ok tt).

(** A call to an external library: recorded, then it returns or raises. *)
Definition perform {A} (c : call) (r : result A) : M A := ([Call c], r).

Definition trace {A} (m : M A) : list (event call) := fst m.
Definition outcome {A} (m : M A) : result A := snd m.
End Monad.

Arguments ret {call A} a.
Arguments raise {call A} e.
Arguments log {call} l msg.

Declare Scope eff_scope.
Delimit Scope eff_scope with eff.
Notation "x <- m ;; k" := (bind m (fun x => k))
  (at level 61, m at next level, right associativity) : eff_scope.
Notation "m ;; k" := (bind m (fun _ => k))
  (at level 61, right associativity) : eff_scope.


End Eff.

Import Eff.
Local Open Scope eff_scope.

(** The normalisation both scripts apply to extracted text:
    [unicodedata.normalize('NFC', ' '.join(s.split()))]. *)
Definition normalize (unicodedata_normalize : string -> Py.text -> Py.text)
    (s : Py.text) : Py.text :=
  unicodedata_normalize "NFC"%string (Py.join [Py.space] (Py.split s)).

(** The library calls of a trace, without the log records. *)
Definition calls {call : Type} (t : list (event call)) : list call :=
  flat_map (fun ev => match ev with Call c => [c] | Log _ _ => [] end) t.

(** [str(n)] for a page number. *)
Definition str_of_nat (n : nat) : string :=
  NilZero.string_of_uint (Nat.to_uint n).

(** * khmer_pdf_parser.py *)

Module KhmerPdfParser.

Import Py.
Local Open Scope string_scope.

Section Script.
(** A page of an opened PDF and a rasterized page image. *)
Variables Page Image : Type.

(** The external collaborators: pdfplumber, pdf2image, pytesseract and
    unicodedata.  [pdfplumber_open] stands for opening the file and
    reading its [pages]. *)
Record collaborators : Type := {
  pdfplumber_open : string -> result (list Page);
  extract_text : Page -> result (option text);
  convert_from_path : string -> Z -> result (list Image);
  image_to_string : Image -> string -> result text;
  unicodedata_normalize : string -> text -> text
}.

Inductive call : Type :=
| Pdfplumber_open (pdf_path : string)
| Extract_text (pg : Page)
| Convert_from_path (pdf_path : string) (dpi : Z)
| Image_to_string (im : Image) (lang : string).

Variable lib : collaborators.

Local Abbreviation M := (Eff.M call).

(** Truth value of what [page.extract_text()] returned: [None] and the
    empty string are false. *)
Definition truthy (t : option text) : bool :=
  match t with
  | Some (_ :: _) => true
  | _ => false
  end.

Definition text_of (t : option text) : text :=
  match t with Some s => s | None => [] end.

(** The page loop of [parse_khmer_text_native]; [extracted_text] is the
    list the loop appends to.  [tqdm] only draws a progress bar and is
    left out. *)
Fixpoint native_pages (page_number : nat) (pages : list Page)
    (extracted_text : list text) : M (list text) :=
  match pages with
  | [] => ret extracted_text
  | pg :: rest =>
      text <- perform (Extract_text pg) (extract_text lib pg) ;;
      if truthy text then
        native_pages (S page_number) rest (extracted_text ++ [text_of text])
      else
        log WARNING ("No text found on page " ++ str_of_nat page_number
                     ++ ". It might be a scanned page.") ;;
        native_pages (S page_number) rest extracted_text
  end.

Definition no_text_extracted : exn :=
  ValueError "No text extracted. The PDF might be scanned images.".

Definition parse_khmer_text_native (pdf_path : string) : M text :=
  try_except
    (pages <- perform (Pdfplumber_open pdf_path)
                      (pdfplumber_open lib pdf_path) ;;
     log INFO ("Opened PDF file: " ++ pdf_path) ;;
     extracted_text <- native_pages 1 pages [] ;;
     let full_text := join [newline] extracted_text in
     if is_empty (strip full_text) then raise no_text_extracted
     else ret (normalize (unicodedata_normalize lib) full_text))
    (fun e =>
       log ERROR ("Failed to extract text from native PDF: " ++ exn_str e) ;;
       raise e).

(** The page loop of [parse_khmer_text_scanned]. *)
Fixpoint scanned_pages (lang : string) (page_number : nat)
    (pages : list Image) (extracted_text : list text) : M (list text) :=
  match pages with
  | [] => ret extracted_text
  | im :: rest =>
      log INFO ("Processing page " ++ str_of_nat page_number) ;;
      text <- perform (Image_to_string im lang)
                      (image_to_string lib im lang) ;;
      scanned_pages lang (S page_number) rest (extracted_text ++ [text])
  end.

Definition parse_khmer_text_scanned (pdf_path lang : string) : M text :=
  try_except
    (log INFO ("Converting PDF to images: " ++ pdf_path) ;;
     pages <- perform (Convert_from_path pdf_path 300)
                      (convert_from_path lib pdf_path 300) ;;
     extracted_text <- scanned_pages lang 1 pages [] ;;
     let full_text := join [newline] extracted_text in
     ret (normalize (unicodedata_normalize lib) full_text))
    (fun e =>
       log ERROR ("Failed to perform OCR on scanned PDF: " ++ exn_str e) ;;
       raise e).

(** The page loop of [detect_pdf_type]: [true] when it returned
    ['native'] from inside the loop. *)
Fixpoint detect_pages (pages : list Page) : M bool :=
  match pages with
  | [] => ret false
  | pg :: rest =>
      text <- perform (Extract_text pg) (extract_text lib pg) ;;
      if truthy text then ret true else detect_pages rest
  end.

Definition detect_pdf_type (pdf_path : string) : M string :=
  try_except
    (pages <- perform (Pdfplumber_open pdf_path)
                      (pdfplumber_open lib pdf_path) ;;
     found <- detect_pages pages ;;
     if found then ret "native" else ret "scanned")
    (fun e =>
       log WARNING ("Could not determine PDF type automatically: "
                    ++ exn_str e) ;;
       ret "scanned").

Definition parse_pdf (pdf_path lang : string) : M (option text) :=
  pdf_type <- detect_pdf_type pdf_path ;;
  log INFO ("Detected PDF type: " ++ pdf_type) ;;
  if (pdf_type =? "native")%string then
    log INFO "Attempting to extract text from native PDF." ;;
    try_except
      (text <- parse_khmer_text_native pdf_path ;; ret (Some text))
      (fun _ =>
         log WARNING
           "Failed to extract text from native PDF. Attempting OCR." ;;
         try_except
           (text <- parse_khmer_text_scanned pdf_path lang ;;
            ret (Some text))
           (fun e =>
              log ERROR ("Failed to extract text via OCR: " ++ exn_str e) ;;
              ret None))
  else if (pdf_type =? "scanned")%string then
    log INFO "Performing OCR on scanned PDF." ;;
    try_except
      (text <- parse_khmer_text_scanned pdf_path lang ;; ret (Some text))
      (fun _ => log ERROR "Failed to extract text via OCR." ;; ret None)
  else
    log ERROR "Unknown PDF type." ;; ret None.

End Script.

Arguments Pdfplumber_open {Page Image} pdf_path.
Arguments Extract_text {Page Image} pg.
Arguments Convert_from_path {Page Image} pdf_path dpi.
Arguments Image_to_string {Page Image} im lang.

End KhmerPdfParser.

(** * khmer_image_recognizer.py *)

Module KhmerImageRecognizer.

Import Py.
Local Open Scope string_scope.

(** [ImageFilter.MedianFilter()], with Pillow's default size. *)
Inductive image_filter : Type := MedianFilter.

Section Script.
(** A Pillow image and an [ImageEnhance.Contrast] object. *)
Variables Image Enhancer : Type.

(** The external collaborators: Pillow, pytesseract and unicodedata. *)
Record collaborators : Type := {
  Image_open : string -> result Image;
  Image_convert : Image -> string -> result Image;
  ImageEnhance_Contrast : Image -> result Enhancer;
  enhance : Enhancer -> Z -> result Image;
  Image_point : Image -> (Z -> Z) -> string -> result Image;
  Image_filter : Image -> image_filter -> result Image;
  image_to_string : Image -> string -> result text;
  unicodedata_normalize : string -> text -> text
}.

Inductive call : Type :=
| Open (image_path : string)
| Convert (im : Image) (mode : string)
| Contrast (im : Image)
| Enhance (en : Enhancer) (factor : Z)
| Point (im : Image) (lut : Z -> Z) (mode : string)
| Filter (im : Image) (f : image_filter)
| Image_to_string (im : Image) (lang : string).

Variable lib : collaborators.

Local Abbreviation M := (Eff.M call).

(** [lambda x: 0 if x < 140 else 255], line 78. *)
Definition threshold (x : Z) : Z := if (x <? 140)%Z then 0%Z else 255%Z.

Definition preprocess_image (image_path : string) : M Image :=
  try_except
    (image <- perform (Open image_path) (Image_open lib image_path) ;;
     log INFO ("Opened image file: " ++ image_path) ;;
     image <- perform (Convert image "L") (Image_convert lib image "L") ;;
     log INFO "Converted image to grayscale." ;;
     enhancer <- perform (Contrast image) (ImageEnhance_Contrast lib image) ;;
     image <- perform (Enhance enhancer 2) (enhance lib enhancer 2) ;;
     log INFO "Enhanced image contrast." ;;
     image <- perform (Point image threshold "1")
                      (Image_point lib image threshold "1") ;;
     log INFO "Applied thresholding to image." ;;
     image <- perform (Filter image MedianFilter)
                      (Image_filter lib image MedianFilter) ;;
     log INFO "Applied median filter to remove noise." ;;
     ret image)
    (fun e =>
       log ERROR ("Error during image preprocessing: " ++ exn_str e) ;;
       raise e).

Definition extract_text_from_image (image : Image) (lang : string) : M text :=
  try_except
    (log INFO "Starting OCR on the image." ;;
     text <- perform (Image_to_string image lang)
                     (image_to_string lib image lang) ;;
     let normalized_text := normalize (unicodedata_normalize lib) text in
     log INFO "OCR completed successfully." ;;
     ret normalized_text)
    (fun e => log ERROR ("Error during OCR: " ++ exn_str e) ;; raise e).

Definition parse_image (image_path : string) (output_path : option string)
    (lang : string) : M (option text) :=
  try_except
    (preprocessed_image <- preprocess_image image_path ;;
     extracted_text <- extract_text_from_image preprocessed_image lang ;;
     ret (Some extracted_text))
    (fun e => log ERROR ("Failed to parse image: " ++ exn_str e) ;; ret None).

End Script.

Arguments Open {Image Enhancer} image_path.
Arguments Convert {Image Enhancer} im mode.
Arguments Contrast {Image Enhancer} im.
Arguments Enhance {Image Enhancer} en factor.
Arguments Point {Image Enhancer} im lut mode.
Arguments Filter {Image Enhancer} im f.
Arguments Image_to_string {Image Enhancer} im lang.

End KhmerImageRecognizer.

(** * Notions the properties are stated with *)

(** What the properties use of [unicodedata.normalize('NFC', .)]:
    normalising twice changes nothing more, empty text and only empty
    text normalises to empty text, and text whose only whitespace is
    single inner spaces stays so (NFC neither creates nor removes
    whitespace, and U+0020 takes part in no canonical composition). *)
Record nfc_spec (nfc : Py.text -> Py.text) : Prop := {
  nfc_idempotent : forall s, nfc (nfc s) = nfc s;
  nfc_nil : nfc [] = [];
  nfc_nonempty : forall s, nfc s = [] -> s = [];
  nfc_collapsed :
    forall s, Py.collapsedb s = true -> Py.collapsedb (nfc s) = true
}.

(** Text without whitespace other than single inner spaces: no newline or
    tab, no whitespace at either end, no two spaces in a row. *)
Definition single_spaced (t : Py.text) : Prop :=
  (forall c, In c t -> Py.isspace c = true -> c = Py.space)
  /\ ~ In Py.newline t
  /\ ~ In 0x09%N t
  /\ Py.no_leading_ws t = true
  /\ Py.no_trailing_ws t = true
  /\ Py.no_double_space t = true.

(** A returned text, or [None] for a raised exception. *)
Definition option_of_result {A : Type} (r : result A) : option A :=
  match r with Ok a => Some a | Raise _ => None end.

Definition raises {A : Type} (r : result A) : bool :=
  match r with Ok _ => false | Raise _ => true end.

Section PdfNotions.
Import Py KhmerPdfParser.
Variables Page Image : Type.
Variable lib : collaborators Page Image.

(** [page.extract_text()] returns, and returns no text. *)
Definition page_no_text (pg : Page) : bool :=
  match extract_text lib pg with
  | Ok t => negb (truthy t)
  | Raise _ => false
  end.

(** [page.extract_text()] returns a non-empty string. *)
Definition page_has_text (pg : Page) : bool :=
  match extract_text lib pg with
  | Ok t => truthy t
  | Raise _ => false
  end.

(** [page.extract_text()] returns no text, or whitespace only. *)
Definition page_blank (pg : Page) : bool :=
  match extract_text lib pg with
  | Ok t => forallb isspace (text_of t)
  | Raise _ => false
  end.

(** What OCR returns on a page image; [[]] stands in when it raises. *)
Definition ocr_text (lang : string) (im : Image) : text :=
  match image_to_string lib im lang with
  | Ok t => t
  | Raise _ => []
  end.

Definition ocr_returns (lang : string) (im : Image) : bool :=
  negb (raises (image_to_string lib im lang)).

(** The events only the text-layer reader produces. *)
Definition is_native_call (ev : event (call Page Image)) : bool :=
  match ev with
  | Call (Pdfplumber_open _) | Call (Extract_text _) => true
  | _ => false
  end.

Definition extract_event (pg : Page) : event (call Page Image) :=
  Call (Extract_text pg).

(** The record of the [else] branch of [parse_pdf]. *)
Definition is_unknown_type_event (ev : event (call Page Image)) : bool :=
  match ev with
  | Log ERROR msg => (msg =? "Unknown PDF type.")%string
  | _ => false
  end.

(** The OCR output of a page image is blank. *)
Definition ocr_blank (lang : string) (im : Image) : bool :=
  forallb isspace (ocr_text lang im).

(** A trace without the record of the [else] branch. *)
Definition no_unknown_type (t : list (event (call Page Image))) : bool :=
  forallb (fun x => negb (is_unknown_type_event x)) t.
End PdfNotions.

Section ImageNotions.
Import KhmerImageRecognizer.
Variables Image Enhancer : Type.

(** Two Pillow installations that agree on every operation on images;
    they may differ in what [Image.open] finds on disk. *)
Definition same_operations (a b : collaborators Image Enhancer) : Prop :=
  (forall im mode, Image_convert a im mode = Image_convert b im mode)
  /\ (forall im, ImageEnhance_Contrast a im = ImageEnhance_Contrast b im)
  /\ (forall en factor, enhance a en factor = enhance b en factor)
  /\ (forall im mode, Image_point a im threshold mode
                      = Image_point b im threshold mode)
  /\ (forall im f, Image_filter a im f = Image_filter b im f).
End ImageNotions.

(** * Simulated collaborators

    Stand-ins for the libraries, in the manner of the mocks of test.py:
    a simulated page is what [extract_text] does on it, a simulated page
    image is what OCR does on it. *)

Module Sim.

Import Py.
Local Open Scope string_scope.

(** A fragment of NFC: the singleton canonical mappings of the ANGSTROM,
    OHM and KELVIN signs; other code points are left alone. *)
Definition nfc_char (c : codepoint) : codepoint :=
  if (c =? 0x212B)%N then 0xC5%N
  else if (c =? 0x2126)%N then 0x3A9%N
  else if (c =? 0x212A)%N then 0x4B%N
  else c.

Definition nfc (s : text) : text := map nfc_char s.

Definition unicodedata_normalize (form : string) (s : text) : text :=
  if form =? "NFC" then nfc s else s.

Definition Page : Type := result (option text).
Definition Image : Type := result text.

Record document : Type := {
  doc_pages : result (list Page);
  doc_images : result (list Image)
}.

Definition pdf_lib (doc : document) : KhmerPdfParser.collaborators Page Image :=
  {| KhmerPdfParser.pdfplumber_open := fun _ => doc_pages doc;
     KhmerPdfParser.extract_text := fun pg => pg;
     KhmerPdfParser.convert_from_path := fun _ _ => doc_images doc;
     KhmerPdfParser.image_to_string := fun im _ => im;
     KhmerPdfParser.unicodedata_normalize := unicodedata_normalize |}.

(** The Khmer greeting of the tests and of scenario A. *)
Definition greeting : text :=
  [0x179F; 0x17BC; 0x1798; 0x179F; 0x17D2; 0x179C; 0x17B6; 0x1782; 0x1798;
   0x1793; 0x17CD]%N.

Definition engine_error : exn := Exn "TesseractError" "engine failure".
Definition syntax_error : exn := Exn "PDFSyntaxError" "bad page".

(** One page with a text layer. *)
Definition native_doc : document :=
  {| doc_pages := Ok [Ok (Some greeting)];
     doc_images := Ok [Ok greeting] |}.

(** Text on page 1 only; reading page 2 would raise. *)
Definition first_page_doc : document :=
  {| doc_pages := Ok [Ok (Some greeting); Raise syntax_error];
     doc_images := Ok [Ok greeting; Ok []] |}.

(** A text layer holding one space: detected as native, yet without
    text. *)
Definition blank_layer_doc : document :=
  {| doc_pages := Ok [Ok (Some [space])];
     doc_images := Ok [Ok (greeting ++ [newline])%list] |}.

(** No text layer, and OCR finds nothing on the only page. *)
Definition blank_scan_doc : document :=
  {| doc_pages := Ok [Ok None];
     doc_images := Ok [Ok []] |}.

(** No text layer, and the OCR engine fails. *)
Definition broken_scan_doc : document :=
  {| doc_pages := Ok [Ok None];
     doc_images := Ok [Raise engine_error] |}.

(** Simulated Pillow on one row of 8-bit pixels. *)
Definition Pixels : Type := list Z.

Definition clip (x : Z) : Z := Z.max 0 (Z.min 255 x).

Definition mean (px : Pixels) : Z :=
  match px with
  | [] => 0
  | _ => fold_right Z.add 0%Z px / Z.of_nat (List.length px)
  end%Z.

Definition median3 (a b c : Z) : Z :=
  (a + b + c - Z.max a (Z.max b c) - Z.min a (Z.min b c))%Z.

Fixpoint median_row (prev : Z) (px : Pixels) : Pixels :=
  match px with
  | [] => []
  | x :: rest =>
      median3 prev x (hd x rest) :: median_row x rest
  end.

Definition img_lib (files : string -> result Pixels)
    (ocr : Pixels -> result text) :
    KhmerImageRecognizer.collaborators Pixels (Z * Pixels) :=
  {| KhmerImageRecognizer.Image_open := files;
     KhmerImageRecognizer.Image_convert := fun im _ => Ok im;
     KhmerImageRecognizer.ImageEnhance_Contrast := fun im => Ok (mean im, im);
     KhmerImageRecognizer.enhance := fun en factor =>
       Ok (map (fun x => clip (fst en + factor * (x - fst en))%Z) (snd en));
     KhmerImageRecognizer.Image_point := fun im lut _ => Ok (map lut im);
     KhmerImageRecognizer.Image_filter := fun im _ =>
       Ok (median_row (hd 0%Z im) im);
     KhmerImageRecognizer.image_to_string := fun im _ => ocr im;
     KhmerImageRecognizer.unicodedata_normalize := unicodedata_normalize |}.

Definition file_not_found : exn := Exn "FileNotFoundError" "no such file".

Definition one_file (name : string) (px : Pixels) : string -> result Pixels :=
  fun image_path => if image_path =? name then Ok px else Raise file_not_found.

Definition sample_pixels : Pixels := [10; 120; 130; 150; 200; 90]%Z.

End Sim.

(** * More notions for the page loops *)

Section PageNotions.
Import Py KhmerPdfParser.
Variables Page Image : Type.
Variable lib : collaborators Page Image.

(** [page.extract_text()] returns. *)
Definition page_returns (pg : Page) : bool :=
  negb (raises (extract_text lib pg)).

(** The text of a page; [[]] when there is none or the call raises. *)
Definition page_text (pg : Page) : text :=
  match extract_text lib pg with
  | Ok t => text_of t
  | Raise _ => []
  end.

(** The events of the OCR route. *)
Definition is_ocr_call (ev : event (call Page Image)) : bool :=
  match ev with
  | Call (Convert_from_path _ _) | Call (Image_to_string _ _) => true
  | _ => false
  end.

Definition is_rasterize (ev : event (call Page Image)) : bool :=
  match ev with
  | Call (Convert_from_path _ _) => true
  | _ => false
  end.

Definition is_pdf_open (ev : event (call Page Image)) : bool :=
  match ev with
  | Call (Pdfplumber_open _) => true
  | _ => false
  end.
End PageNotions.

Section RecognizerNotions.
Import KhmerImageRecognizer.
Variables Image Enhancer : Type.

(** The call to the OCR engine. *)
Definition is_image_ocr_call (ev : event (call Image Enhancer)) : bool :=
  match ev with
  | Call (Image_to_string _ _) => true
  | _ => false
  end.

(** [e] is what [Image.open] on the path, or the first failing Pillow
    step after it, raised. *)
Definition raised_by_pillow (lib : collaborators Image Enhancer)
    (image_path : string) (e : exn) : Prop :=
  Image_open lib image_path = Raise e
  \/ exists img,
       Image_open lib image_path = Ok img
       /\ (Image_convert lib img "L" = Raise e
           \/ exists gray,
                Image_convert lib img "L" = Ok gray
                /\ (ImageEnhance_Contrast lib gray = Raise e
                    \/ exists enhancer,
                         ImageEnhance_Contrast lib gray = Ok enhancer
                         /\ (enhance lib enhancer 2 = Raise e
                             \/ exists contrasted,
                                  enhance lib enhancer 2 = Ok contrasted
                                  /\ (Image_point lib contrasted threshold "1"
                                      = Raise e
                                      \/ exists binary,
                                           Image_point lib contrasted
                                             threshold "1" = Ok binary
                                           /\ Image_filter lib binary
                                                MedianFilter = Raise e)))).
End RecognizerNotions.

(** * os.path.splitext *)

Module OsPath.

Import Ascii.
Local Open Scope string_scope.

(** [s.rfind(c)]: the last index of [c] in [s], or [-1]; [i] is the index
    of the first character of [s]. *)
Fixpoint rfind_from (c : Ascii.ascii) (s : string) (i : Z) : Z :=
  match s with
  | EmptyString => (-1)%Z
  | String a r =>
      let j := rfind_from c r (i + 1) in
      if (0 <=? j)%Z then j else if Ascii.eqb a c then i else (-1)%Z
  end.

Definition rfind (c : Ascii.ascii) (s : string) : Z := rfind_from c s 0.

(** The slices [s[:n]] and [s[n:]] for [n >= 0]. *)
Fixpoint take (n : nat) (s : string) : string :=
  match n, s with
  | S n', String a r => String a (take n' r)
  | _, _ => EmptyString
  end.

Fixpoint drop (n : nat) (s : string) : string :=
  match n, s with
  | S n', String _ r => drop n' r
  | _, _ => s
  end.

(** The loop of [genericpath._splitext] over [p[sepIndex+1:dotIndex]]:
    is there a character other than the dot? *)
Fixpoint has_non_dot (extsep : Ascii.ascii) (s : string) : bool :=
  match s with
  | EmptyString => false
  | String c r => if Ascii.eqb c extsep then has_non_dot extsep r else true
  end.

(** [genericpath._splitext(p, sep, altsep, extsep)]. *)
Definition _splitext (p : string) (sep : Ascii.ascii)
    (altsep : option Ascii.ascii) (extsep : Ascii.ascii) : string * string :=
  let sepIndex :=
    match altsep with
    | Some alt => Z.max (rfind sep p) (rfind alt p)
    | None => rfind sep p
    end in
  let dotIndex := rfind extsep p in
  if (sepIndex <? dotIndex)%Z then
    if has_non_dot extsep
         (take (Z.to_nat (dotIndex - (sepIndex + 1)))
               (drop (Z.to_nat (sepIndex + 1)) p))
    then (take (Z.to_nat dotIndex) p, drop (Z.to_nat dotIndex) p)
    else (p, EmptyString)
  else (p, EmptyString).

(** [posixpath.splitext]. *)
Definition splitext (p : string) : string * string :=
  _splitext p "/"%char None "."%char.

(** [c not in s]. *)
Fixpoint lacks (c : Ascii.ascii) (s : string) : bool :=
  match s with
  | EmptyString => true
  | String a r => negb (Ascii.eqb a c) && lacks c r
  end.

End OsPath.

(** * Processes: exceptions and [sys.exit] *)

(** How a block of the [main] functions ends: it returns, raises an
    exception of class [Exception], or raises [SystemExit], which
    [except Exception] does not catch. *)
Inductive completion (A : Type) : Type :=
| Returned (a : A)
| Raised (e : exn)
| Exited (code : Z).

Arguments Returned {A} a.
Arguments Raised {A} e.
Arguments Exited {A} code.

Module Proc.

Section Monad.
Variable call : Type.

Definition P (A : Type) : Type := (list (event call) * completion A)%type.

Definition ret {A} (a : A) : P A := ([], Returned a).

Definition sys_exit {A} (code : Z) : P A := ([], Exited code).

Definition bind {A B} (m : P A) (k : A -> P B) : P B :=
  match m with
  | (t, Returned a) => let (t', r) := k a in (t ++ t', r)
  | (t, Raised e) => (t, Raised e)
  | (t, Exited code) => (t, Exited code)
  end.

(** [try: m except Exception as e: h e]; [SystemExit] passes through. *)
Definition try_except {A} (m : P A) (h : exn -> P A) : P A :=
  match m with
  | (t, Raised e) => let (t', r) := h e in (t ++ t', r)
  | _ => m
  end.

Definition log (l : level) (msg : string) : P unit :=
  ([Log l msg], Returned tt).

Definition completion_of {A} (r : result A) : completion A :=
  match r with Ok a => Returned a | Raise e => Raised e end.

(** A library call that returns or raises. *)
Definition perform {A} (c : call) (r : result A) : P A :=
  ([Call c], completion_of r).

(** A library call that may also exit the process. *)
Definition perform_exit {A} (c : call) (r : completion A) : P A :=
  ([Call c], r).

Definition trace {A} (m : P A) : list (event call) := fst m.
Definition outcome {A} (m : P A) : completion A := snd m.

(** The exit status of the process when [m] is the whole program: [0]
    when it runs to its end, the code of [sys.exit], [1] for an uncaught
    exception. *)
Definition exit_status {A} (m : P A) : Z :=
  match outcome m with
  | Returned _ => 0%Z
  | Raised _ => 1%Z
  | Exited code => code
  end.
End Monad.

Arguments ret {call A} a.
Arguments sys_exit {call A} code.
Arguments log {call} l msg.

(** A function of the script run inside [main]: its library calls are
    tagged by [inj]. *)
Definition lift_event {call call' : Type} (inj : call -> call')
    (ev : event call) : event call' :=
  match ev with
  | Log l msg => Log l msg
  | Call c => Call (inj c)
  end.

Definition lift {call call' : Type} {A : Type} (inj : call -> call')
    (m : Eff.M call A) : P call' A :=
  (map (lift_event inj) (Eff.trace m), completion_of (Eff.outcome m)).

Declare Scope proc_scope.
Delimit Scope proc_scope with proc.
Notation "x <- m ;; k" := (bind m (fun x => k))
  (at level 61, m at next level, right associativity) : proc_scope.
Notation "m ;; k" := (bind m (fun _ => k))
  (at level 61, right associativity) : proc_scope.

End Proc.

(** * khmer_pdf_parser.py: the command line *)

Module KhmerPdfMain.

Import Py Proc.
Local Open Scope string_scope.
Local Open Scope proc_scope.

(** [generate_output_path], lines 128-136. *)
Definition generate_output_path (input_path : string) : string :=
  let (base, _) := OsPath.splitext input_path in
  base ++ "_PDF_Scanned.txt".

(** The [Namespace] returned by [parser.parse_args()]. *)
Record namespace : Type := { input_pdf : string; lang : string }.

(** The operating-system side of [main]: [logging.basicConfig], which
    opens the log file, argparse, [os.path.isfile], and writing a text
    file with [open(path, 'w', encoding='utf-8')]. *)
Record system : Type := {
  basicConfig : string -> result unit;
  parse_args : completion namespace;
  isfile : string -> bool;
  write_text : string -> text -> result unit
}.

Section Script.
Variables Page Image : Type.

Inductive call : Type :=
| Lib (c : KhmerPdfParser.call Page Image)
| BasicConfig (log_file : string)
| Parse_args
| Isfile (path : string)
| Write_text (path : string) (content : text).

Variable lib : KhmerPdfParser.collaborators Page Image.
Variable os : system.

Local Abbreviation P := (Proc.P call).

Definition setup_logging : P unit :=
  Proc.perform (BasicConfig "khmer_pdf_parser.log")
               (basicConfig os "khmer_pdf_parser.log").

Definition main : P unit :=
  setup_logging ;;
  args <- Proc.perform_exit Parse_args (parse_args os) ;;
  let input_path := input_pdf args in
  let output_path := generate_output_path input_path in
  found <- Proc.perform (Isfile input_path) (Ok (isfile os input_path)) ;;
  (if negb found then
     Proc.log ERROR ("Input file not found: " ++ input_path) ;;
     Proc.sys_exit 1
   else Proc.ret tt) ;;
  Proc.try_except
    (extracted_text <-
       Proc.lift Lib (KhmerPdfParser.parse_pdf lib input_path (lang args)) ;;
     if KhmerPdfParser.truthy extracted_text then
       let content := KhmerPdfParser.text_of extracted_text in
       Proc.perform (Write_text output_path content)
                    (write_text os output_path content) ;;
       Proc.log INFO ("Extracted text saved to: " ++ output_path)
     else
       Proc.log ERROR "No text extracted from the PDF." ;;
       Proc.sys_exit 1)
    (fun e =>
       Proc.log ERROR ("An unexpected error occurred: " ++ exn_str e) ;;
       Proc.sys_exit 1).

End Script.

Arguments Lib {Page Image} c.
Arguments BasicConfig {Page Image} log_file.
Arguments Parse_args {Page Image}.
Arguments Isfile {Page Image} path.
Arguments Write_text {Page Image} path content.

End KhmerPdfMain.

(** * khmer_image_recognizer.py: the command line *)

Module KhmerImageMain.

Import Py Proc.
Local Open Scope string_scope.
Local Open Scope proc_scope.

(** [generate_output_path], lines 110-121; [None] and the empty string
    are false for [if output_path]. *)
Definition generate_output_path (input_path : string)
    (output_path : option string) : string :=
  match output_path with
  | Some (String c s) => String c s
  | _ =>
      let (base, _) := OsPath.splitext input_path in
      base ++ "_TextImage.txt"
  end.

(** The [Namespace] returned by [parser.parse_args()]. *)
Record namespace : Type := {
  input_image : string;
  output : option string;
  lang : string
}.

Record system : Type := {
  basicConfig : string -> result unit;
  parse_args : completion namespace;
  isfile : string -> bool;
  write_text : string -> text -> result unit
}.

Section Script.
Variables Image Enhancer : Type.

Inductive call : Type :=
| Lib (c : KhmerImageRecognizer.call Image Enhancer)
| BasicConfig (log_file : string)
| Parse_args
| Isfile (path : string)
| Write_text (path : string) (content : text).

Variable lib : KhmerImageRecognizer.collaborators Image Enhancer.
Variable os : system.

Local Abbreviation P := (Proc.P call).

Definition setup_logging : P unit :=
  Proc.perform (BasicConfig "khmer_image_recognizer.log")
               (basicConfig os "khmer_image_recognizer.log").

Definition main : P unit :=
  setup_logging ;;
  args <- Proc.perform_exit Parse_args (parse_args os) ;;
  let input_path := input_image args in
  let output_path := generate_output_path input_path (output args) in
  let lang := lang args in
  found <- Proc.perform (Isfile input_path) (Ok (isfile os input_path)) ;;
  (if negb found then
     Proc.log ERROR ("Input file not found: " ++ input_path) ;;
     Proc.sys_exit 1
   else Proc.ret tt) ;;
  extracted_text <- Proc.lift Lib
                      (KhmerImageRecognizer.parse_image lib input_path
                         (Some output_path) lang) ;;
  if KhmerPdfParser.truthy extracted_text then
    let content := KhmerPdfParser.text_of extracted_text in
    Proc.try_except
      (Proc.perform (Write_text output_path content)
                    (write_text os output_path content) ;;
       Proc.log INFO ("Extracted text saved to: " ++ output_path))
      (fun e =>
         Proc.log ERROR ("Failed to write extracted text to file: "
                         ++ exn_str e) ;;
         Proc.sys_exit 1)
  else
    Proc.log ERROR "No text extracted from the image." ;;
    Proc.sys_exit 1.

End Script.

Arguments Lib {Image Enhancer} c.
Arguments BasicConfig {Image Enhancer} log_file.
Arguments Parse_args {Image Enhancer}.
Arguments Isfile {Image Enhancer} path.
Arguments Write_text {Image Enhancer} path content.

End KhmerImageMain.

(** * What a run of [main] did *)

Section PdfMainNotions.
Import KhmerPdfMain.
Variables Page Image : Type.

(** The output files: the calls [open(path, 'w')] with the content
    written, in order.  The log file is not opened this way and is not
    among them; [paths_written] counts it. *)
Definition output_writes (t : list (event (call Page Image)))
    : list (string * Py.text) :=
  flat_map (fun ev => match ev with
                      | Call (Write_text p c) => [(p, c)]
                      | _ => []
                      end) t.

(** Every path the run opens for writing, in order: the log file, which
    the [FileHandler] of [logging.basicConfig] opens for appending, and
    the output files. *)
Definition paths_written (t : list (event (call Page Image)))
    : list string :=
  flat_map (fun ev => match ev with
                      | Call (BasicConfig log_file) => [log_file]
                      | Call (Write_text p _) => [p]
                      | _ => []
                      end) t.

(** The records the logging handlers append to the log file (and print):
    every record of the run. *)
Definition log_records (t : list (event (call Page Image)))
    : list (level * string) :=
  flat_map (fun ev => match ev with
                      | Log l msg => [(l, msg)]
                      | _ => []
                      end) t.

(** The calls to the PDF and OCR libraries, in order. *)
Definition library_calls (t : list (event (call Page Image)))
    : list (KhmerPdfParser.call Page Image) :=
  flat_map (fun ev => match ev with
                      | Call (Lib c) => [c]
                      | _ => []
                      end) t.
End PdfMainNotions.

Section ImageMainNotions.
Import KhmerImageMain.
Variables Image Enhancer : Type.

(** The output files of the image script: the calls [open(path, 'w')]
    with the content written.  The log file is not among them;
    [image_paths_written] counts it. *)
Definition image_output_writes (t : list (event (call Image Enhancer)))
    : list (string * Py.text) :=
  flat_map (fun ev => match ev with
                      | Call (Write_text p c) => [(p, c)]
                      | _ => []
                      end) t.

(** Every path the run opens for writing, in order: the log file of
    [logging.basicConfig], opened for appending, and the output files. *)
Definition image_paths_written (t : list (event (call Image Enhancer)))
    : list string :=
  flat_map (fun ev => match ev with
                      | Call (BasicConfig log_file) => [log_file]
                      | Call (Write_text p _) => [p]
                      | _ => []
                      end) t.

(** The records appended to the log file: every record of the run. *)
Definition image_log_records (t : list (event (call Image Enhancer)))
    : list (level * string) :=
  flat_map (fun ev => match ev with
                      | Log l msg => [(l, msg)]
                      | _ => []
                      end) t.

Definition image_library_calls (t : list (event (call Image Enhancer)))
    : list (KhmerImageRecognizer.call Image Enhancer) :=
  flat_map (fun ev => match ev with
                      | Call (Lib c) => [c]
                      | _ => []
                      end) t.
End ImageMainNotions.

(** * Simulated operating system *)

Module SimOs.

Import Py.
Local Open Scope string_scope.

Definition disk_full : exn := Exn "OSError" "No space left on device".

Definition pdf_args : KhmerPdfMain.namespace :=
  {| KhmerPdfMain.input_pdf := "scans/doc.v2.pdf";
     KhmerPdfMain.lang := "khm" |}.

(** A machine on which [present] tells the files there are and [disk]
    what writing a file does. *)
Definition pdf_os (present : string -> bool)
    (disk : string -> text -> result unit) : KhmerPdfMain.system :=
  {| KhmerPdfMain.basicConfig := fun _ => Ok tt;
     KhmerPdfMain.parse_args := Returned pdf_args;
     KhmerPdfMain.isfile := present;
     KhmerPdfMain.write_text := disk |}.

Definition image_args : KhmerImageMain.namespace :=
  {| KhmerImageMain.input_image := "page.png";
     KhmerImageMain.output := None;
     KhmerImageMain.lang := "khm" |}.

Definition image_os (present : string -> bool)
    (disk : string -> text -> result unit) : KhmerImageMain.system :=
  {| KhmerImageMain.basicConfig := fun _ => Ok tt;
     KhmerImageMain.parse_args := Returned image_args;
     KhmerImageMain.isfile := present;
     KhmerImageMain.write_text := disk |}.

Definition writable : string -> text -> result unit := fun _ _ => Ok tt.
Definition full : string -> text -> result unit := fun _ _ => Raise disk_full.

(** A two-page scan: OCR reads the greeting on page 1 and whitespace on
    page 2. *)
Definition two_page_scan : Sim.document :=
  {| Sim.doc_pages := Ok [Ok None; Ok (Some [])];
     Sim.doc_images := Ok [Ok (Sim.greeting ++ [newline])%list;
                           Ok [space; newline]] |}.

(** A text layer on page 2 only. *)
Definition second_page_doc : Sim.document :=
  {| Sim.doc_pages := Ok [Ok None; Ok (Some Sim.greeting)];
     Sim.doc_images := Raise Sim.engine_error |}.

End SimOs.

(** * Exceptions outside [Exception]

    [KeyboardInterrupt], [SystemExit] and [GeneratorExit] derive from
    [BaseException] but not from [Exception]: the handlers of the
    scripts, all of them [except Exception], do not catch them.  The
    modules above let the libraries raise [Exception]s only; the ones
    below let every library call also end with one of these. *)

Inductive base_exception : Type :=
| KeyboardInterrupt
| SystemExit (code : Z)
| GeneratorExit.

(** How a call or a block ends: it returns, raises an [Exception], or
    raises an exception outside [Exception]. *)
Inductive ending (A : Type) : Type :=
| Done (a : A)
| Failed (e : exn)
| Aborted (b : base_exception).

Arguments Done {A} a.
Arguments Failed {A} e.
Arguments Aborted {A} b.

Module Base.

Section Monad.
Variable call : Type.

Definition M (A : Type) : Type := (list (event call) * ending A)%type.

Definition ret {A} (a : A) : M A := ([], Done a).

Definition raise {A} (e : exn) : M A := ([], Failed e).

Definition bind {A B} (m : M A) (k : A -> M B) : M B :=
  match m with
  | (t, Done a) => let (t', r) := k a in (t ++ t', r)
  | (t, Failed e) => (t, Failed e)
  | (t, Aborted b) => (t, Aborted b)
  end.

(** [try: m except Exception as e: h e]: the handler runs for an
    [Exception] and for nothing else. *)
Definition try_except {A} (m : M A) (h : exn -> M A) : M A :=
  match m with
  | (t, Failed e) => let (t', r) := h e in (t ++ t', r)
  | _ => m
  end.

Definition log (l : level) (msg : string) : M unit := ([Log l msg], Done tt).

Definition perform {A} (c : call) (r : ending A) : M A := ([Call c], r).

Definition trace {A} (m : M A) : list (event call) := fst m.
Definition outcome {A} (m : M A) : ending A := snd m.
End Monad.

Arguments ret {call A} a.
Arguments raise {call A} e.
Arguments log {call} l msg.

Definition ending_of {A : Type} (r : result A) : ending A :=
  match r with Ok a => Done a | Raise e => Failed e end.

(** A run of the modules above, read here. *)
Definition inject {call A : Type} (m : Eff.M call A) : M call A :=
  (Eff.trace m, ending_of (Eff.outcome m)).

Declare Scope base_scope.
Delimit Scope base_scope with base.
Notation "x <- m ;; k" := (bind m (fun x => k))
  (at level 61, m at next level, right associativity) : base_scope.
Notation "m ;; k" := (bind m (fun _ => k))
  (at level 61, right associativity) : base_scope.

End Base.

(** * khmer_pdf_parser.py, with exceptions outside [Exception] *)

Module KhmerPdfParserBase.

Import Py Base.
Local Open Scope string_scope.
Local Open Scope base_scope.

Section Script.
Variables Page Image : Type.

Record collaborators : Type := {
  pdfplumber_open : string -> ending (list Page);
  extract_text : Page -> ending (option text);
  convert_from_path : string -> Z -> ending (list Image);
  image_to_string : Image -> string -> ending text;
  unicodedata_normalize : string -> text -> text
}.

Variable lib : collaborators.

Local Abbreviation call := (KhmerPdfParser.call Page Image).
Local Abbreviation M := (Base.M call).
Local Abbreviation truthy := KhmerPdfParser.truthy.
Local Abbreviation text_of := KhmerPdfParser.text_of.

Fixpoint native_pages (page_number : nat) (pages : list Page)
    (extracted_text : list text) : M (list text) :=
  match pages with
  | [] => ret extracted_text
  | pg :: rest =>
      text <- perform (KhmerPdfParser.Extract_text pg)
                      (extract_text lib pg) ;;
      if truthy text then
        native_pages (S page_number) rest (extracted_text ++ [text_of text])
      else
        log WARNING ("No text found on page " ++ str_of_nat page_number
                     ++ ". It might be a scanned page.") ;;
        native_pages (S page_number) rest extracted_text
  end.

Definition parse_khmer_text_native (pdf_path : string) : M text :=
  try_except
    (pages <- perform (KhmerPdfParser.Pdfplumber_open pdf_path)
                      (pdfplumber_open lib pdf_path) ;;
     log INFO ("Opened PDF file: " ++ pdf_path) ;;
     extracted_text <- native_pages 1 pages [] ;;
     let full_text := join [newline] extracted_text in
     if is_empty (strip full_text)
     then raise KhmerPdfParser.no_text_extracted
     else ret (normalize (unicodedata_normalize lib) full_text))
    (fun e =>
       log ERROR ("Failed to extract text from native PDF: " ++ exn_str e) ;;
       raise e).

Fixpoint scanned_pages (lang : string) (page_number : nat)
    (pages : list Image) (extracted_text : list text) : M (list text) :=
  match pages with
  | [] => ret extracted_text
  | im :: rest =>
      log INFO ("Processing page " ++ str_of_nat page_number) ;;
      text <- perform (KhmerPdfParser.Image_to_string im lang)
                      (image_to_string lib im lang) ;;
      scanned_pages lang (S page_number) rest (extracted_text ++ [text])
  end.

Definition parse_khmer_text_scanned (pdf_path lang : string) : M text :=
  try_except
    (log INFO ("Converting PDF to images: " ++ pdf_path) ;;
     pages <- perform (KhmerPdfParser.Convert_from_path pdf_path 300)
                      (convert_from_path lib pdf_path 300) ;;
     extracted_text <- scanned_pages lang 1 pages [] ;;
     let full_text := join [newline] extracted_text in
     ret (normalize (unicodedata_normalize lib) full_text))
    (fun e =>
       log ERROR ("Failed to perform OCR on scanned PDF: " ++ exn_str e) ;;
       raise e).

Fixpoint detect_pages (pages : list Page) : M bool :=
  match pages with
  | [] => ret false
  | pg :: rest =>
      text <- perform (KhmerPdfParser.Extract_text pg)
                      (extract_text lib pg) ;;
      if truthy text then ret true else detect_pages rest
  end.

Definition detect_pdf_type (pdf_path : string) : M string :=
  try_except
    (pages <- perform (KhmerPdfParser.Pdfplumber_open pdf_path)
                      (pdfplumber_open lib pdf_path) ;;
     found <- detect_pages pages ;;
     if found then ret "native" else ret "scanned")
    (fun e =>
       log WARNING ("Could not determine PDF type automatically: "
                    ++ exn_str e) ;;
       ret "scanned").

Definition parse_pdf (pdf_path lang : string) : M (option text) :=
  pdf_type <- detect_pdf_type pdf_path ;;
  log INFO ("Detected PDF type: " ++ pdf_type) ;;
  if (pdf_type =? "native")%string then
    log INFO "Attempting to extract text from native PDF." ;;
    try_except
      (text <- parse_khmer_text_native pdf_path ;; ret (Some text))
      (fun _ =>
         log WARNING
           "Failed to extract text from native PDF. Attempting OCR." ;;
         try_except
           (text <- parse_khmer_text_scanned pdf_path lang ;;
            ret (Some text))
           (fun e =>
              log ERROR ("Failed to extract text via OCR: " ++ exn_str e) ;;
              ret None))
  else if (pdf_type =? "scanned")%string then
    log INFO "Performing OCR on scanned PDF." ;;
    try_except
      (text <- parse_khmer_text_scanned pdf_path lang ;; ret (Some text))
      (fun _ => log ERROR "Failed to extract text via OCR." ;; ret None)
  else
    log ERROR "Unknown PDF type." ;; ret None.

(** Some call to a library ends with [b]. *)
Definition aborts (b : base_exception) : Prop :=
  (exists pdf_path, pdfplumber_open lib pdf_path = Aborted b)
  \/ (exists pg, extract_text lib pg = Aborted b)
  \/ (exists pdf_path dpi, convert_from_path lib pdf_path dpi = Aborted b)
  \/ (exists im lang, image_to_string lib im lang = Aborted b).

(** The library call [c] ends with [b]. *)
Definition call_aborted (c : call) (b : base_exception) : Prop :=
  match c with
  | KhmerPdfParser.Pdfplumber_open pdf_path =>
      pdfplumber_open lib pdf_path = Aborted b
  | KhmerPdfParser.Extract_text pg => extract_text lib pg = Aborted b
  | KhmerPdfParser.Convert_from_path pdf_path dpi =>
      convert_from_path lib pdf_path dpi = Aborted b
  | KhmerPdfParser.Image_to_string im lang =>
      image_to_string lib im lang = Aborted b
  end.

(** No handler of the run catches an exception outside [Exception]:
    when a library call made by the run ends with one, so does the
    run. *)
Definition propagates {A : Type} (m : M A) : Prop :=
  forall c b,
    In (Call c) (trace m) -> call_aborted c b -> outcome m = Aborted b.

End Script.

(** Libraries that raise [Exception]s only, as in [KhmerPdfParser]. *)
Definition of_exceptions {Page Image : Type}
    (lib : KhmerPdfParser.collaborators Page Image)
    : collaborators Page Image :=
  {| pdfplumber_open := fun p =>
       ending_of (KhmerPdfParser.pdfplumber_open lib p);
     extract_text := fun pg =>
       ending_of (KhmerPdfParser.extract_text lib pg);
     convert_from_path := fun p dpi =>
       ending_of (KhmerPdfParser.convert_from_path lib p dpi);
     image_to_string := fun im lang =>
       ending_of (KhmerPdfParser.image_to_string lib im lang);
     unicodedata_normalize := KhmerPdfParser.unicodedata_normalize lib |}.

End KhmerPdfParserBase.

(** * khmer_image_recognizer.py, with exceptions outside [Exception] *)

Module KhmerImageRecognizerBase.

Import Py Base.
Local Open Scope string_scope.
Local Open Scope base_scope.

Section Script.
Variables Image Enhancer : Type.

Record collaborators : Type := {
  Image_open : string -> ending Image;
  Image_convert : Image -> string -> ending Image;
  ImageEnhance_Contrast : Image -> ending Enhancer;
  enhance : Enhancer -> Z -> ending Image;
  Image_point : Image -> (Z -> Z) -> string -> ending Image;
  Image_filter : Image -> KhmerImageRecognizer.image_filter -> ending Image;
  image_to_string : Image -> string -> ending text;
  unicodedata_normalize : string -> text -> text
}.

Variable lib : collaborators.

Local Abbreviation call := (KhmerImageRecognizer.call Image Enhancer).
Local Abbreviation M := (Base.M call).
Local Abbreviation threshold := KhmerImageRecognizer.threshold.
Local Abbreviation MedianFilter := KhmerImageRecognizer.MedianFilter.

Definition preprocess_image (image_path : string) : M Image :=
  try_except
    (image <- perform (KhmerImageRecognizer.Open image_path)
                      (Image_open lib image_path) ;;
     log INFO ("Opened image file: " ++ image_path) ;;
     image <- perform (KhmerImageRecognizer.Convert image "L")
                      (Image_convert lib image "L") ;;
     log INFO "Converted image to grayscale." ;;
     enhancer <- perform (KhmerImageRecognizer.Contrast image)
                         (ImageEnhance_Contrast lib image) ;;
     image <- perform (KhmerImageRecognizer.Enhance enhancer 2)
                      (enhance lib enhancer 2) ;;
     log INFO "Enhanced image contrast." ;;
     image <- perform (KhmerImageRecognizer.Point image threshold "1")
                      (Image_point lib image threshold "1") ;;
     log INFO "Applied thresholding to image." ;;
     image <- perform (KhmerImageRecognizer.Filter image MedianFilter)
                      (Image_filter lib image MedianFilter) ;;
     log INFO "Applied median filter to remove noise." ;;
     ret image)
    (fun e =>
       log ERROR ("Error during image preprocessing: " ++ exn_str e) ;;
       raise e).

Definition extract_text_from_image (image : Image) (lang : string) : M text :=
  try_except
    (log INFO "Starting OCR on the image." ;;
     text <- perform (KhmerImageRecognizer.Image_to_string image lang)
                     (image_to_string lib image lang) ;;
     let normalized_text := normalize (unicodedata_normalize lib) text in
     log INFO "OCR completed successfully." ;;
     ret normalized_text)
    (fun e => log ERROR ("Error during OCR: " ++ exn_str e) ;; raise e).

Definition parse_image (image_path : string) (output_path : option string)
    (lang : string) : M (option text) :=
  try_except
    (preprocessed_image <- preprocess_image image_path ;;
     extracted_text <- extract_text_from_image preprocessed_image lang ;;
     ret (Some extracted_text))
    (fun e => log ERROR ("Failed to parse image: " ++ exn_str e) ;; ret None).

End Script.

(** Libraries that raise [Exception]s only, as in
    [KhmerImageRecognizer]. *)
Definition of_exceptions {Image Enhancer : Type}
    (lib : KhmerImageRecognizer.collaborators Image Enhancer)
    : collaborators Image Enhancer :=
  {| Image_open := fun p =>
       ending_of (KhmerImageRecognizer.Image_open lib p);
     Image_convert := fun im mode =>
       ending_of (KhmerImageRecognizer.Image_convert lib im mode);
     ImageEnhance_Contrast := fun im =>
       ending_of (KhmerImageRecognizer.ImageEnhance_Contrast lib im);
     enhance := fun en factor =>
       ending_of (KhmerImageRecognizer.enhance lib en factor);
     Image_point := fun im lut mode =>
       ending_of (KhmerImageRecognizer.Image_point lib im lut mode);
     Image_filter := fun im f =>
       ending_of (KhmerImageRecognizer.Image_filter lib im f);
     image_to_string := fun im lang =>
       ending_of (KhmerImageRecognizer.image_to_string lib im lang);
     unicodedata_normalize :=
       KhmerImageRecognizer.unicodedata_normalize lib |}.

End KhmerImageRecognizerBase.

(** * Simulated interruptions *)

Module SimBase.

Import Py.
Local Open Scope string_scope.

(** A one-page scan during whose OCR the user presses Ctrl-C. *)
Definition interrupted_scan
    : KhmerPdfParserBase.collaborators Sim.Page Sim.Image :=
  {| KhmerPdfParserBase.pdfplumber_open := fun _ => Done [Ok None];
     KhmerPdfParserBase.extract_text := fun pg => Base.ending_of pg;
     KhmerPdfParserBase.convert_from_path := fun _ _ => Done [Ok []];
     KhmerPdfParserBase.image_to_string := fun _ _ =>
       Aborted KeyboardInterrupt;
     KhmerPdfParserBase.unicodedata_normalize := Sim.unicodedata_normalize |}.

(** An image during whose OCR the user presses Ctrl-C. *)
Definition interrupted_image
    : KhmerImageRecognizerBase.collaborators Sim.Pixels (Z * Sim.Pixels) :=
  let pil := KhmerImageRecognizerBase.of_exceptions
               (Sim.img_lib (Sim.one_file "page.png" Sim.sample_pixels)
                            (fun _ => Ok Sim.greeting)) in
  {| KhmerImageRecognizerBase.Image_open :=
       KhmerImageRecognizerBase.Image_open pil;
     KhmerImageRecognizerBase.Image_convert :=
       KhmerImageRecognizerBase.Image_convert pil;
     KhmerImageRecognizerBase.ImageEnhance_Contrast :=
       KhmerImageRecognizerBase.ImageEnhance_Contrast pil;
     KhmerImageRecognizerBase.enhance :=
       KhmerImageRecognizerBase.enhance pil;
     KhmerImageRecognizerBase.Image_point :=
       KhmerImageRecognizerBase.Image_point pil;
     KhmerImageRecognizerBase.Image_filter :=
       KhmerImageRecognizerBase.Image_filter pil;
     KhmerImageRecognizerBase.image_to_string := fun _ _ =>
       Aborted KeyboardInterrupt;
     KhmerImageRecognizerBase.unicodedata_normalize :=
       Sim.unicodedata_normalize |}.

End SimBase.
(** * Facts about Python text *)

Section TextFacts.
Import Py.

(** ** [isspace] and [strip] *)

Lemma isspace_space : isspace space = true.
Proof. reflexivity. Qed.

Lemma isspace_newline : isspace newline = true.
Proof. reflexivity. Qed.

Lemma lstrip_all_space (s : text) :
  forallb isspace s = true -> lstrip s = [].
Proof.
  induction s as [|c r IH]; simpl; [reflexivity|].
  intros H. apply andb_true_iff in H as [Hc Hr]. rewrite Hc. auto.
Qed.

Lemma lstrip_no_leading (s : text) :
  no_leading_ws s = true -> lstrip s = s.
Proof.
  destruct s as [|c r]; simpl; [reflexivity|].
  intros H. apply negb_true_iff in H. now rewrite H.
Qed.

Lemma strip_all_space (s : text) :
  forallb isspace s = true -> strip s = [].
Proof.
  intros H. unfold strip. now rewrite (lstrip_all_space s H).
Qed.

Lemma lstrip_nil_inv (s : text) :
  lstrip s = [] -> forallb isspace s = true.
Proof.
  induction s as [|c r IH]; simpl; [reflexivity|].
  destruct (isspace c); simpl; [exact IH | discriminate].
Qed.

Lemma lstrip_head (s : text) : no_leading_ws (lstrip s) = true.
Proof.
  induction s as [|c r IH]; simpl; [reflexivity|].
  destruct (isspace c) eqn:E; [exact IH|]. simpl. now rewrite E.
Qed.

Lemma strip_nil_inv (s : text) :
  strip s = [] -> forallb isspace s = true.
Proof.
  unfold strip. intros H.
  assert (H1 : lstrip (rev (lstrip s)) = []).
  { apply (f_equal (@rev _)) in H. now rewrite rev_involutive in H. }
  apply lstrip_nil_inv in H1.
  destruct (lstrip s) as [|c r] eqn:E.
  - now apply lstrip_nil_inv.
  - exfalso. pose proof (lstrip_head s) as Hh. rewrite E in Hh. simpl in Hh.
    rewrite forallb_forall in H1.
    specialize (H1 c). rewrite <- in_rev in H1.
    rewrite H1 in Hh; [discriminate | now left].
Qed.

Lemma strip_collapsed (s : text) :
  collapsedb s = true -> strip s = s.
Proof.
  unfold collapsedb, no_trailing_ws, strip. intros H.
  repeat (apply andb_true_iff in H as [H ?]).
  rewrite (lstrip_no_leading s) by assumption.
  rewrite (lstrip_no_leading (rev s)) by assumption.
  apply rev_involutive.
Qed.

(** ** [split] and [join] *)

Lemma flush_word (w : text) : is_empty w = false -> flush w = [w].
Proof. destruct w; [discriminate | reflexivity]. Qed.

Lemma split_go_word (u v s : text) :
  no_space v = true -> split_go u (v ++ s) = split_go (u ++ v) s.
Proof.
  revert u. induction v as [|c v IH]; intros u H; simpl.
  - now rewrite app_nil_r.
  - simpl in H. apply andb_true_iff in H as [Hc Hv].
    apply negb_true_iff in Hc. rewrite Hc, IH by assumption.
    now rewrite <- app_assoc.
Qed.

Lemma no_space_app (u v : text) :
  no_space (u ++ v) = no_space u && no_space v.
Proof. apply forallb_app. Qed.

Lemma wordb_inv (w : text) :
  wordb w = true -> is_empty w = false /\ no_space w = true.
Proof.
  unfold wordb. intros H. apply andb_true_iff in H as [H1 H2].
  now apply negb_true_iff in H1.
Qed.

Lemma flush_words (u : text) :
  no_space u = true -> forallb wordb (flush u) = true.
Proof.
  destruct u as [|c u]; intros H; [reflexivity|].
  simpl flush. simpl forallb. unfold wordb. now rewrite H.
Qed.

Lemma split_go_words (u s : text) :
  no_space u = true -> forallb wordb (split_go u s) = true.
Proof.
  revert u. induction s as [|c r IH]; intros u Hu; simpl.
  - now apply flush_words.
  - destruct (isspace c) eqn:E.
    + rewrite forallb_app, flush_words by assumption. now apply IH.
    + apply IH. rewrite no_space_app, Hu. simpl. now rewrite E.
Qed.

Lemma split_words (s : text) : forallb wordb (split s) = true.
Proof. now apply split_go_words. Qed.

Lemma join_cons (sep p : text) (rest : list text) :
  rest <> [] -> join sep (p :: rest) = p ++ sep ++ join sep rest.
Proof. destruct rest; [congruence | reflexivity]. Qed.

Lemma split_join (ws : list text) :
  forallb wordb ws = true -> split (join [space] ws) = ws.
Proof.
  unfold split. induction ws as [|w ws IH]; [reflexivity|].
  intros H. simpl in H. apply andb_true_iff in H as [Hw Hws].
  apply wordb_inv in Hw as [Hne Hns].
  destruct ws as [|w2 rest].
  - simpl. rewrite <- (app_nil_r w) at 1.
    rewrite split_go_word by assumption. simpl. now apply flush_word.
  - rewrite join_cons by discriminate.
    rewrite split_go_word by assumption. simpl app at 1.
    change (split_go w ([space] ++ join [space] (w2 :: rest)))
      with (flush w ++ split_go [] (join [space] (w2 :: rest))).
    rewrite flush_word, IH by assumption. reflexivity.
Qed.

(** Collapsing is a projection. *)
Lemma collapse_idempotent (s : text) : collapse (collapse s) = collapse s.
Proof.
  unfold collapse. now rewrite split_join by apply split_words.
Qed.

Lemma split_go_nil_inv (u s : text) :
  split_go u s = [] -> u = [] /\ forallb isspace s = true.
Proof.
  revert u. induction s as [|c r IH]; intros u; simpl.
  - destruct u; [auto | discriminate].
  - destruct (isspace c) eqn:E.
    + intros H. apply app_eq_nil in H as [Hu Hr].
      destruct u; [|discriminate]. split; [reflexivity|].
      now apply IH in Hr.
    + intros H. apply IH in H as [H _]. now destruct u.
Qed.

Lemma split_all_space (s : text) :
  forallb isspace s = true -> split s = [].
Proof.
  unfold split. induction s as [|c r IH]; simpl; [reflexivity|].
  intros H. apply andb_true_iff in H as [Hc Hr]. rewrite Hc. simpl. auto.
Qed.

Lemma join_words_nil_inv (ws : list text) :
  forallb wordb ws = true -> join [space] ws = [] -> ws = [].
Proof.
  destruct ws as [|w ws]; [reflexivity|]. intros H.
  simpl in H. apply andb_true_iff in H as [Hw _].
  apply wordb_inv in Hw as [Hne _].
  destruct w; [discriminate|]. destruct ws; discriminate.
Qed.

(** The collapsed text is empty exactly when the text is blank. *)
Lemma collapse_nil_iff (s : text) :
  collapse s = [] <-> forallb isspace s = true.
Proof.
  unfold collapse. split.
  - intros H. apply join_words_nil_inv in H; [|apply split_words].
    now apply split_go_nil_inv in H.
  - intros H. now rewrite split_all_space.
Qed.

Lemma strip_nil_iff (s : text) :
  strip s = [] <-> forallb isspace s = true.
Proof. split; [apply strip_nil_inv | apply strip_all_space]. Qed.

(** ** The shape of collapsed text *)

Lemma no_leading_ws_snoc (l : text) (c : codepoint) :
  l <> [] -> no_leading_ws (l ++ [c]) = no_leading_ws l.
Proof. destruct l; [congruence | reflexivity]. Qed.

Lemma no_trailing_ws_cons (c : codepoint) (r : text) :
  r <> [] -> no_trailing_ws (c :: r) = no_trailing_ws r.
Proof.
  intros H. unfold no_trailing_ws. simpl. apply no_leading_ws_snoc.
  intros E. apply H. apply (f_equal (@rev _)) in E.
  now rewrite rev_involutive in E.
Qed.

Lemma no_trailing_ws_app (u v : text) :
  v <> [] -> no_trailing_ws (u ++ v) = no_trailing_ws v.
Proof.
  intros H. induction u as [|c u IH]; [reflexivity|].
  simpl. rewrite no_trailing_ws_cons; [exact IH|].
  destruct u; simpl; [exact H | discriminate].
Qed.

Lemma no_trailing_ws_word (w : text) :
  no_space w = true -> no_trailing_ws w = true.
Proof.
  unfold no_trailing_ws, no_space. intros H.
  destruct (rev w) as [|c r] eqn:E; [reflexivity|]. simpl.
  rewrite forallb_forall in H. apply H. apply in_rev. rewrite E. now left.
Qed.

Lemma no_double_space_cons (c : codepoint) (s : text) :
  isspace c = false -> no_double_space (c :: s) = no_double_space s.
Proof.
  intros H. destruct s as [|d s]; [reflexivity|].
  simpl. destruct (N.eqb_spec c space) as [->|_]; [discriminate|reflexivity].
Qed.

Lemma no_double_space_word (w s : text) :
  no_space w = true -> no_double_space (w ++ s) = no_double_space s.
Proof.
  induction w as [|c w IH]; intros H; [reflexivity|].
  simpl in H. apply andb_true_iff in H as [Hc Hw].
  apply negb_true_iff in Hc. simpl app.
  rewrite no_double_space_cons by assumption. auto.
Qed.

Lemma only_plain_spaces_word (w : text) :
  no_space w = true -> only_plain_spaces w = true.
Proof.
  unfold no_space, only_plain_spaces. rewrite !forallb_forall.
  intros H c Hc. now rewrite (H c Hc).
Qed.

Lemma join_words_nonempty (w : text) (ws : list text) :
  is_empty w = false -> join [space] (w :: ws) <> [].
Proof. destruct w; [discriminate|]. destruct ws; discriminate. Qed.

(** Words joined by single spaces have the collapsed shape. *)
Lemma collapsedb_join (ws : list text) :
  forallb wordb ws = true -> collapsedb (join [space] ws) = true.
Proof.
  induction ws as [|w ws IH]; [reflexivity|].
  intros H. simpl in H. apply andb_true_iff in H as [Hw Hws].
  apply wordb_inv in Hw as [Hne Hns].
  destruct ws as [|w2 rest].
  - simpl. unfold collapsedb.
    rewrite only_plain_spaces_word, no_trailing_ws_word by assumption.
    rewrite <- (app_nil_r w) at 2.
    rewrite no_double_space_word by assumption.
    destruct w as [|c w]; [discriminate|]. simpl in Hns |- *.
    apply andb_true_iff in Hns as [Hc _]. now rewrite Hc.
  - specialize (IH Hws). rewrite join_cons by discriminate.
    set (J := join [space] (w2 :: rest)) in *.
    assert (HJ : J <> []).
    { simpl in Hws. apply andb_true_iff in Hws as [Hw2 _].
      apply wordb_inv in Hw2 as [Hne2 _]. now apply join_words_nonempty. }
    unfold collapsedb in IH |- *.
    repeat (apply andb_true_iff in IH as [IH ?]).
    unfold only_plain_spaces in *. rewrite !forallb_app.
    fold (only_plain_spaces w). rewrite only_plain_spaces_word by assumption.
    rewrite IH. simpl forallb.
    rewrite no_trailing_ws_app by (destruct J; discriminate).
    change ([space] ++ J) with (space :: J).
    rewrite no_trailing_ws_cons by assumption.
    rewrite no_double_space_word by assumption.
    destruct w as [|c w]; [discriminate|]. simpl in Hns.
    apply andb_true_iff in Hns as [Hc _]. simpl no_leading_ws. rewrite Hc.
    destruct J as [|d J']; [congruence|].
    simpl in H1. apply negb_true_iff in H1.
    change (no_double_space (space :: d :: J'))
      with (negb ((space =? space)%N && (d =? space)%N)
            && no_double_space (d :: J')).
    destruct (N.eqb_spec d space) as [->|_]; [discriminate|].
    simpl. repeat (apply andb_true_iff; split); auto.
Qed.

Lemma collapsedb_collapse (s : text) : collapsedb (collapse s) = true.
Proof. apply collapsedb_join, split_words. Qed.

(** Conversely, text of the collapsed shape is left as it is: the scan
    [split_go], resumed with the word [u] open, gives back [u ++ s]. *)
Lemma join_split_go (u s : text) :
  no_space u = true ->
  only_plain_spaces s = true ->
  no_double_space s = true ->
  no_trailing_ws s = true ->
  (u = [] -> no_leading_ws s = true) ->
  join [space] (split_go u s) = u ++ s.
Proof.
  revert u. induction s as [|c r IH]; intros u Hu Hp Hd Ht Hl.
  - simpl. rewrite app_nil_r. now destruct u.
  - simpl in Hp. apply andb_true_iff in Hp as [Hc Hp]. simpl.
    destruct (isspace c) eqn:E.
    + simpl in Hc. apply N.eqb_eq in Hc. subst c.
      destruct u as [|a u]; [specialize (Hl eq_refl); discriminate|].
      destruct r as [|d r']; [discriminate|].
      assert (Ed : isspace d = false).
      { change (negb ((space =? space)%N && (d =? space)%N)
                && no_double_space (d :: r') = true) in Hd.
        apply andb_true_iff in Hd as [Hd _].
        simpl in Hp. apply andb_true_iff in Hp as [Hp _].
        destruct (isspace d); [|reflexivity].
        simpl in Hp. rewrite Hp in Hd. discriminate. }
      assert (Hr : join [space] (split_go [] (d :: r')) = [] ++ d :: r').
      { apply IH; auto.
        - change (negb ((space =? space)%N && (d =? space)%N)
                  && no_double_space (d :: r') = true) in Hd.
          now apply andb_true_iff in Hd as [_ Hd].
        - rewrite no_trailing_ws_cons in Ht by discriminate. exact Ht.
        - intros _. simpl. now rewrite Ed. }
      simpl app in Hr. simpl flush.
      destruct (split_go [] (d :: r')) as [|x X] eqn:EX; [discriminate|].
      change ([a :: u] ++ x :: X) with ((a :: u) :: x :: X).
      rewrite join_cons by discriminate. now rewrite Hr.
    + rewrite IH.
      * now rewrite <- app_assoc.
      * rewrite no_space_app, Hu. simpl. now rewrite E.
      * exact Hp.
      * now rewrite no_double_space_cons in Hd.
      * destruct r; [reflexivity|].
        now rewrite no_trailing_ws_cons in Ht by discriminate.
      * intros H. now destruct u.
Qed.

Lemma collapse_collapsed (s : text) :
  collapsedb s = true -> collapse s = s.
Proof.
  unfold collapsedb. intros H. repeat (apply andb_true_iff in H as [H ?]).
  unfold collapse, split. now rewrite join_split_go.
Qed.

(** The two descriptions of collapsed text agree. *)
Lemma collapsedb_iff (s : text) :
  collapsedb s = true <-> collapse s = s.
Proof.
  split; [apply collapse_collapsed|].
  intros H. rewrite <- H. apply collapsedb_collapse.
Qed.

Lemma collapsed_space_only (s : text) (c : codepoint) :
  collapsedb s = true -> In c s -> isspace c = true -> c = space.
Proof.
  unfold collapsedb. intros H Hin Hc.
  repeat (apply andb_true_iff in H as [H ?]).
  unfold only_plain_spaces in H. rewrite forallb_forall in H.
  specialize (H c Hin). rewrite Hc in H. now apply N.eqb_eq in H.
Qed.

Lemma collapsed_no_newline (s : text) :
  collapsedb s = true -> ~ In newline s.
Proof.
  intros H Hin.
  pose proof (@collapsed_space_only s newline H Hin isspace_newline).
  discriminate.
Qed.

End TextFacts.

(** * Laws of the trace monad *)

Section Laws.
Local Open Scope list_scope.
Variable call : Type.
Variables A B C : Type.

Lemma bind_ret_l (a : A) (k : A -> M call B) : bind (ret a) k = k a.
Proof. unfold bind, ret. now destruct (k a). Qed.

Lemma bind_ret_r (m : M call A) : bind m ret = m.
Proof.
  destruct m as [t [a|e]]; simpl; [|reflexivity]. now rewrite app_nil_r.
Qed.

Lemma bind_assoc (m : M call A) (f : A -> M call B) (g : B -> M call C) :
  bind (bind m f) g = bind m (fun a => bind (f a) g).
Proof.
  destruct m as [t [a|e]]; simpl; [|reflexivity].
  destruct (f a) as [t1 [b|e]]; simpl; [|reflexivity].
  destruct (g b) as [t2 r]. now rewrite app_assoc.
Qed.

(** An exception skips the rest of the block and reaches the handler; a
    block that returns never runs it. *)
Lemma try_except_raise (m : M call A) (h : exn -> M call A) (e : exn) :
  outcome m = Raise e ->
  trace (try_except m h) = trace m ++ trace (h e)
  /\ outcome (try_except m h) = outcome (h e).
Proof.
  destruct m as [t r]. simpl. intros ->. simpl. now destruct (h e).
Qed.

Lemma try_except_ok (m : M call A) (h : exn -> M call A) (a : A) :
  outcome m = Ok a -> try_except m h = m.
Proof. destruct m as [t r]. simpl. now intros ->. Qed.

End Laws.

(** * The text normaliser *)

Section NormalizeFacts.
Import Py.
Local Open Scope list_scope.

Variable unicodedata_normalize : string -> text -> text.
Hypothesis NFC : nfc_spec (unicodedata_normalize "NFC"%string).

Lemma normalize_collapsed (s : text) :
  collapsedb (normalize unicodedata_normalize s) = true.
Proof.
  unfold normalize. apply (nfc_collapsed NFC).
  apply (collapsedb_collapse s).
Qed.

Lemma normalize_nil_iff (s : text) :
  normalize unicodedata_normalize s = [] <-> forallb isspace s = true.
Proof.
  unfold normalize. fold (collapse s). rewrite <- collapse_nil_iff. split.
  - apply (nfc_nonempty NFC).
  - intros ->. apply (nfc_nil NFC).
Qed.

(** Normalised text is blank only when it is empty, which is when the raw
    text was blank. *)
Lemma strip_normalize_nil_iff (s : text) :
  strip (normalize unicodedata_normalize s) = []
  <-> forallb isspace s = true.
Proof.
  rewrite strip_collapsed by apply normalize_collapsed.
  apply normalize_nil_iff.
Qed.

(** C5. The normalisation step, [' '.join(x.split())] followed by NFC, is
    idempotent, for an NFC that is itself idempotent and keeps collapsed
    text collapsed. *)
Theorem normalize_idempotent (x : text) :
  normalize unicodedata_normalize (normalize unicodedata_normalize x)
  = normalize unicodedata_normalize x.
Proof.
  unfold normalize at 1.
  fold (collapse (normalize unicodedata_normalize x)).
  rewrite collapse_collapsed by apply normalize_collapsed.
  unfold normalize. apply (nfc_idempotent NFC).
Qed.

End NormalizeFacts.

(** ** The simulated NFC meets [nfc_spec] *)

Section SimFacts.
Import Py.
Local Open Scope list_scope.

Lemma nfc_char_cases (c : codepoint) :
  (c = 0x212B /\ Sim.nfc_char c = 0xC5)%N
  \/ (c = 0x2126 /\ Sim.nfc_char c = 0x3A9)%N
  \/ (c = 0x212A /\ Sim.nfc_char c = 0x4B)%N
  \/ (c <> 0x212B /\ c <> 0x2126 /\ c <> 0x212A /\ Sim.nfc_char c = c)%N.
Proof.
  unfold Sim.nfc_char.
  destruct (N.eqb_spec c 0x212B); [now left|].
  destruct (N.eqb_spec c 0x2126); [now (right; left)|].
  destruct (N.eqb_spec c 0x212A); [now (right; right; left)|].
  now (right; right; right).
Qed.

Lemma nfc_char_idempotent (c : codepoint) :
  Sim.nfc_char (Sim.nfc_char c) = Sim.nfc_char c.
Proof.
  destruct (nfc_char_cases c) as [[_ ->]|[[_ ->]|[[_ ->]|[_ [_ [_ H]]]]]];
    try reflexivity.
  now rewrite !H.
Qed.

Lemma isspace_nfc_char (c : codepoint) :
  isspace (Sim.nfc_char c) = isspace c.
Proof.
  destruct (nfc_char_cases c) as [[-> ->]|[[-> ->]|[[-> ->]|[_ [_ [_ ->]]]]]];
    reflexivity.
Qed.

Lemma space_nfc_char (c : codepoint) :
  (Sim.nfc_char c =? space)%N = (c =? space)%N.
Proof.
  destruct (nfc_char_cases c) as [[-> ->]|[[-> ->]|[[-> ->]|[_ [_ [_ ->]]]]]];
    reflexivity.
Qed.

Lemma no_leading_ws_nfc (s : text) :
  no_leading_ws (Sim.nfc s) = no_leading_ws s.
Proof. destruct s; [reflexivity|]. simpl. now rewrite isspace_nfc_char. Qed.

Lemma no_double_space_nfc (s : text) :
  no_double_space (Sim.nfc s) = no_double_space s.
Proof.
  induction s as [|a s IH]; [reflexivity|].
  destruct s as [|b s]; [reflexivity|].
  change (negb ((Sim.nfc_char a =? space)%N && (Sim.nfc_char b =? space)%N)
          && no_double_space (Sim.nfc (b :: s))
          = negb ((a =? space)%N && (b =? space)%N)
            && no_double_space (b :: s)).
  now rewrite IH, !space_nfc_char.
Qed.

Lemma only_plain_spaces_nfc (s : text) :
  only_plain_spaces (Sim.nfc s) = only_plain_spaces s.
Proof.
  induction s as [|c s IH]; [reflexivity|].
  change (only_plain_spaces (Sim.nfc (c :: s)))
    with ((negb (isspace (Sim.nfc_char c)) || (Sim.nfc_char c =? space)%N)
          && only_plain_spaces (Sim.nfc s)).
  now rewrite IH, isspace_nfc_char, space_nfc_char.
Qed.

Lemma collapsedb_nfc (s : text) : collapsedb (Sim.nfc s) = collapsedb s.
Proof.
  unfold collapsedb, no_trailing_ws.
  rewrite no_double_space_nfc, no_leading_ws_nfc, only_plain_spaces_nfc.
  unfold Sim.nfc at 1. rewrite <- map_rev. fold (Sim.nfc (rev s)).
  now rewrite no_leading_ws_nfc.
Qed.

Lemma sim_nfc_spec : nfc_spec (Sim.unicodedata_normalize "NFC"%string).
Proof.
  change (Sim.unicodedata_normalize "NFC"%string) with Sim.nfc.
  constructor.
  - intros s. unfold Sim.nfc. rewrite map_map. apply map_ext.
    apply nfc_char_idempotent.
  - reflexivity.
  - intros s. apply map_eq_nil.
  - intros s. now rewrite collapsedb_nfc.
Qed.

End SimFacts.

(** * The detection and fallback pipeline *)

Section PdfFacts.
Import Py KhmerPdfParser.
Local Open Scope string_scope.
Local Open Scope list_scope.

Variables Page Image : Type.
Variable lib : collaborators Page Image.

(** ** The detector *)

Lemma detect_pages_skip (before rest : list Page) :
  forallb (page_no_text lib) before = true ->
  detect_pages lib (before ++ rest)
  = (map (@extract_event Page Image) before ++ trace (detect_pages lib rest),
     outcome (detect_pages lib rest)).
Proof.
  induction before as [|pg before IH]; intros H.
  - simpl. now destruct (detect_pages lib rest).
  - simpl in H. apply andb_true_iff in H as [Hpg Hb].
    unfold page_no_text in Hpg. simpl.
    destruct (extract_text lib pg) as [t|e] eqn:E; [|discriminate].
    apply negb_true_iff in Hpg. unfold perform, bind. rewrite Hpg.
    rewrite (IH Hb). reflexivity.
Qed.

Lemma detect_pages_none (pages : list Page) :
  forallb (page_no_text lib) pages = true ->
  detect_pages lib pages = (map (@extract_event Page Image) pages, Ok false).
Proof.
  intros H. rewrite <- (app_nil_r pages) at 1.
  rewrite detect_pages_skip by assumption. simpl. now rewrite app_nil_r.
Qed.

Lemma detect_pdf_type_returns (pdf_path : string) :
  outcome (detect_pdf_type lib pdf_path) = Ok "native"
  \/ outcome (detect_pdf_type lib pdf_path) = Ok "scanned".
Proof.
  unfold detect_pdf_type, perform, bind, try_except.
  destruct (pdfplumber_open lib pdf_path) as [pages|e]; simpl; [|now right].
  destruct (detect_pages lib pages) as [t [[|]|e]]; simpl; auto.
Qed.

(** C2. [detect_pdf_type] reads the pages in order and answers ['native']
    at the first page with a non-empty text, without calling
    [extract_text] on any later page; it answers ['scanned'] when no page
    has text, when the file cannot be opened, and when reading a page
    raises before any text was found.  The exception is logged and
    swallowed: the detector always returns. *)
Theorem detect_pdf_type_short_circuit (pdf_path : string) :
  (forall before pg after,
      pdfplumber_open lib pdf_path = Ok (before ++ pg :: after) ->
      forallb (page_no_text lib) before = true ->
      page_has_text lib pg = true ->
      detect_pdf_type lib pdf_path
      = (Call (Pdfplumber_open pdf_path)
           :: map (@extract_event Page Image) (before ++ [pg]),
         Ok "native"))
  /\ (forall pages,
         pdfplumber_open lib pdf_path = Ok pages ->
         forallb (page_no_text lib) pages = true ->
         detect_pdf_type lib pdf_path
         = (Call (Pdfplumber_open pdf_path)
              :: map (@extract_event Page Image) pages,
            Ok "scanned"))
  /\ (forall e,
         pdfplumber_open lib pdf_path = Raise e ->
         detect_pdf_type lib pdf_path
         = ([Call (Pdfplumber_open pdf_path);
             Log WARNING ("Could not determine PDF type automatically: "
                          ++ exn_str e)],
            Ok "scanned"))
  /\ (forall before pg after e,
         pdfplumber_open lib pdf_path = Ok (before ++ pg :: after) ->
         forallb (page_no_text lib) before = true ->
         extract_text lib pg = Raise e ->
         detect_pdf_type lib pdf_path
         = (Call (Pdfplumber_open pdf_path)
              :: map (@extract_event Page Image) (before ++ [pg])
              ++ [Log WARNING ("Could not determine PDF type automatically: "
                               ++ exn_str e)],
            Ok "scanned"))
  /\ (exists pdf_type, outcome (detect_pdf_type lib pdf_path) = Ok pdf_type).
Proof.
  repeat split.
  - intros before pg after Hopen Hbefore Hpg.
    unfold detect_pdf_type, perform. rewrite Hopen.
    unfold bind at 1. rewrite detect_pages_skip by assumption.
    unfold page_has_text in Hpg. simpl.
    destruct (extract_text lib pg) as [t|e]; [|discriminate].
    simpl. rewrite Hpg. simpl.
    now rewrite map_app, app_nil_r.
  - intros pages Hopen Hpages.
    unfold detect_pdf_type, perform. rewrite Hopen.
    unfold bind at 1. rewrite detect_pages_none by assumption.
    simpl. now rewrite app_nil_r.
  - intros e Hopen. unfold detect_pdf_type, perform. now rewrite Hopen.
  - intros before pg after e Hopen Hbefore Hpg.
    unfold detect_pdf_type, perform. rewrite Hopen.
    unfold bind at 1. rewrite detect_pages_skip by assumption.
    simpl. rewrite Hpg. simpl. now rewrite map_app.
  - destruct (detect_pdf_type_returns pdf_path) as [H|H]; eauto.
Qed.

(** ** The OCR strategy *)

Lemma scanned_pages_ok (lang : string) (imgs : list Image) :
  forallb (ocr_returns lib lang) imgs = true ->
  forall (n : nat) (acc : list text),
    outcome (scanned_pages lib lang n imgs acc)
    = Ok (acc ++ map (ocr_text lib lang) imgs).
Proof.
  induction imgs as [|im imgs IH]; intros H n acc.
  - simpl. now rewrite app_nil_r.
  - simpl in H. apply andb_true_iff in H as [Him Himgs].
    unfold ocr_returns in Him. simpl. unfold perform, ocr_text at 1.
    destruct (image_to_string lib im lang) as [t|e]; [|discriminate].
    simpl. specialize (IH Himgs (S n) (acc ++ [t])).
    destruct (scanned_pages lib lang (S n) imgs (acc ++ [t])) as [tr r].
    simpl in IH |- *. subst r. now rewrite <- app_assoc.
Qed.

Lemma scanned_pages_raise (lang : string) (imgs : list Image) (e : exn) :
  forall (n : nat) (acc : list text),
    outcome (scanned_pages lib lang n imgs acc) = Raise e ->
    exists im, In im imgs /\ image_to_string lib im lang = Raise e.
Proof.
  induction imgs as [|im imgs IH]; intros n acc; simpl; [discriminate|].
  unfold perform.
  destruct (image_to_string lib im lang) as [t|e'] eqn:E; simpl.
  - specialize (IH (S n) (acc ++ [t])).
    destruct (scanned_pages lib lang (S n) imgs (acc ++ [t])) as [tr r].
    simpl in IH |- *. intros H. destruct (IH H) as [im' [Hin Him']].
    exists im'. auto.
  - intros H. injection H as ->. exists im. auto.
Qed.

Lemma scanned_pages_no_native (lang : string) (imgs : list Image) :
  forall (n : nat) (acc : list text),
    forallb (fun x => negb (is_native_call x))
            (trace (scanned_pages lib lang n imgs acc)) = true.
Proof.
  induction imgs as [|im imgs IH]; intros n acc; [reflexivity|].
  simpl. unfold perform.
  destruct (image_to_string lib im lang) as [t|e]; [|reflexivity].
  simpl. specialize (IH (S n) (acc ++ [t])).
  destruct (scanned_pages lib lang (S n) imgs (acc ++ [t])) as [tr r].
  exact IH.
Qed.

Lemma parse_khmer_text_scanned_no_native (pdf_path lang : string) :
  forallb (fun x => negb (is_native_call x))
          (trace (parse_khmer_text_scanned lib pdf_path lang)) = true.
Proof.
  unfold parse_khmer_text_scanned, perform.
  destruct (convert_from_path lib pdf_path 300) as [imgs|e]; [|reflexivity].
  simpl. pose proof (scanned_pages_no_native lang imgs 1 []) as H.
  destruct (scanned_pages lib lang 1 imgs []) as [tr [acc|e]]; simpl in *.
  - now rewrite app_nil_r.
  - rewrite forallb_app, H. reflexivity.
Qed.

(** What [parse_khmer_text_scanned] returns when nothing raises. *)
Lemma parse_khmer_text_scanned_ok (pdf_path lang : string)
    (imgs : list Image) :
  convert_from_path lib pdf_path 300 = Ok imgs ->
  forallb (ocr_returns lib lang) imgs = true ->
  outcome (parse_khmer_text_scanned lib pdf_path lang)
  = Ok (normalize (unicodedata_normalize lib)
          (join [newline] (map (ocr_text lib lang) imgs))).
Proof.
  intros Hc Himgs. unfold parse_khmer_text_scanned, perform. rewrite Hc.
  pose proof (scanned_pages_ok lang imgs Himgs 1 []) as H.
  simpl. destruct (scanned_pages lib lang 1 imgs []) as [tr r].
  simpl in H. subst r. reflexivity.
Qed.

(** [parse_khmer_text_scanned] raises only what the rasterizer or the OCR
    engine raised. *)
Lemma parse_khmer_text_scanned_raise (pdf_path lang : string) (e : exn) :
  outcome (parse_khmer_text_scanned lib pdf_path lang) = Raise e ->
  convert_from_path lib pdf_path 300 = Raise e
  \/ exists imgs im,
       convert_from_path lib pdf_path 300 = Ok imgs
       /\ In im imgs /\ image_to_string lib im lang = Raise e.
Proof.
  unfold parse_khmer_text_scanned, perform.
  destruct (convert_from_path lib pdf_path 300) as [imgs|e'] eqn:Hc.
  - simpl. pose proof (@scanned_pages_raise lang imgs e 1 []) as H.
    destruct (scanned_pages lib lang 1 imgs []) as [tr [acc|e']];
      simpl in *; [discriminate|].
    intros He. injection He as ->. right. exists imgs.
    destruct (H eq_refl) as [im Him]. exists im. auto.
  - simpl. intros H. injection H as ->. now left.
Qed.

(** ** The native strategy *)

Lemma join_all_space (sep : text) (parts : list text) :
  forallb isspace sep = true ->
  forallb (forallb isspace) parts = true ->
  forallb isspace (join sep parts) = true.
Proof.
  intros Hsep. induction parts as [|p parts IH]; intros H; [reflexivity|].
  simpl in H. apply andb_true_iff in H as [Hp Hparts].
  destruct parts as [|q parts]; [exact Hp|].
  rewrite join_cons by discriminate.
  rewrite !forallb_app, Hp, Hsep. simpl. now apply IH.
Qed.

Lemma native_pages_blank (pages : list Page) :
  forallb (page_blank lib) pages = true ->
  forall (n : nat) (acc : list text),
    forallb (forallb isspace) acc = true ->
    exists acc',
      outcome (native_pages lib n pages acc) = Ok acc'
      /\ forallb (forallb isspace) acc' = true.
Proof.
  induction pages as [|pg pages IH]; intros H n acc Hacc.
  - exists acc. auto.
  - simpl in H. apply andb_true_iff in H as [Hpg Hpages].
    unfold page_blank in Hpg. simpl. unfold perform.
    destruct (extract_text lib pg) as [t|e]; [|discriminate]. simpl.
    destruct (truthy t).
    + destruct (IH Hpages (S n) (acc ++ [text_of t])) as [acc' [Ho Hb]].
      { rewrite forallb_app. apply andb_true_iff. split; [exact Hacc|].
        simpl. now rewrite Hpg. }
      exists acc'. split; [|exact Hb].
      destruct (native_pages lib (S n) pages (acc ++ [text_of t])).
      exact Ho.
    + destruct (IH Hpages (S n) acc Hacc) as [acc' [Ho Hb]].
      exists acc'. split; [|exact Hb]. unfold log. simpl.
      destruct (native_pages lib (S n) pages acc). exact Ho.
Qed.

(** The native strategy raises [ValueError] on a document without text. *)
Lemma parse_khmer_text_native_blank (pdf_path : string) (pages : list Page) :
  pdfplumber_open lib pdf_path = Ok pages ->
  forallb (page_blank lib) pages = true ->
  outcome (parse_khmer_text_native lib pdf_path) = Raise no_text_extracted.
Proof.
  intros Hopen Hpages. unfold parse_khmer_text_native, perform.
  rewrite Hopen.
  destruct (native_pages_blank pages Hpages 1 [] eq_refl) as [acc [Ho Hb]].
  simpl. destruct (native_pages lib 1 pages []) as [tr r].
  simpl in Ho. subst r. simpl.
  rewrite strip_all_space by (now apply join_all_space). reflexivity.
Qed.

(** What the native strategy returns is the normalised form of a text
    with a visible character. *)
Lemma parse_khmer_text_native_ok (pdf_path : string) (t : text) :
  outcome (parse_khmer_text_native lib pdf_path) = Ok t ->
  exists full_text,
    forallb isspace full_text = false
    /\ t = normalize (unicodedata_normalize lib) full_text.
Proof.
  unfold parse_khmer_text_native, perform.
  destruct (pdfplumber_open lib pdf_path) as [pages|e]; [|discriminate].
  simpl. destruct (native_pages lib 1 pages []) as [tr [acc|e]];
    [|discriminate].
  simpl. destruct (strip (join [newline] acc)) as [|c r] eqn:E; simpl;
    [discriminate|].
  intros H. injection H as <-. exists (join [newline] acc).
  split; [|reflexivity].
  destruct (forallb isspace (join [newline] acc)) eqn:F; [|reflexivity].
  apply strip_all_space in F. congruence.
Qed.

Lemma parse_khmer_text_scanned_inv (pdf_path lang : string) (t : text) :
  outcome (parse_khmer_text_scanned lib pdf_path lang) = Ok t ->
  exists full_text, t = normalize (unicodedata_normalize lib) full_text.
Proof.
  unfold parse_khmer_text_scanned, perform.
  destruct (convert_from_path lib pdf_path 300) as [imgs|e]; [|discriminate].
  simpl. destruct (scanned_pages lib lang 1 imgs []) as [tr [acc|e]];
    [|discriminate].
  simpl. intros H. injection H as <-. eauto.
Qed.

(** ** The orchestrator *)

(** C1. When the detector answers ['native'] and the native strategy
    raises, [parse_pdf] runs the OCR strategy on the same path and
    returns exactly what it returns, or [None] when it raises too.  When
    the detector answers ['scanned'], [parse_pdf] runs the OCR strategy
    only: after the detection no call to the text-layer reader is made,
    whether OCR succeeds or not. *)
Theorem parse_pdf_fallback (pdf_path lang : string) :
  (forall e,
      outcome (detect_pdf_type lib pdf_path) = Ok "native" ->
      outcome (parse_khmer_text_native lib pdf_path) = Raise e ->
      outcome (parse_pdf lib pdf_path lang)
      = Ok (option_of_result
              (outcome (parse_khmer_text_scanned lib pdf_path lang)))
      /\ trace (parse_pdf lib pdf_path lang)
         = trace (detect_pdf_type lib pdf_path)
           ++ [Log INFO "Detected PDF type: native";
               Log INFO "Attempting to extract text from native PDF."]
           ++ trace (parse_khmer_text_native lib pdf_path)
           ++ [Log WARNING
                 "Failed to extract text from native PDF. Attempting OCR."]
           ++ trace (parse_khmer_text_scanned lib pdf_path lang)
           ++ match outcome (parse_khmer_text_scanned lib pdf_path lang) with
              | Ok _ => []
              | Raise e' =>
                  [Log ERROR ("Failed to extract text via OCR: "
                              ++ exn_str e')]
              end)
  /\ (outcome (detect_pdf_type lib pdf_path) = Ok "scanned" ->
      let after_detection :=
        [Log INFO "Detected PDF type: scanned";
         Log INFO "Performing OCR on scanned PDF."]
        ++ trace (parse_khmer_text_scanned lib pdf_path lang)
        ++ match outcome (parse_khmer_text_scanned lib pdf_path lang) with
           | Ok _ => []
           | Raise _ => [Log ERROR "Failed to extract text via OCR."]
           end in
      outcome (parse_pdf lib pdf_path lang)
      = Ok (option_of_result
              (outcome (parse_khmer_text_scanned lib pdf_path lang)))
      /\ trace (parse_pdf lib pdf_path lang)
         = trace (detect_pdf_type lib pdf_path) ++ after_detection
      /\ forallb (fun x => negb (is_native_call x)) after_detection = true).
Proof.
  split.
  - intros e Hd Hn. unfold parse_pdf.
    destruct (detect_pdf_type lib pdf_path) as [td rd].
    simpl in Hd. subst rd.
    destruct (parse_khmer_text_native lib pdf_path) as [tn rn].
    simpl in Hn. subst rn.
    destruct (parse_khmer_text_scanned lib pdf_path lang) as [ts [t|e']];
      simpl; rewrite ?app_nil_r, <- ?app_assoc; auto.
  - intros Hd. pose proof (parse_khmer_text_scanned_no_native pdf_path lang)
      as Hs.
    unfold parse_pdf.
    destruct (detect_pdf_type lib pdf_path) as [td rd].
    simpl in Hd. subst rd.
    destruct (parse_khmer_text_scanned lib pdf_path lang) as [ts [t|e']];
      simpl in *; rewrite ?app_nil_r, ?forallb_app, ?Hs; auto.
Qed.

(** When the libraries raise nothing outside [Exception], [parse_pdf]
    returns an optional text. *)
Lemma parse_pdf_returns (pdf_path lang : string) :
  exists extracted : option text,
    outcome (parse_pdf lib pdf_path lang) = Ok extracted.
Proof.
  unfold parse_pdf.
  destruct (detect_pdf_type_returns pdf_path) as [Hd|Hd];
    destruct (detect_pdf_type lib pdf_path) as [td rd];
    simpl in Hd; subst rd.
  - destruct (parse_khmer_text_native lib pdf_path) as [tn [t|e]].
    + simpl. eauto.
    + destruct (parse_khmer_text_scanned lib pdf_path lang)
        as [ts [t|e']]; simpl; eauto.
  - destruct (parse_khmer_text_scanned lib pdf_path lang) as [ts [t|e']];
      simpl; eauto.
Qed.

(** The strategies and the detector never log "Unknown PDF type.". *)
Lemma detect_pages_no_unknown (pages : list Page) :
  no_unknown_type (trace (detect_pages lib pages)) = true.
Proof.
  unfold no_unknown_type.
  induction pages as [|pg pages IH]; [reflexivity|].
  simpl. unfold perform.
  destruct (extract_text lib pg) as [t|e]; [|reflexivity]. simpl.
  destruct (truthy t); [reflexivity|].
  now destruct (detect_pages lib pages).
Qed.

Lemma detect_pdf_type_no_unknown (pdf_path : string) :
  no_unknown_type (trace (detect_pdf_type lib pdf_path)) = true.
Proof.
  unfold no_unknown_type, detect_pdf_type, perform.
  destruct (pdfplumber_open lib pdf_path) as [pages|e]; [|reflexivity].
  simpl. pose proof (detect_pages_no_unknown pages) as H.
  unfold no_unknown_type in H.
  destruct (detect_pages lib pages) as [tr [[|]|e]]; simpl in *;
    rewrite ?forallb_app, ?H; reflexivity.
Qed.

Lemma native_pages_no_unknown (pages : list Page) :
  forall (n : nat) (acc : list text),
    no_unknown_type (trace (native_pages lib n pages acc)) = true.
Proof.
  unfold no_unknown_type.
  induction pages as [|pg pages IH]; intros n acc; [reflexivity|].
  simpl. unfold perform.
  destruct (extract_text lib pg) as [t|e]; [|reflexivity]. simpl.
  destruct (truthy t).
  - specialize (IH (S n) (acc ++ [text_of t])).
    now destruct (native_pages lib (S n) pages (acc ++ [text_of t])).
  - specialize (IH (S n) acc). unfold log. simpl.
    now destruct (native_pages lib (S n) pages acc).
Qed.

Lemma parse_khmer_text_native_no_unknown (pdf_path : string) :
  no_unknown_type (trace (parse_khmer_text_native lib pdf_path)) = true.
Proof.
  unfold no_unknown_type, parse_khmer_text_native, perform.
  destruct (pdfplumber_open lib pdf_path) as [pages|e]; [|reflexivity].
  simpl. pose proof (native_pages_no_unknown pages 1 []) as H.
  unfold no_unknown_type in H.
  destruct (native_pages lib 1 pages []) as [tr [acc|e]]; simpl in *.
  - destruct (is_empty (strip (join [newline] acc))); simpl;
      rewrite ?forallb_app, ?H; reflexivity.
  - rewrite forallb_app, H. reflexivity.
Qed.

Lemma scanned_pages_no_unknown (lang : string) (imgs : list Image) :
  forall (n : nat) (acc : list text),
    no_unknown_type (trace (scanned_pages lib lang n imgs acc)) = true.
Proof.
  unfold no_unknown_type.
  induction imgs as [|im imgs IH]; intros n acc; [reflexivity|].
  simpl. unfold perform.
  destruct (image_to_string lib im lang) as [t|e]; [|reflexivity].
  simpl. specialize (IH (S n) (acc ++ [t])).
  now destruct (scanned_pages lib lang (S n) imgs (acc ++ [t])).
Qed.

Lemma parse_khmer_text_scanned_no_unknown (pdf_path lang : string) :
  no_unknown_type (trace (parse_khmer_text_scanned lib pdf_path lang)) = true.
Proof.
  unfold no_unknown_type, parse_khmer_text_scanned, perform.
  destruct (convert_from_path lib pdf_path 300) as [imgs|e]; [|reflexivity].
  simpl. pose proof (scanned_pages_no_unknown lang imgs 1 []) as H.
  unfold no_unknown_type in H.
  destruct (scanned_pages lib lang 1 imgs []) as [tr [acc|e]]; simpl in *;
    rewrite ?forallb_app, ?H; reflexivity.
Qed.

(** C9. The detector answers ['native'] or ['scanned'] and nothing else,
    so [parse_pdf] never takes its [else] branch: the record
    "Unknown PDF type." is never logged. *)
Theorem unknown_type_unreachable (pdf_path lang : string) :
  (outcome (detect_pdf_type lib pdf_path) = Ok "native"
   \/ outcome (detect_pdf_type lib pdf_path) = Ok "scanned")
  /\ no_unknown_type (trace (parse_pdf lib pdf_path lang)) = true.
Proof.
  unfold no_unknown_type.
  split; [apply detect_pdf_type_returns|].
  pose proof (detect_pdf_type_no_unknown pdf_path) as Kd.
  pose proof (parse_khmer_text_native_no_unknown pdf_path) as Kn.
  pose proof (parse_khmer_text_scanned_no_unknown pdf_path lang) as Ks.
  unfold no_unknown_type in Kd, Kn, Ks.
  unfold parse_pdf.
  destruct (detect_pdf_type_returns pdf_path) as [Hd|Hd];
    destruct (detect_pdf_type lib pdf_path) as [td rd];
    simpl in Hd; subst rd.
  - destruct (parse_khmer_text_native lib pdf_path) as [tn [t|e]].
    + simpl in *. rewrite !forallb_app, Kd. simpl.
      now rewrite forallb_app, Kn.
    + destruct (parse_khmer_text_scanned lib pdf_path lang)
        as [ts [t|e']]; simpl in *; rewrite !forallb_app, Kd; simpl;
        rewrite !forallb_app, Kn; simpl; rewrite ?forallb_app, Ks;
        reflexivity.
  - destruct (parse_khmer_text_scanned lib pdf_path lang) as [ts [t|e']];
      simpl in *; rewrite !forallb_app, Kd; simpl;
      rewrite ?forallb_app, Ks; reflexivity.
Qed.

(** C3. Over a document whose pages all give no text or whitespace only,
    the native strategy raises the [ValueError] "No text extracted";
    over the same document the OCR strategy returns whenever the
    rasterizer and every OCR call return, blank output or not, and what
    it raises is what the rasterizer or an OCR call raised. *)
Theorem empty_result_policy (pdf_path lang : string) :
  (forall pages,
      pdfplumber_open lib pdf_path = Ok pages ->
      forallb (page_blank lib) pages = true ->
      outcome (parse_khmer_text_native lib pdf_path)
      = Raise no_text_extracted)
  /\ (forall imgs,
         convert_from_path lib pdf_path 300 = Ok imgs ->
         forallb (ocr_returns lib lang) imgs = true ->
         outcome (parse_khmer_text_scanned lib pdf_path lang)
         = Ok (normalize (unicodedata_normalize lib)
                 (join [newline] (map (ocr_text lib lang) imgs))))
  /\ (forall e,
         outcome (parse_khmer_text_scanned lib pdf_path lang) = Raise e ->
         convert_from_path lib pdf_path 300 = Raise e
         \/ exists imgs im,
              convert_from_path lib pdf_path 300 = Ok imgs
              /\ In im imgs /\ image_to_string lib im lang = Raise e).
Proof.
  split; [|split].
  - intros pages. apply parse_khmer_text_native_blank.
  - intros imgs. apply parse_khmer_text_scanned_ok.
  - intros e. apply parse_khmer_text_scanned_raise.
Qed.

(** ** The extracted text *)

Lemma scanned_pages_returns (lang : string) (imgs : list Image) :
  forall (n : nat) (acc acc' : list text),
    outcome (scanned_pages lib lang n imgs acc) = Ok acc' ->
    forallb (ocr_returns lib lang) imgs = true.
Proof.
  induction imgs as [|im imgs IH]; intros n acc acc'; [reflexivity|].
  simpl. unfold perform, ocr_returns at 1.
  destruct (image_to_string lib im lang) as [t|e]; [|discriminate].
  simpl. specialize (IH (S n) (acc ++ [t]) acc').
  destruct (scanned_pages lib lang (S n) imgs (acc ++ [t])) as [tr r].
  exact IH.
Qed.

Lemma parse_khmer_text_scanned_returns (pdf_path lang : string)
    (imgs : list Image) (t : text) :
  convert_from_path lib pdf_path 300 = Ok imgs ->
  outcome (parse_khmer_text_scanned lib pdf_path lang) = Ok t ->
  forallb (ocr_returns lib lang) imgs = true.
Proof.
  intros Hc. unfold parse_khmer_text_scanned, perform. rewrite Hc. simpl.
  pose proof (@scanned_pages_returns lang imgs 1 []) as H.
  destruct (scanned_pages lib lang 1 imgs []) as [tr [acc|e]];
    [|discriminate].
  intros _. now apply (H acc).
Qed.

Lemma join_all_space_inv (sep : text) (parts : list text) :
  forallb isspace (join sep parts) = true ->
  forallb (forallb isspace) parts = true.
Proof.
  induction parts as [|p parts IH]; [reflexivity|].
  destruct parts as [|q parts].
  - simpl. intros ->. reflexivity.
  - rewrite join_cons by discriminate. rewrite !forallb_app.
    intros H. apply andb_true_iff in H as [Hp H].
    apply andb_true_iff in H as [_ H].
    change (forallb isspace p && forallb (forallb isspace) (q :: parts)
            = true).
    now rewrite Hp, IH.
Qed.

Lemma parse_pdf_some (pdf_path lang : string) (t : text) :
  outcome (parse_pdf lib pdf_path lang) = Ok (Some t) ->
  outcome (parse_khmer_text_native lib pdf_path) = Ok t
  \/ outcome (parse_khmer_text_scanned lib pdf_path lang) = Ok t.
Proof.
  unfold parse_pdf.
  destruct (detect_pdf_type_returns pdf_path) as [Hd|Hd];
    destruct (detect_pdf_type lib pdf_path) as [td rd];
    simpl in Hd; subst rd.
  - destruct (parse_khmer_text_native lib pdf_path) as [tn [t'|e]].
    + simpl. intros H. injection H as ->. now left.
    + destruct (parse_khmer_text_scanned lib pdf_path lang)
        as [ts [t'|e']]; simpl; intros H; [|discriminate].
      injection H as ->. now right.
  - destruct (parse_khmer_text_scanned lib pdf_path lang) as [ts [t'|e']];
      simpl; intros H; [|discriminate].
    injection H as ->. now right.
Qed.

Hypothesis NFC : nfc_spec (unicodedata_normalize lib "NFC").

(** C8, as the code has it.  What the native strategy returns is never
    blank.  What the OCR strategy returns is blank exactly when the OCR
    output of every page is blank, and it is then the empty string. *)
Theorem extracted_text_nonempty (pdf_path lang : string) :
  (forall t,
      outcome (parse_khmer_text_native lib pdf_path) = Ok t ->
      strip t <> [])
  /\ (forall imgs t,
         convert_from_path lib pdf_path 300 = Ok imgs ->
         outcome (parse_khmer_text_scanned lib pdf_path lang) = Ok t ->
         (strip t = [] <-> forallb (ocr_blank lib lang) imgs = true)
         /\ (strip t = [] -> t = [])).
Proof.
  split.
  - intros t H. apply parse_khmer_text_native_ok in H as [full [Hf ->]].
    rewrite (@strip_normalize_nil_iff _ NFC). congruence.
  - intros imgs t Hc Ht.
    pose proof (parse_khmer_text_scanned_returns _ _ Hc Ht) as Hr.
    rewrite (parse_khmer_text_scanned_ok _ _ Hc Hr) in Ht.
    injection Ht as <-. split.
    + rewrite (@strip_normalize_nil_iff _ NFC). split.
      * intros H. apply join_all_space_inv in H.
        clear - H. induction imgs as [|im imgs IH]; [reflexivity|].
        simpl in H |- *. apply andb_true_iff in H as [H1 H2].
        unfold ocr_blank at 1. now rewrite H1, IH.
      * intros H. apply join_all_space; [reflexivity|].
        clear - H. induction imgs as [|im imgs IH]; [reflexivity|].
        simpl in H |- *. apply andb_true_iff in H as [H1 H2].
        unfold ocr_blank in H1. now rewrite H1, IH.
    + rewrite strip_collapsed by apply (@normalize_collapsed _ NFC). auto.
Qed.

Lemma collapsed_single_spaced (t : text) :
  collapsedb t = true -> single_spaced t.
Proof.
  intros H. pose proof H as H'. unfold collapsedb in H'.
  repeat (apply andb_true_iff in H' as [H' ?]).
  repeat split; auto.
  - intros c. now apply collapsed_space_only.
  - now apply collapsed_no_newline.
  - intros Hin.
    pose proof (@collapsed_space_only t 0x09%N H Hin eq_refl).
    discriminate.
Qed.

Lemma pdf_text_single_spaced (pdf_path lang : string) (t : text) :
  outcome (parse_khmer_text_native lib pdf_path) = Ok t
  \/ outcome (parse_khmer_text_scanned lib pdf_path lang) = Ok t
  \/ outcome (parse_pdf lib pdf_path lang) = Ok (Some t) ->
  single_spaced t.
Proof.
  intros H. apply collapsed_single_spaced.
  assert (H' : outcome (parse_khmer_text_native lib pdf_path) = Ok t
               \/ outcome (parse_khmer_text_scanned lib pdf_path lang)
                  = Ok t).
  { destruct H as [H|[H|H]]; auto. now apply parse_pdf_some. }
  destruct H' as [H'|H'].
  - apply parse_khmer_text_native_ok in H' as [full [_ ->]].
    apply (@normalize_collapsed _ NFC).
  - apply parse_khmer_text_scanned_inv in H' as [full ->].
    apply (@normalize_collapsed _ NFC).
Qed.

End PdfFacts.

(** * Image preprocessing and recognition *)

Section ImageFacts.
Import Py KhmerImageRecognizer.
Local Open Scope string_scope.
Local Open Scope list_scope.

Variables Image Enhancer : Type.

(** The four operations on the opened image, as [preprocess_image]
    chains them. *)
Lemma preprocess_image_opened (lib : collaborators Image Enhancer)
    (image_path : string) (img : Image) :
  Image_open lib image_path = Ok img ->
  outcome (preprocess_image lib image_path)
  = match Image_convert lib img "L" with
    | Raise e => Raise e
    | Ok gray =>
        match ImageEnhance_Contrast lib gray with
        | Raise e => Raise e
        | Ok enhancer =>
            match enhance lib enhancer 2 with
            | Raise e => Raise e
            | Ok contrasted =>
                match Image_point lib contrasted threshold "1" with
                | Raise e => Raise e
                | Ok binary => Image_filter lib binary MedianFilter
                end
            end
        end
    end.
Proof.
  intros Hopen. unfold preprocess_image, perform. rewrite Hopen. simpl.
  destruct (Image_convert lib img "L") as [gray|e]; [simpl|reflexivity].
  destruct (ImageEnhance_Contrast lib gray) as [enhancer|e];
    [simpl|reflexivity].
  destruct (enhance lib enhancer 2) as [contrasted|e]; [simpl|reflexivity].
  destruct (Image_point lib contrasted threshold "1") as [binary|e];
    [simpl|reflexivity].
  destruct (Image_filter lib binary MedianFilter) as [denoised|e];
    reflexivity.
Qed.

Lemma threshold_black (x : Z) : threshold x = 0%Z <-> (x < 140)%Z.
Proof.
  unfold threshold. destruct (Z.ltb_spec x 140); split; intros; lia.
Qed.

Lemma threshold_white (x : Z) : threshold x = 255%Z <-> (140 <= x)%Z.
Proof.
  unfold threshold. destruct (Z.ltb_spec x 140); split; intros; lia.
Qed.

(** C6. On an image that can be read, [preprocess_image] makes exactly
    these library calls, in this order, whatever the pixels are:
    grayscale conversion, contrast enhancement by 2, the point operation
    with the table "0 below 140, else 255" into a bilevel image, and the
    median filter.  Whenever it returns an image, all four were
    applied. *)
Theorem preprocess_image_steps (lib : collaborators Image Enhancer)
    (image_path : string) (img : Image) :
  Image_open lib image_path = Ok img ->
  (forall gray enhancer contrasted binary denoised,
      Image_convert lib img "L" = Ok gray ->
      ImageEnhance_Contrast lib gray = Ok enhancer ->
      enhance lib enhancer 2 = Ok contrasted ->
      Image_point lib contrasted threshold "1" = Ok binary ->
      Image_filter lib binary MedianFilter = Ok denoised ->
      outcome (preprocess_image lib image_path) = Ok denoised
      /\ calls (trace (preprocess_image lib image_path))
         = [Open image_path; Convert img "L"; Contrast gray;
            Enhance enhancer 2; Point contrasted threshold "1";
            Filter binary MedianFilter])
  /\ (forall denoised,
         outcome (preprocess_image lib image_path) = Ok denoised ->
         exists gray enhancer contrasted binary,
           Image_convert lib img "L" = Ok gray
           /\ ImageEnhance_Contrast lib gray = Ok enhancer
           /\ enhance lib enhancer 2 = Ok contrasted
           /\ Image_point lib contrasted threshold "1" = Ok binary
           /\ Image_filter lib binary MedianFilter = Ok denoised)
  /\ (forall x : Z,
         (x < 140 -> threshold x = 0) /\ (140 <= x -> threshold x = 255))%Z.
Proof.
  intros Hopen. split; [|split].
  - intros gray enhancer contrasted binary denoised H1 H2 H3 H4 H5.
    unfold preprocess_image, perform.
    rewrite Hopen. simpl. rewrite H1. simpl. rewrite H2. simpl.
    rewrite H3. simpl. rewrite H4. simpl. rewrite H5.
    split; reflexivity.
  - intros denoised. rewrite (preprocess_image_opened _ _ Hopen).
    destruct (Image_convert lib img "L") as [gray|e] eqn:H1;
      [|discriminate].
    destruct (ImageEnhance_Contrast lib gray) as [enhancer|e] eqn:H2;
      [|discriminate].
    destruct (enhance lib enhancer 2) as [contrasted|e] eqn:H3;
      [|discriminate].
    destruct (Image_point lib contrasted threshold "1") as [binary|e] eqn:H4;
      [|discriminate].
    intros H5. exists gray, enhancer, contrasted, binary. auto.
  - intros x. split; intros H.
    + now apply threshold_black.
    + now apply threshold_white.
Qed.

(** C7. What [preprocess_image] returns is a function of the opened
    image alone: two runs that open the same image, under whatever path
    and with whatever else on disk, return the same image or raise the
    same exception. *)
Theorem preprocess_image_deterministic
    (lib1 lib2 : collaborators Image Enhancer) (path1 path2 : string) :
  same_operations lib1 lib2 ->
  Image_open lib1 path1 = Image_open lib2 path2 ->
  outcome (preprocess_image lib1 path1)
  = outcome (preprocess_image lib2 path2).
Proof.
  intros (Hc & He & Hf & Hp & Hm) Hopen.
  destruct (Image_open lib2 path2) as [img|e] eqn:H2.
  - rewrite (preprocess_image_opened _ _ Hopen).
    rewrite (preprocess_image_opened _ _ H2).
    rewrite Hc. destruct (Image_convert lib2 img "L"); [|reflexivity].
    rewrite He. destruct (ImageEnhance_Contrast lib2 a); [|reflexivity].
    rewrite Hf. destruct (enhance lib2 a0 2); [|reflexivity].
    rewrite Hp. destruct (Image_point lib2 a1 threshold "1"); [|reflexivity].
    apply Hm.
  - unfold preprocess_image, perform. now rewrite Hopen, H2.
Qed.

(** ** The recognised text *)

Lemma extract_text_from_image_ok (lib : collaborators Image Enhancer)
    (image : Image) (lang : string) (t : text) :
  outcome (extract_text_from_image lib image lang) = Ok t ->
  exists raw, t = normalize (unicodedata_normalize lib) raw.
Proof.
  unfold extract_text_from_image, perform.
  destruct (image_to_string lib image lang) as [raw|e]; [|discriminate].
  simpl. intros H. injection H as <-. eauto.
Qed.

Lemma parse_image_some (lib : collaborators Image Enhancer)
    (image_path : string) (output_path : option string) (lang : string)
    (t : text) :
  outcome (parse_image lib image_path output_path lang) = Ok (Some t) ->
  exists image, outcome (extract_text_from_image lib image lang) = Ok t.
Proof.
  unfold parse_image.
  destruct (preprocess_image lib image_path) as [tp [image|e]];
    [|discriminate].
  simpl.
  destruct (extract_text_from_image lib image lang) as [tx [t'|e]] eqn:E;
    [|discriminate].
  simpl. intros H. injection H as ->. exists image. now rewrite E.
Qed.

Lemma image_text_single_spaced (lib : collaborators Image Enhancer)
    (image_path : string) (output_path : option string) (image : Image)
    (lang : string) (t : text) :
  nfc_spec (unicodedata_normalize lib "NFC") ->
  outcome (extract_text_from_image lib image lang) = Ok t
  \/ outcome (parse_image lib image_path output_path lang) = Ok (Some t) ->
  single_spaced t.
Proof.
  intros NFC H.
  assert (H' : exists im,
             outcome (extract_text_from_image lib im lang) = Ok t).
  { destruct H as [H|H]; [eauto|]. now apply parse_image_some in H. }
  destruct H' as [im H']. apply extract_text_from_image_ok in H' as [raw ->].
  apply collapsed_single_spaced. now apply normalize_collapsed.
Qed.

End ImageFacts.

(** C10. Every text the scripts return - from the native strategy, the
    OCR strategy, [parse_pdf], [extract_text_from_image] or
    [parse_image] - has no whitespace other than single inner spaces: no
    newline (so the page separators are gone), no tab, nothing to trim at
    the ends and no two spaces in a row. *)
Theorem returned_text_single_spaced
    (Page Image PilImage Enhancer : Type)
    (pdf : KhmerPdfParser.collaborators Page Image)
    (pil : KhmerImageRecognizer.collaborators PilImage Enhancer)
    (t : Py.text) :
  nfc_spec (KhmerPdfParser.unicodedata_normalize pdf "NFC"%string) ->
  nfc_spec (KhmerImageRecognizer.unicodedata_normalize pil "NFC"%string) ->
  (exists pdf_path lang,
      outcome (KhmerPdfParser.parse_khmer_text_native pdf pdf_path) = Ok t
      \/ outcome (KhmerPdfParser.parse_khmer_text_scanned pdf pdf_path lang)
         = Ok t
      \/ outcome (KhmerPdfParser.parse_pdf pdf pdf_path lang) = Ok (Some t))
  \/ (exists image_path output_path image lang,
         outcome (KhmerImageRecognizer.extract_text_from_image pil image lang)
         = Ok t
         \/ outcome (KhmerImageRecognizer.parse_image pil image_path
                       output_path lang) = Ok (Some t)) ->
  single_spaced t.
Proof.
  intros Hpdf Hpil
    [(pdf_path & lang & H)|(image_path & out & image & lang & H)].
  - exact (@pdf_text_single_spaced _ _ pdf Hpdf pdf_path lang t H).
  - exact (@image_text_single_spaced _ _ pil image_path out image lang t
             Hpil H).
Qed.

(** * The properties on simulated documents *)

Section Examples.
Import Py.
Local Open Scope string_scope.
Local Open Scope list_scope.

(** [" A\t\nB  C\u3000".split()], and the same text stripped. *)
Example split_mixed_whitespace :
  split [0x20; 0x41; 0x09; 0x0A; 0x42; 0x20; 0x20; 0x43; 0x3000]%N
  = [[0x41]; [0x42]; [0x43]]%N.
Proof. reflexivity. Qed.

Example strip_mixed_whitespace :
  strip [0x20; 0x41; 0x09; 0x0A; 0x42; 0x20; 0x20; 0x43; 0x3000]%N
  = [0x41; 0x09; 0x0A; 0x42; 0x20; 0x20; 0x43]%N.
Proof. reflexivity. Qed.

(** ZERO WIDTH SPACE is not whitespace for Python; EM SPACE is. *)
Example isspace_samples :
  map isspace [0x08; 0x0B; 0x1F; 0x21; 0x85; 0x2003; 0x200B]%N
  = [false; true; true; false; true; true; false].
Proof. reflexivity. Qed.

(** The two tests of test.py, with the mocked libraries simulated. *)
Example test_parse_khmer_text_native :
  outcome (KhmerPdfParser.parse_khmer_text_native
             (Sim.pdf_lib Sim.native_doc) "dummy.pdf")
  = Ok Sim.greeting.
Proof. reflexivity. Qed.

Example test_parse_khmer_text_scanned :
  outcome (KhmerPdfParser.parse_khmer_text_scanned
             (Sim.pdf_lib Sim.native_doc) "dummy_scanned.pdf" "khm")
  = Ok Sim.greeting.
Proof. reflexivity. Qed.

(** A text layer of one space: detected as native, the native strategy
    raises, and [parse_pdf] returns what OCR returns. *)
Lemma parse_pdf_fallback_witness :
  let lib := Sim.pdf_lib Sim.blank_layer_doc in
  outcome (KhmerPdfParser.detect_pdf_type lib "doc.pdf") = Ok "native"
  /\ outcome (KhmerPdfParser.parse_khmer_text_native lib "doc.pdf")
     = Raise KhmerPdfParser.no_text_extracted
  /\ outcome (KhmerPdfParser.parse_pdf lib "doc.pdf" "khm")
     = Ok (option_of_result
             (outcome (KhmerPdfParser.parse_khmer_text_scanned
                         lib "doc.pdf" "khm"))).
Proof.
  intros lib. split; [reflexivity|]. split; [reflexivity|].
  exact (proj1 (proj1 (parse_pdf_fallback lib "doc.pdf" "khm")
                  KhmerPdfParser.no_text_extracted eq_refl eq_refl)).
Defined.

(** Text on page 1: page 2, which would raise, is never read. *)
Lemma detect_pdf_type_short_circuit_witness :
  let lib := Sim.pdf_lib Sim.first_page_doc in
  KhmerPdfParser.detect_pdf_type lib "doc.pdf"
  = ([Call (KhmerPdfParser.Pdfplumber_open "doc.pdf");
      Call (KhmerPdfParser.Extract_text (Ok (Some Sim.greeting)))],
     Ok "native").
Proof.
  intros lib.
  exact (proj1 (detect_pdf_type_short_circuit lib "doc.pdf")
           [] (Ok (Some Sim.greeting)) [Raise Sim.syntax_error]
           eq_refl eq_refl eq_refl).
Defined.

(** A scan on which OCR finds nothing: the native strategy raises, the
    OCR strategy returns. *)
Lemma empty_result_policy_witness :
  let lib := Sim.pdf_lib Sim.blank_scan_doc in
  outcome (KhmerPdfParser.parse_khmer_text_native lib "scan.pdf")
  = Raise KhmerPdfParser.no_text_extracted
  /\ outcome (KhmerPdfParser.parse_khmer_text_scanned lib "scan.pdf" "khm")
     = Ok (normalize Sim.unicodedata_normalize (join [newline] [[]])).
Proof.
  intros lib. split.
  - exact (proj1 (empty_result_policy lib "scan.pdf" "khm")
             [Ok None] eq_refl eq_refl).
  - exact (proj1 (proj2 (empty_result_policy lib "scan.pdf" "khm"))
             [Ok []] eq_refl eq_refl).
Defined.

(** Normalising " A<tab><newline>ANGSTROM  C" twice. *)
Lemma normalize_idempotent_witness :
  let x := [0x20; 0x41; 0x09; 0x0A; 0x212B; 0x20; 0x20; 0x43]%N in
  normalize Sim.unicodedata_normalize x = [0x41; 0x20; 0xC5; 0x20; 0x43]%N
  /\ normalize Sim.unicodedata_normalize
       (normalize Sim.unicodedata_normalize x)
     = normalize Sim.unicodedata_normalize x.
Proof.
  intros x. split; [reflexivity|].
  exact (@normalize_idempotent Sim.unicodedata_normalize sim_nfc_spec x).
Defined.

(** The four steps on a row of six pixels. *)
Lemma preprocess_image_steps_witness :
  let lib := Sim.img_lib (Sim.one_file "page.png" Sim.sample_pixels)
                         (fun _ => Ok Sim.greeting) in
  outcome (KhmerImageRecognizer.preprocess_image lib "page.png")
  = Ok [0; 0; 255; 255; 255; 0]%Z.
Proof.
  intros lib.
  exact (proj1 (proj1 (@preprocess_image_steps _ _ lib "page.png"
                         Sim.sample_pixels eq_refl)
                  Sim.sample_pixels
                  (116%Z, Sim.sample_pixels)
                  [0; 124; 144; 184; 255; 64]%Z
                  [0; 0; 255; 255; 255; 0]%Z
                  [0; 0; 255; 255; 255; 0]%Z
                  eq_refl eq_refl eq_refl eq_refl eq_refl)).
Defined.

(** The same pixels under two names, on two disks. *)
Lemma preprocess_image_deterministic_witness :
  outcome (KhmerImageRecognizer.preprocess_image
             (Sim.img_lib (Sim.one_file "a.png" Sim.sample_pixels)
                          (fun _ => Ok Sim.greeting)) "a.png")
  = outcome (KhmerImageRecognizer.preprocess_image
               (Sim.img_lib (Sim.one_file "b.tif" Sim.sample_pixels)
                            (fun _ => Raise Sim.engine_error)) "b.tif").
Proof.
  apply preprocess_image_deterministic.
  - repeat split.
  - reflexivity.
Defined.

(** C8 fails for the OCR strategy: on a scan whose only page gives empty
    OCR output it returns the empty string. *)
Lemma ocr_returns_empty_text :
  nfc_spec (Sim.unicodedata_normalize "NFC")
  /\ outcome (KhmerPdfParser.parse_khmer_text_scanned
                (Sim.pdf_lib Sim.blank_scan_doc) "scan.pdf" "khm")
     = Ok []
  /\ strip [] = [].
Proof.
  split; [exact sim_nfc_spec|]. split; reflexivity.
Qed.

Lemma extracted_text_nonempty_witness :
  let lib := Sim.pdf_lib Sim.native_doc in
  strip Sim.greeting <> []
  /\ (strip Sim.greeting = []
      <-> forallb (ocr_blank lib "khm") [Ok Sim.greeting] = true).
Proof.
  intros lib.
  pose (H := @extracted_text_nonempty _ _ lib sim_nfc_spec "doc.pdf" "khm").
  split.
  - exact (proj1 H Sim.greeting eq_refl).
  - exact (proj1 (proj2 H [Ok Sim.greeting] Sim.greeting eq_refl eq_refl)).
Defined.

(** OCR output ending in a newline comes back without it. *)
Lemma returned_text_single_spaced_witness : single_spaced Sim.greeting.
Proof.
  apply (@returned_text_single_spaced _ _ _ _
           (Sim.pdf_lib Sim.blank_layer_doc)
           (Sim.img_lib (Sim.one_file "page.png" Sim.sample_pixels)
                        (fun _ => Ok Sim.greeting))
           Sim.greeting sim_nfc_spec sim_nfc_spec).
  left. exists "doc.pdf", "khm". right. right. reflexivity.
Defined.

End Examples.

(** * More on the strategies and the orchestrator *)

Section PagesAsWords.
Import Py.
Local Open Scope list_scope.

(** A whitespace character ends the current word. *)
Lemma split_go_space_app (u a b : text) (c : codepoint) :
  isspace c = true ->
  split_go u (a ++ c :: b) = split_go u a ++ split b.
Proof.
  intros Hc. revert u. induction a as [|x a IH]; intros u; simpl.
  - now rewrite Hc.
  - destruct (isspace x); [|apply IH].
    now rewrite IH, app_assoc.
Qed.

(** Joining pages with a newline and splitting gives the words of the
    pages, page after page. *)
Lemma split_join_newline (parts : list text) :
  split (join [newline] parts) = List.concat (map split parts).
Proof.
  induction parts as [|p parts IH]; [reflexivity|].
  destruct parts as [|q parts].
  - simpl. now rewrite app_nil_r.
  - rewrite join_cons by discriminate.
    change (p ++ [newline] ++ join [newline] (q :: parts))
      with (p ++ newline :: join [newline] (q :: parts)).
    unfold split at 1. rewrite split_go_space_app by reflexivity.
    rewrite IH. reflexivity.
Qed.

End PagesAsWords.

Section MorePdfFacts.
Import Py KhmerPdfParser.
Local Open Scope string_scope.
Local Open Scope list_scope.

Variables Page Image : Type.
Variable lib : collaborators Page Image.

(** ** The page loop of the native strategy *)

Lemma page_text_ok (pg : Page) (t : option text) :
  extract_text lib pg = Ok t ->
  page_text lib pg = text_of t /\ page_has_text lib pg = truthy t.
Proof. intros E. unfold page_text, page_has_text. now rewrite E. Qed.

Lemma native_pages_ok (pages : list Page) :
  forallb (page_returns lib) pages = true ->
  forall (n : nat) (acc : list text),
    outcome (native_pages lib n pages acc)
    = Ok (acc ++ map (page_text lib) (filter (page_has_text lib) pages)).
Proof.
  induction pages as [|pg pages IH]; intros H n acc.
  - simpl. now rewrite app_nil_r.
  - simpl in H. apply andb_true_iff in H as [Hpg Hpages].
    unfold page_returns in Hpg.
    change (native_pages lib n (pg :: pages) acc)
      with (bind (perform (Extract_text pg) (extract_text lib pg))
              (fun text =>
                 if truthy text
                 then native_pages lib (S n) pages (acc ++ [text_of text])
                 else bind (log WARNING
                              ("No text found on page " ++ str_of_nat n
                               ++ ". It might be a scanned page."))
                        (fun _ => native_pages lib (S n) pages acc))).
    unfold perform.
    destruct (extract_text lib pg) as [t|e] eqn:E; [|discriminate].
    destruct (page_text_ok pg E) as [Ht Hh].
    simpl filter. rewrite Hh. simpl bind.
    destruct (truthy t).
    + specialize (IH Hpages (S n) (acc ++ [text_of t])).
      destruct (native_pages lib (S n) pages (acc ++ [text_of t])).
      simpl in IH |- *. rewrite IH, Ht. now rewrite <- app_assoc.
    + specialize (IH Hpages (S n) acc). unfold log. simpl.
      destruct (native_pages lib (S n) pages acc). exact IH.
Qed.

Lemma native_pages_returns (pages : list Page) :
  forall (n : nat) (acc acc' : list text),
    outcome (native_pages lib n pages acc) = Ok acc' ->
    forallb (page_returns lib) pages = true.
Proof.
  induction pages as [|pg pages IH]; intros n acc acc'; [reflexivity|].
  simpl. unfold perform, page_returns at 1.
  destruct (extract_text lib pg) as [t|e]; [|discriminate]. simpl.
  destruct (truthy t).
  - specialize (IH (S n) (acc ++ [text_of t]) acc').
    destruct (native_pages lib (S n) pages (acc ++ [text_of t])).
    exact IH.
  - specialize (IH (S n) acc acc'). unfold log. simpl.
    destruct (native_pages lib (S n) pages acc). exact IH.
Qed.

Lemma native_pages_raise (pages : list Page) (e : exn) :
  forall (n : nat) (acc : list text),
    outcome (native_pages lib n pages acc) = Raise e ->
    exists pg, In pg pages /\ extract_text lib pg = Raise e.
Proof.
  induction pages as [|pg pages IH]; intros n acc; simpl; [discriminate|].
  unfold perform.
  destruct (extract_text lib pg) as [t|e'] eqn:E; simpl.
  - destruct (truthy t).
    + specialize (IH (S n) (acc ++ [text_of t])).
      destruct (native_pages lib (S n) pages (acc ++ [text_of t])).
      simpl in IH |- *. intros H. destruct (IH H) as [pg' [Hin Hpg']].
      exists pg'. auto.
    + specialize (IH (S n) acc). unfold log. simpl.
      destruct (native_pages lib (S n) pages acc).
      simpl in IH |- *. intros H. destruct (IH H) as [pg' [Hin Hpg']].
      exists pg'. auto.
  - intros H. injection H as ->. exists pg. auto.
Qed.

(** Pages without text have no words. *)
Lemma words_of_text_pages (pages : list Page) :
  forallb (page_returns lib) pages = true ->
  List.concat
    (map split (map (page_text lib) (filter (page_has_text lib) pages)))
  = List.concat (map (fun pg => split (page_text lib pg)) pages).
Proof.
  induction pages as [|pg pages IH]; intros H; [reflexivity|].
  simpl in H. apply andb_true_iff in H as [Hpg Hpages].
  specialize (IH Hpages). unfold page_returns in Hpg.
  destruct (extract_text lib pg) as [t|e] eqn:E; [|discriminate].
  destruct (page_text_ok pg E) as [Ht Hh].
  simpl. rewrite Hh, Ht.
  destruct t as [[|c s]|]; simpl; rewrite ?Ht, IH; reflexivity.
Qed.

(** ** What the strategies return *)

Lemma is_empty_strip (s : text) : is_empty (strip s) = forallb isspace s.
Proof.
  destruct (forallb isspace s) eqn:F.
  - now rewrite strip_all_space.
  - destruct (strip s) eqn:E; [|reflexivity].
    apply strip_nil_inv in E. congruence.
Qed.

Lemma forallb_isspace_join (parts : list text) :
  forallb isspace (join [newline] parts) = forallb (forallb isspace) parts.
Proof.
  destruct (forallb (forallb isspace) parts) eqn:F.
  - now apply join_all_space.
  - destruct (forallb isspace (join [newline] parts)) eqn:E; [|reflexivity].
    apply join_all_space_inv in E. congruence.
Qed.

Lemma blank_text_pages (pages : list Page) :
  forallb (page_returns lib) pages = true ->
  forallb (forallb isspace)
          (map (page_text lib) (filter (page_has_text lib) pages))
  = forallb (page_blank lib) pages.
Proof.
  induction pages as [|pg pages IH]; intros H; [reflexivity|].
  simpl in H. apply andb_true_iff in H as [Hpg Hpages].
  specialize (IH Hpages). unfold page_returns in Hpg.
  destruct (extract_text lib pg) as [t|e] eqn:E; [|discriminate].
  destruct (page_text_ok pg E) as [Ht Hh].
  assert (Hb : page_blank lib pg = forallb isspace (text_of t))
    by (unfold page_blank; now rewrite E).
  simpl. rewrite Hh, Hb.
  destruct t as [[|c s]|]; simpl; rewrite ?Ht, IH; reflexivity.
Qed.

Lemma parse_khmer_text_native_outcome (pdf_path : string)
    (pages : list Page) :
  pdfplumber_open lib pdf_path = Ok pages ->
  forallb (page_returns lib) pages = true ->
  outcome (parse_khmer_text_native lib pdf_path)
  = if forallb (page_blank lib) pages then Raise no_text_extracted
    else Ok (unicodedata_normalize lib "NFC"
               (join [space]
                  (List.concat
                     (map (fun pg => split (page_text lib pg)) pages)))).
Proof.
  intros Hopen Hpages. unfold parse_khmer_text_native, perform.
  rewrite Hopen. pose proof (native_pages_ok pages Hpages 1 []) as H.
  simpl. destruct (native_pages lib 1 pages []) as [tr r].
  simpl in H. subst r. simpl.
  rewrite is_empty_strip, forallb_isspace_join, blank_text_pages
    by assumption.
  destruct (forallb (page_blank lib) pages); [reflexivity|].
  simpl. unfold normalize.
  now rewrite split_join_newline, words_of_text_pages.
Qed.

(** X1. When the file opens and every page can be read, the native
    strategy raises "No text extracted" if every page is blank, and
    otherwise returns the words of the pages, in page order, joined by
    single spaces and normalised; pages without text add nothing. *)
Theorem native_strategy_words (pdf_path : string) (pages : list Page) :
  pdfplumber_open lib pdf_path = Ok pages ->
  forallb (page_returns lib) pages = true ->
  (forallb (page_blank lib) pages = true ->
   outcome (parse_khmer_text_native lib pdf_path) = Raise no_text_extracted)
  /\ (forallb (page_blank lib) pages = false ->
      outcome (parse_khmer_text_native lib pdf_path)
      = Ok (unicodedata_normalize lib "NFC"
              (join [space]
                 (List.concat
                    (map (fun pg => split (page_text lib pg)) pages))))).
Proof.
  intros Hopen Hr.
  rewrite (parse_khmer_text_native_outcome _ Hopen Hr).
  split; intros ->; reflexivity.
Qed.

(** X2. When the rasterizer and every OCR call return, the OCR strategy
    returns the words of the pages' OCR output, in page order, joined by
    single spaces and normalised. *)
Theorem ocr_strategy_words (pdf_path lang : string) (imgs : list Image) :
  convert_from_path lib pdf_path 300 = Ok imgs ->
  forallb (ocr_returns lib lang) imgs = true ->
  outcome (parse_khmer_text_scanned lib pdf_path lang)
  = Ok (unicodedata_normalize lib "NFC"
          (join [space]
             (List.concat
                (map (fun im => split (ocr_text lib lang im)) imgs)))).
Proof.
  intros Hc Himgs.
  rewrite parse_khmer_text_scanned_ok with (imgs := imgs) by assumption.
  unfold normalize. now rewrite split_join_newline, map_map.
Qed.

(** X3. What the native strategy raises is what [pdfplumber.open] or a
    page's [extract_text] raised, or else its own "No text extracted",
    raised only when every page was read and all were blank. *)
Theorem native_strategy_raises (pdf_path : string) (e : exn) :
  outcome (parse_khmer_text_native lib pdf_path) = Raise e ->
  pdfplumber_open lib pdf_path = Raise e
  \/ (exists pages pg,
         pdfplumber_open lib pdf_path = Ok pages
         /\ In pg pages /\ extract_text lib pg = Raise e)
  \/ (exists pages,
         pdfplumber_open lib pdf_path = Ok pages
         /\ forallb (page_returns lib) pages = true
         /\ forallb (page_blank lib) pages = true
         /\ e = no_text_extracted).
Proof.
  destruct (pdfplumber_open lib pdf_path) as [pages|e'] eqn:Hopen.
  - destruct (forallb (page_returns lib) pages) eqn:Hr.
    + rewrite (parse_khmer_text_native_outcome _ Hopen Hr).
      destruct (forallb (page_blank lib) pages) eqn:Hb; [|discriminate].
      intros H. injection H as <-. right. right. exists pages. auto.
    + unfold parse_khmer_text_native, perform. rewrite Hopen. simpl.
      pose proof (@native_pages_returns pages 1 []) as Hret.
      pose proof (@native_pages_raise pages e 1 []) as Hraise.
      destruct (native_pages lib 1 pages []) as [tr [acc|e'']].
      * rewrite (Hret acc eq_refl) in Hr. discriminate.
      * simpl. intros H. injection H as ->.
        destruct (Hraise eq_refl) as [pg Hpg].
        right. left. exists pages, pg. auto.
  - unfold parse_khmer_text_native, perform. rewrite Hopen. simpl.
    intros H. injection H as ->. now left.
Qed.

(** ** The detector and the native strategy agree *)

Lemma detect_pages_ok (pages : list Page) :
  forallb (page_returns lib) pages = true ->
  outcome (detect_pages lib pages) = Ok (existsb (page_has_text lib) pages).
Proof.
  induction pages as [|pg pages IH]; intros H; [reflexivity|].
  simpl in H. apply andb_true_iff in H as [Hpg Hpages].
  specialize (IH Hpages). unfold page_returns in Hpg.
  change (detect_pages lib (pg :: pages))
    with (bind (perform (Extract_text pg) (extract_text lib pg))
            (fun text =>
               if truthy text then ret true else detect_pages lib pages)).
  unfold perform.
  destruct (extract_text lib pg) as [t|e] eqn:E; [|discriminate].
  destruct (page_text_ok pg E) as [_ Hh].
  simpl existsb. rewrite Hh. simpl bind.
  destruct (truthy t); [reflexivity|].
  destruct (detect_pages lib pages). exact IH.
Qed.

Lemma not_blank_has_text (pages : list Page) :
  forallb (page_blank lib) pages = false ->
  forallb (page_returns lib) pages = true ->
  existsb (page_has_text lib) pages = true.
Proof.
  induction pages as [|pg pages IH]; intros Hb Hr; [discriminate|].
  simpl in Hr. apply andb_true_iff in Hr as [Hpg Hpages].
  unfold page_returns in Hpg. simpl in Hb |- *.
  unfold page_blank in Hb at 1. unfold page_has_text at 1.
  destruct (extract_text lib pg) as [t|e]; [|discriminate].
  destruct t as [[|c s]|]; simpl in *; auto.
Qed.

Lemma parse_khmer_text_native_returns (pdf_path : string) (t : text) :
  outcome (parse_khmer_text_native lib pdf_path) = Ok t ->
  exists pages,
    pdfplumber_open lib pdf_path = Ok pages
    /\ forallb (page_returns lib) pages = true
    /\ forallb (page_blank lib) pages = false.
Proof.
  intros H.
  destruct (pdfplumber_open lib pdf_path) as [pages|e] eqn:Hopen.
  - exists pages. split; [reflexivity|].
    assert (Hr : forallb (page_returns lib) pages = true).
    { revert H. unfold parse_khmer_text_native, perform. rewrite Hopen.
      simpl. pose proof (@native_pages_returns pages 1 []) as Hret.
      destruct (native_pages lib 1 pages []) as [tr [acc|e]];
        [|discriminate].
      intros _. now apply (Hret acc). }
    split; [exact Hr|].
    rewrite (parse_khmer_text_native_outcome _ Hopen Hr) in H.
    now destruct (forallb (page_blank lib) pages).
  - revert H. unfold parse_khmer_text_native, perform. rewrite Hopen.
    discriminate.
Qed.

Lemma native_returns_detected (pdf_path : string) (t : text) :
  outcome (parse_khmer_text_native lib pdf_path) = Ok t ->
  outcome (detect_pdf_type lib pdf_path) = Ok "native".
Proof.
  intros H.
  apply parse_khmer_text_native_returns in H as (pages & Hopen & Hr & Hb).
  unfold detect_pdf_type, perform. rewrite Hopen.
  pose proof (detect_pages_ok pages Hr) as Hd.
  rewrite (not_blank_has_text pages Hb Hr) in Hd.
  simpl. destruct (detect_pages lib pages) as [tr r].
  simpl in Hd. subst r. reflexivity.
Qed.

(** X4. The detector never sends a document to OCR that the native
    strategy could have read: whenever [parse_khmer_text_native] would
    return, [detect_pdf_type] answers ['native']; so when it answers
    ['scanned'] the native strategy would have raised. *)
Theorem detector_agrees_with_native (pdf_path : string) :
  (forall t,
      outcome (parse_khmer_text_native lib pdf_path) = Ok t ->
      outcome (detect_pdf_type lib pdf_path) = Ok "native")
  /\ (outcome (detect_pdf_type lib pdf_path) = Ok "scanned" ->
      exists e, outcome (parse_khmer_text_native lib pdf_path) = Raise e).
Proof.
  split; [apply native_returns_detected|].
  intros Hd.
  destruct (outcome (parse_khmer_text_native lib pdf_path)) as [t|e] eqn:Hn;
    [|eauto].
  rewrite (native_returns_detected _ Hn) in Hd. discriminate.
Qed.

(** X5. [parse_pdf] is "native, or else OCR": it returns the text of the
    native strategy whenever that strategy returns, and otherwise what
    the OCR strategy returns, or [None] when that raises too. *)
Theorem parse_pdf_native_or_else_ocr (pdf_path lang : string) :
  outcome (parse_pdf lib pdf_path lang)
  = Ok match outcome (parse_khmer_text_native lib pdf_path) with
       | Ok t => Some t
       | Raise _ =>
           option_of_result
             (outcome (parse_khmer_text_scanned lib pdf_path lang))
       end.
Proof.
  pose proof (@native_returns_detected pdf_path) as Hagree.
  unfold parse_pdf.
  destruct (detect_pdf_type_returns lib pdf_path) as [Hd|Hd];
    destruct (detect_pdf_type lib pdf_path) as [td rd];
    simpl in Hd; subst rd.
  - destruct (parse_khmer_text_native lib pdf_path) as [tn [t|e]].
    + reflexivity.
    + destruct (parse_khmer_text_scanned lib pdf_path lang)
        as [ts [t|e']]; reflexivity.
  - destruct (parse_khmer_text_native lib pdf_path) as [tn [t|e]].
    + specialize (Hagree t eq_refl). discriminate.
    + destruct (parse_khmer_text_scanned lib pdf_path lang)
        as [ts [t|e']]; reflexivity.
Qed.

(** ** When OCR runs *)

Lemma detect_pages_no_ocr (pages : list Page) :
  forallb (fun x => negb (is_ocr_call x)) (trace (detect_pages lib pages))
  = true.
Proof.
  induction pages as [|pg pages IH]; [reflexivity|].
  simpl. unfold perform.
  destruct (extract_text lib pg) as [t|e]; [|reflexivity]. simpl.
  destruct (truthy t); [reflexivity|].
  now destruct (detect_pages lib pages).
Qed.

Lemma detect_pdf_type_no_ocr (pdf_path : string) :
  forallb (fun x => negb (is_ocr_call x))
          (trace (detect_pdf_type lib pdf_path)) = true.
Proof.
  unfold detect_pdf_type, perform.
  destruct (pdfplumber_open lib pdf_path) as [pages|e]; [|reflexivity].
  simpl. pose proof (detect_pages_no_ocr pages) as H.
  destruct (detect_pages lib pages) as [tr [[|]|e]]; simpl in *;
    rewrite ?forallb_app, ?H; reflexivity.
Qed.

Lemma native_pages_no_ocr (pages : list Page) :
  forall (n : nat) (acc : list text),
    forallb (fun x => negb (is_ocr_call x))
            (trace (native_pages lib n pages acc)) = true.
Proof.
  induction pages as [|pg pages IH]; intros n acc; [reflexivity|].
  simpl. unfold perform.
  destruct (extract_text lib pg) as [t|e]; [|reflexivity]. simpl.
  destruct (truthy t).
  - specialize (IH (S n) (acc ++ [text_of t])).
    now destruct (native_pages lib (S n) pages (acc ++ [text_of t])).
  - specialize (IH (S n) acc). unfold log. simpl.
    now destruct (native_pages lib (S n) pages acc).
Qed.

Lemma parse_khmer_text_native_no_ocr (pdf_path : string) :
  forallb (fun x => negb (is_ocr_call x))
          (trace (parse_khmer_text_native lib pdf_path)) = true.
Proof.
  unfold parse_khmer_text_native, perform.
  destruct (pdfplumber_open lib pdf_path) as [pages|e]; [|reflexivity].
  simpl. pose proof (native_pages_no_ocr pages 1 []) as H.
  destruct (native_pages lib 1 pages []) as [tr [acc|e]]; simpl in *.
  - destruct (is_empty (strip (join [newline] acc))); simpl;
      rewrite ?forallb_app, ?H; reflexivity.
  - rewrite forallb_app, H. reflexivity.
Qed.

Lemma no_ocr_no_rasterize (t : list (event (call Page Image))) :
  forallb (fun x => negb (is_ocr_call x)) t = true ->
  filter (@is_rasterize Page Image) t = [].
Proof.
  induction t as [|x t IH]; [reflexivity|]. simpl.
  intros H. apply andb_true_iff in H as [Hx Ht].
  destruct x as [l msg|[p|pg|p dpi|im lang]]; simpl in *;
    try discriminate; auto.
Qed.

Lemma scanned_pages_no_rasterize (lang : string) (imgs : list Image) :
  forall (n : nat) (acc : list text),
    filter (@is_rasterize Page Image)
           (trace (scanned_pages lib lang n imgs acc)) = [].
Proof.
  induction imgs as [|im imgs IH]; intros n acc; [reflexivity|].
  simpl. unfold perform.
  destruct (image_to_string lib im lang) as [t|e]; [|reflexivity].
  simpl. specialize (IH (S n) (acc ++ [t])).
  now destruct (scanned_pages lib lang (S n) imgs (acc ++ [t])).
Qed.

Lemma parse_khmer_text_scanned_rasterizes_once (pdf_path lang : string) :
  filter (@is_rasterize Page Image)
         (trace (parse_khmer_text_scanned lib pdf_path lang))
  = [Call (Convert_from_path pdf_path 300)].
Proof.
  unfold parse_khmer_text_scanned, perform.
  destruct (convert_from_path lib pdf_path 300) as [imgs|e]; [|reflexivity].
  simpl. pose proof (scanned_pages_no_rasterize lang imgs 1 []) as H.
  destruct (scanned_pages lib lang 1 imgs []) as [tr [acc|e]]; simpl in *;
    rewrite ?filter_app, ?H; reflexivity.
Qed.

(** X6. OCR runs exactly when the native strategy fails: if it returns,
    the whole run of [parse_pdf] makes no call to the rasterizer or the
    OCR engine; if it raises, or the detector skipped it, the document
    is rasterized exactly once, at 300 dpi. *)
Theorem parse_pdf_ocr_calls (pdf_path lang : string) :
  (forall t,
      outcome (parse_khmer_text_native lib pdf_path) = Ok t ->
      forallb (fun x => negb (is_ocr_call x))
              (trace (parse_pdf lib pdf_path lang)) = true)
  /\ (forall e,
         outcome (parse_khmer_text_native lib pdf_path) = Raise e ->
         filter (@is_rasterize Page Image)
                (trace (parse_pdf lib pdf_path lang))
         = [Call (Convert_from_path pdf_path 300)]).
Proof.
  pose proof (@native_returns_detected pdf_path) as Hagree.
  pose proof (detect_pdf_type_no_ocr pdf_path) as Kd.
  pose proof (parse_khmer_text_native_no_ocr pdf_path) as Kn.
  pose proof (parse_khmer_text_scanned_rasterizes_once pdf_path lang) as Ks.
  pose proof (no_ocr_no_rasterize _ Kd) as Rd.
  pose proof (no_ocr_no_rasterize _ Kn) as Rn.
  unfold parse_pdf.
  destruct (detect_pdf_type_returns lib pdf_path) as [Hd|Hd];
    destruct (detect_pdf_type lib pdf_path) as [td rd];
    simpl in Hd; subst rd;
    destruct (parse_khmer_text_native lib pdf_path) as [tn [t|e]];
    destruct (parse_khmer_text_scanned lib pdf_path lang) as [ts [t'|e']];
    simpl in *; split; intros x Hx; try discriminate;
    try (specialize (Hagree t eq_refl); discriminate);
    rewrite ?forallb_app, ?filter_app, ?Kd, ?Rd; simpl;
    rewrite ?forallb_app, ?filter_app, ?Kn, ?Rn; simpl;
    rewrite ?filter_app, ?Ks; reflexivity.
Qed.

End MorePdfFacts.

(** * More on the image recognizer *)

Section MoreImageFacts.
Import Py KhmerImageRecognizer.
Local Open Scope string_scope.
Local Open Scope list_scope.

Variables Image Enhancer : Type.
Variable lib : collaborators Image Enhancer.

Lemma preprocess_image_no_ocr (image_path : string) :
  forallb (fun x => negb (is_image_ocr_call x))
          (trace (preprocess_image lib image_path)) = true.
Proof.
  unfold preprocess_image, perform.
  destruct (Image_open lib image_path) as [img|e]; [simpl|reflexivity].
  destruct (Image_convert lib img "L") as [gray|e]; [simpl|reflexivity].
  destruct (ImageEnhance_Contrast lib gray) as [enhancer|e];
    [simpl|reflexivity].
  destruct (enhance lib enhancer 2) as [contrasted|e]; [simpl|reflexivity].
  destruct (Image_point lib contrasted threshold "1") as [binary|e];
    [simpl|reflexivity].
  destruct (Image_filter lib binary MedianFilter) as [denoised|e];
    reflexivity.
Qed.

(** X8. What [preprocess_image] raises is what [Image.open] or one of
    the four Pillow steps raised, and the last record of the run is the
    ERROR record carrying that exception. *)
Theorem preprocess_image_raises (image_path : string) (e : exn) :
  outcome (preprocess_image lib image_path) = Raise e ->
  raised_by_pillow lib image_path e
  /\ last (trace (preprocess_image lib image_path)) (Log INFO "")
     = Log ERROR ("Error during image preprocessing: " ++ exn_str e).
Proof.
  unfold preprocess_image, perform, raised_by_pillow.
  destruct (Image_open lib image_path) as [img|e1] eqn:H0; simpl.
  2:{ intros H. injection H as ->. auto. }
  destruct (Image_convert lib img "L") as [gray|e1] eqn:H1; simpl.
  2:{ intros H. injection H as ->. split; [|reflexivity].
      right. exists img. auto. }
  destruct (ImageEnhance_Contrast lib gray) as [enhancer|e1] eqn:H2; simpl.
  2:{ intros H. injection H as ->. split; [|reflexivity].
      right. exists img. split; [reflexivity|]. right. exists gray. auto. }
  destruct (enhance lib enhancer 2) as [contrasted|e1] eqn:H3; simpl.
  2:{ intros H. injection H as ->. split; [|reflexivity].
      right. exists img. split; [reflexivity|]. right. exists gray.
      split; [assumption|]. right. exists enhancer. auto. }
  destruct (Image_point lib contrasted threshold "1") as [binary|e1] eqn:H4;
    simpl.
  2:{ intros H. injection H as ->. split; [|reflexivity].
      right. exists img. split; [reflexivity|]. right. exists gray.
      split; [assumption|]. right. exists enhancer.
      split; [assumption|]. right. exists contrasted. auto. }
  destruct (Image_filter lib binary MedianFilter) as [denoised|e1] eqn:H5;
    simpl; [discriminate|].
  intros H. injection H as ->. split; [|reflexivity].
  right. exists img. split; [reflexivity|]. right. exists gray.
  split; [assumption|]. right. exists enhancer.
  split; [assumption|]. right. exists contrasted.
  split; [assumption|]. right. exists binary. auto.
Qed.

End MoreImageFacts.

(** * Output paths *)

Section PathFacts.
Import Ascii OsPath.
Local Open Scope string_scope.

(** ** Slices *)

Lemma take_drop (n : nat) (s : string) : take n s ++ drop n s = s.
Proof.
  revert s. induction n as [|n IH]; intros [|a r]; simpl; try reflexivity.
  now rewrite IH.
Qed.

Lemma take_app_length (a b : string) (n : nat) :
  take (String.length a + n) (a ++ b) = a ++ take n b.
Proof. induction a as [|x a IH]; simpl; [reflexivity|]. now rewrite IH. Qed.

Lemma drop_app_length (a b : string) (n : nat) :
  drop (String.length a + n) (a ++ b) = drop n b.
Proof. induction a as [|x a IH]; simpl; [reflexivity|]. exact IH. Qed.

Lemma lacks_app (c : ascii) (a b : string) :
  lacks c (a ++ b) = lacks c a && lacks c b.
Proof.
  induction a as [|x a IH]; simpl; [reflexivity|].
  now rewrite IH, andb_assoc.
Qed.

Lemma append_empty_r (a : string) : a ++ "" = a.
Proof. induction a as [|x a IH]; simpl; [reflexivity|]. now rewrite IH. Qed.

Lemma append_assoc (a b c : string) : (a ++ b) ++ c = a ++ (b ++ c).
Proof. induction a as [|x a IH]; simpl; [reflexivity|]. now rewrite IH. Qed.

Lemma append_cancel_l (a b c : string) : a ++ b = a ++ c -> b = c.
Proof.
  induction a as [|x a IH]; simpl; [auto|].
  intros H. injection H as H. auto.
Qed.

(** ** [rfind] *)

Lemma rfind_from_range (c : ascii) (s : string) :
  forall i : Z,
    (0 <= i)%Z ->
    rfind_from c s i = (-1)%Z
    \/ (i <= rfind_from c s i < i + Z.of_nat (String.length s))%Z.
Proof.
  induction s as [|a r IH]; intros i Hi; [now left|].
  cbn [rfind_from String.length].
  destruct (IH (i + 1)%Z ltac:(lia)) as [H|H].
  - rewrite H. simpl. destruct (Ascii.eqb a c); [right; lia|now left].
  - destruct (Z.leb_spec 0 (rfind_from c r (i + 1))); [right|]; lia.
Qed.

Lemma rfind_from_lacks (c : ascii) (s : string) :
  forall i : Z,
    (0 <= i)%Z ->
    (rfind_from c s i = (-1)%Z <-> lacks c s = true).
Proof.
  induction s as [|a r IH]; intros i Hi; [now split|].
  cbn [rfind_from lacks].
  specialize (IH (i + 1)%Z ltac:(lia)).
  destruct (@rfind_from_range c r (i + 1)%Z ltac:(lia)) as [H|H].
  - rewrite H. simpl. rewrite (proj1 IH H), andb_true_r.
    destruct (Ascii.eqb a c); simpl; split; intros; try reflexivity;
      try discriminate; lia.
  - destruct (Z.leb_spec 0 (rfind_from c r (i + 1))); [|lia].
    destruct (lacks c r).
    + assert (rfind_from c r (i + 1) = (-1)%Z) by now apply IH. lia.
    + rewrite andb_false_r. split; intros; [lia|discriminate].
Qed.

Lemma rfind_from_app (c : ascii) (a b : string) :
  forall i : Z,
    (0 <= i)%Z ->
    rfind_from c (a ++ b) i
    = if (0 <=? rfind_from c b (i + Z.of_nat (String.length a)))%Z
      then rfind_from c b (i + Z.of_nat (String.length a))
      else rfind_from c a i.
Proof.
  induction a as [|x a IH]; intros i Hi.
  - simpl. rewrite Z.add_0_r.
    destruct (@rfind_from_range c b i Hi) as [H|H].
    + now rewrite H.
    + destruct (Z.leb_spec 0 (rfind_from c b i)); [reflexivity|lia].
  - cbn [append rfind_from String.length].
    rewrite (IH (i + 1)%Z ltac:(lia)).
    replace (i + Z.of_nat (S (String.length a)))%Z
      with (i + 1 + Z.of_nat (String.length a))%Z by lia.
    destruct (Z.leb_spec 0 (rfind_from c b
                              (i + 1 + Z.of_nat (String.length a))));
      [|reflexivity].
    destruct (Z.leb_spec 0 (rfind_from c b
                              (i + 1 + Z.of_nat (String.length a))));
      [reflexivity|lia].
Qed.

Lemma rfind_from_shift (c : ascii) (s : string) :
  forall i d : Z,
    (0 <= i)%Z -> (0 <= d)%Z ->
    rfind_from c s (i + d)
    = if (0 <=? rfind_from c s i)%Z then (rfind_from c s i + d)%Z
      else (-1)%Z.
Proof.
  induction s as [|a r IH]; intros i d Hi Hd; [reflexivity|].
  cbn [rfind_from].
  replace (i + d + 1)%Z with (i + 1 + d)%Z by lia.
  rewrite (IH (i + 1)%Z d ltac:(lia) Hd).
  destruct (Z.leb_spec 0 (rfind_from c r (i + 1))).
  - destruct (Z.leb_spec 0 (rfind_from c r (i + 1) + d)); [|lia].
    destruct (Z.leb_spec 0 (rfind_from c r (i + 1))); [reflexivity|lia].
  - simpl. destruct (Ascii.eqb a c); [|reflexivity].
    destruct (Z.leb_spec 0 i); [reflexivity|lia].
Qed.

(** At the index [rfind] returns stands the character, for the last
    time. *)
Lemma drop_rfind_from (c : ascii) (s : string) :
  forall i : Z,
    (0 <= i)%Z -> (0 <= rfind_from c s i)%Z ->
    exists rest,
      drop (Z.to_nat (rfind_from c s i - i)) s = String c rest
      /\ lacks c rest = true.
Proof.
  induction s as [|a r IH]; intros i Hi; cbn [rfind_from]; [lia|].
  destruct (@rfind_from_range c r (i + 1)%Z ltac:(lia)) as [H|H].
  - rewrite H. simpl. destruct (Ascii.eqb_spec a c) as [->|_]; [|lia].
    intros _. rewrite Z.sub_diag. simpl. exists r. split; [reflexivity|].
    now apply (@rfind_from_lacks c r (i + 1)%Z ltac:(lia)).
  - destruct (Z.leb_spec 0 (rfind_from c r (i + 1))); [|lia].
    intros _. destruct (IH (i + 1)%Z ltac:(lia) ltac:(lia)) as [rest Hrest].
    exists rest.
    replace (Z.to_nat (rfind_from c r (i + 1) - i))
      with (S (Z.to_nat (rfind_from c r (i + 1) - (i + 1)))) by lia.
    exact Hrest.
Qed.

(** Past the last occurrence there is none. *)
Lemma lacks_drop_past (c : ascii) (s : string) :
  forall i j : Z,
    (0 <= i)%Z -> (i <= j)%Z -> (rfind_from c s i < j)%Z ->
    lacks c (drop (Z.to_nat (j - i)) s) = true.
Proof.
  induction s as [|a r IH]; intros i j Hi Hij Hlt.
  - now destruct (Z.to_nat (j - i)).
  - destruct (Z.eq_dec i j) as [->|Hne].
    + rewrite Z.sub_diag. simpl drop.
      apply (@rfind_from_lacks c (String a r) j Hi).
      destruct (@rfind_from_range c (String a r) j Hi); lia.
    + replace (Z.to_nat (j - i)) with (S (Z.to_nat (j - (i + 1)))) by lia.
      simpl drop. apply IH; try lia.
      cbn [rfind_from] in Hlt.
      destruct (@rfind_from_range c r (i + 1)%Z ltac:(lia)) as [H|H];
        [lia|].
      destruct (Z.leb_spec 0 (rfind_from c r (i + 1))); lia.
Qed.

(** ** [splitext] *)

Lemma splitext_cut (p : string) :
  fst (splitext p) ++ snd (splitext p) = p
  /\ (snd (splitext p) = ""
      \/ exists rest,
           snd (splitext p) = String "." rest
           /\ lacks "." rest = true /\ lacks "/" rest = true).
Proof.
  unfold splitext, _splitext.
  destruct (Z.ltb_spec (rfind "/" p) (rfind "." p)) as [Hlt|Hge];
    [|split; [apply append_empty_r | now left]].
  destruct (has_non_dot "."
              (take (Z.to_nat (rfind "." p - (rfind "/" p + 1)))
                    (drop (Z.to_nat (rfind "/" p + 1)) p)));
    [|split; [apply append_empty_r | now left]].
  cbn [fst snd]. split; [apply take_drop|]. right.
  unfold rfind in *.
  destruct (@rfind_from_range "/" p 0%Z ltac:(lia)) as [Hs|Hs].
  - destruct (@drop_rfind_from "." p 0%Z ltac:(lia) ltac:(lia))
      as [rest [Hd Hl]].
    rewrite Z.sub_0_r in Hd. exists rest. repeat split; try assumption.
    pose proof (@lacks_drop_past "/" p 0%Z (rfind_from "." p 0)
                  ltac:(lia) ltac:(lia) ltac:(lia)) as H.
    rewrite Z.sub_0_r, Hd in H. exact H.
  - destruct (@drop_rfind_from "." p 0%Z ltac:(lia) ltac:(lia))
      as [rest [Hd Hl]].
    rewrite Z.sub_0_r in Hd. exists rest. repeat split; try assumption.
    pose proof (@lacks_drop_past "/" p 0%Z (rfind_from "." p 0)
                  ltac:(lia) ltac:(lia) ltac:(lia)) as H.
    rewrite Z.sub_0_r, Hd in H. exact H.
Qed.

Lemma rfind_slash_basename (dir name : string) :
  lacks "/" name = true ->
  rfind "/" (dir ++ String "/" name) = Z.of_nat (String.length dir).
Proof.
  intros Hl. unfold rfind. rewrite rfind_from_app by lia.
  cbn [rfind_from]. rewrite Z.add_0_l.
  rewrite (proj2 (@rfind_from_lacks "/" name
                    (Z.of_nat (String.length dir) + 1)%Z ltac:(lia)) Hl).
  simpl. destruct (Z.leb_spec 0 (Z.of_nat (String.length dir)));
    [reflexivity|lia].
Qed.

Lemma rfind_dot_basename (dir name : string) :
  rfind "." (dir ++ String "/" name)
  = if (0 <=? rfind "." name)%Z
    then (rfind "." name + (Z.of_nat (String.length dir) + 1))%Z
    else rfind "." dir.
Proof.
  unfold rfind. rewrite rfind_from_app by lia.
  cbn [rfind_from]. rewrite Z.add_0_l.
  pose proof (@rfind_from_shift "." name 0%Z
                (Z.of_nat (String.length dir) + 1)%Z ltac:(lia) ltac:(lia))
    as Hs.
  rewrite Z.add_0_l in Hs. rewrite Hs.
  destruct (Z.leb_spec 0 (rfind_from "." name 0)).
  - destruct (Z.leb_spec 0 (rfind_from "." name 0
                            + (Z.of_nat (String.length dir) + 1))); [|lia].
    destruct (Z.leb_spec 0 (rfind_from "." name 0
                            + (Z.of_nat (String.length dir) + 1)));
      [reflexivity|lia].
  - reflexivity.
Qed.

Lemma splitext_last_component (dir name : string) :
  lacks "/" name = true ->
  splitext (dir ++ String "/" name)
  = (dir ++ String "/" (fst (splitext name)), snd (splitext name)).
Proof.
  intros Hl. unfold splitext, _splitext.
  rewrite (@rfind_slash_basename dir name Hl), rfind_dot_basename.
  assert (Hname : rfind "/" name = (-1)%Z)
    by (apply (@rfind_from_lacks "/" name 0%Z ltac:(lia)); exact Hl).
  rewrite Hname.
  destruct (@rfind_from_range "." name 0%Z ltac:(lia)) as [Hk|Hk];
    fold (rfind "." name) in Hk.
  - rewrite Hk. change (0 <=? -1)%Z with false.
    change (-1 <? -1)%Z with false. cbv iota. cbn [fst snd].
    destruct (@rfind_from_range "." dir 0%Z ltac:(lia)) as [Hd|Hd];
      fold (rfind "." dir) in Hd;
      destruct (Z.ltb_spec (Z.of_nat (String.length dir)) (rfind "." dir));
      try lia; reflexivity.
  - destruct (Z.leb_spec 0 (rfind "." name)); [|lia].
    destruct (Z.ltb_spec (Z.of_nat (String.length dir))
                (rfind "." name + (Z.of_nat (String.length dir) + 1)));
      [|lia].
    destruct (Z.ltb_spec (-1) (rfind "." name)); [|lia].
    replace (Z.to_nat (rfind "." name + (Z.of_nat (String.length dir) + 1)
                       - (Z.of_nat (String.length dir) + 1)))
      with (Z.to_nat (rfind "." name)) by lia.
    replace (Z.to_nat (Z.of_nat (String.length dir) + 1))
      with (String.length dir + 1)%nat by lia.
    replace (Z.to_nat (rfind "." name - (-1 + 1)))
      with (Z.to_nat (rfind "." name)) by lia.
    replace (Z.to_nat (-1 + 1)) with 0%nat by lia.
    rewrite drop_app_length. cbn [drop].
    destruct (has_non_dot "." (take (Z.to_nat (rfind "." name)) name));
      [|reflexivity].
    replace (Z.to_nat (rfind "." name + (Z.of_nat (String.length dir) + 1)))
      with (String.length dir + S (Z.to_nat (rfind "." name)))%nat by lia.
    rewrite take_app_length, drop_app_length. reflexivity.
Qed.

(** [splitext] cuts the path in two without losing anything; the
    extension is empty or a dot followed by characters that are neither
    a dot nor a slash; and only the last component of the path counts:
    the directory part is carried over unchanged. *)
Theorem splitext_spec (p : string) :
  fst (splitext p) ++ snd (splitext p) = p
  /\ (snd (splitext p) = ""
      \/ exists rest,
           snd (splitext p) = String "." rest
           /\ lacks "." rest = true /\ lacks "/" rest = true)
  /\ (forall dir name,
         lacks "/" name = true ->
         p = dir ++ String "/" name ->
         splitext p
         = (dir ++ String "/" (fst (splitext name)), snd (splitext name))).
Proof.
  destruct (splitext_cut p) as [Hcut Hext].
  repeat split; try assumption.
  intros dir name Hname ->. now apply splitext_last_component.
Qed.

(** ** [generate_output_path] *)

(** The root of the path with a suffix that does not start with a dot
    and has no slash. *)
Lemma suffixed_root (suffix : string) (c : ascii) (s : string)
    (input_path : string) :
  suffix = String c s -> c <> "."%char -> lacks "/" suffix = true ->
  fst (splitext input_path) ++ suffix <> input_path
  /\ (forall dir name,
         lacks "/" name = true ->
         input_path = dir ++ String "/" name ->
         exists name',
           fst (splitext input_path) ++ suffix = dir ++ String "/" name'
           /\ lacks "/" name' = true)
  /\ (lacks "/" input_path = true ->
      lacks "/" (fst (splitext input_path) ++ suffix) = true).
Proof.
  intros Hs Hc Hl.
  destruct (splitext_cut input_path) as [Hcut Hext].
  split; [|split].
  - intros H. rewrite <- Hcut in H at 2. apply append_cancel_l in H.
    destruct Hext as [He|[rest [He _]]]; rewrite He, Hs in H.
    + discriminate.
    + injection H as H _. contradiction.
  - intros dir name Hname ->.
    rewrite (@splitext_last_component dir name Hname). cbn [fst].
    exists (fst (splitext name) ++ suffix). split.
    + rewrite append_assoc. reflexivity.
    + destruct (splitext_cut name) as [Hcut' _].
      rewrite <- Hcut', lacks_app in Hname.
      apply andb_true_iff in Hname as [Hroot _].
      now rewrite lacks_app, Hroot.
  - intros H. rewrite <- Hcut, lacks_app in H.
    apply andb_true_iff in H as [Hroot _].
    now rewrite lacks_app, Hroot.
Qed.

(** X9. The output path of the PDF script is the input path with its
    extension, if any, replaced by "_PDF_Scanned.txt".  It is never the
    input path itself, and it names a file in the directory of the
    input. *)
Theorem generate_output_path_pdf (input_path : string) :
  let output_path := KhmerPdfMain.generate_output_path input_path in
  output_path = fst (splitext input_path) ++ "_PDF_Scanned.txt"
  /\ output_path <> input_path
  /\ (forall dir name,
         lacks "/" name = true ->
         input_path = dir ++ String "/" name ->
         exists name',
           output_path = dir ++ String "/" name'
           /\ lacks "/" name' = true)
  /\ (lacks "/" input_path = true -> lacks "/" output_path = true).
Proof.
  assert (E : KhmerPdfMain.generate_output_path input_path
              = fst (splitext input_path) ++ "_PDF_Scanned.txt").
  { unfold KhmerPdfMain.generate_output_path.
    now destruct (splitext input_path). }
  cbv zeta. rewrite E. split; [reflexivity|].
  apply (@suffixed_root "_PDF_Scanned.txt" "_"%char "PDF_Scanned.txt");
    [reflexivity | discriminate | reflexivity].
Qed.

(** X10. The image script writes where [--output] says, when it is given
    and not empty; otherwise to the input path with its extension
    replaced by "_TextImage.txt", which is never the input path itself
    and lies in the directory of the input. *)
Theorem generate_output_path_image (input_path : string)
    (output_path : option string) :
  (forall c s,
      output_path = Some (String c s) ->
      KhmerImageMain.generate_output_path input_path output_path
      = String c s)
  /\ (output_path = None \/ output_path = Some "" ->
      let default := KhmerImageMain.generate_output_path input_path
                       output_path in
      default = fst (splitext input_path) ++ "_TextImage.txt"
      /\ default <> input_path
      /\ (forall dir name,
             lacks "/" name = true ->
             input_path = dir ++ String "/" name ->
             exists name',
               default = dir ++ String "/" name'
               /\ lacks "/" name' = true)
      /\ (lacks "/" input_path = true -> lacks "/" default = true)).
Proof.
  split.
  - intros c s ->. reflexivity.
  - intros H.
    assert (E : KhmerImageMain.generate_output_path input_path output_path
                = fst (splitext input_path) ++ "_TextImage.txt").
    { unfold KhmerImageMain.generate_output_path.
      destruct H as [->| ->]; now destruct (splitext input_path). }
    cbv zeta. rewrite E. split; [reflexivity|].
    apply (@suffixed_root "_TextImage.txt" "_"%char "TextImage.txt");
      [reflexivity | discriminate | reflexivity].
Qed.

End PathFacts.

(** * The command lines *)

Section PdfMainFacts.
Import Ascii Py KhmerPdfMain.
Local Open Scope string_scope.
Local Open Scope list_scope.

Variables Page Image : Type.
Variable lib : KhmerPdfParser.collaborators Page Image.
Variable os : system.

Lemma output_writes_lift
    (t : list (event (KhmerPdfParser.call Page Image))) :
  output_writes (map (Proc.lift_event (@Lib Page Image)) t) = [].
Proof.
  induction t as [|[l msg|c] t IH]; simpl; auto.
Qed.

Lemma paths_written_lift
    (t : list (event (KhmerPdfParser.call Page Image))) :
  paths_written (map (Proc.lift_event (@Lib Page Image)) t) = [].
Proof.
  induction t as [|[l msg|c] t IH]; simpl; auto.
Qed.

Lemma library_calls_lift
    (t : list (event (KhmerPdfParser.call Page Image))) :
  library_calls (map (Proc.lift_event (@Lib Page Image)) t) = calls t.
Proof.
  induction t as [|[l msg|c] t IH]; simpl; auto. now rewrite IH.
Qed.

(** What the run of [main] comes to, case by case. *)
Lemma main_cases :
  let log_file := "khmer_pdf_parser.log" in
  let run := main lib os in
  let nothing_done :=
    output_writes (Proc.trace run) = []
    /\ paths_written (Proc.trace run) = [log_file]
    /\ library_calls (Proc.trace run) = [] in
  match basicConfig os log_file with
  | Raise e => Proc.outcome run = Raised e /\ nothing_done
  | Ok _ =>
      match parse_args os with
      | Raised e => Proc.outcome run = Raised e /\ nothing_done
      | Exited code => Proc.outcome run = Exited code /\ nothing_done
      | Returned args =>
          let input_path := input_pdf args in
          let output_path := generate_output_path input_path in
          let extraction :=
            KhmerPdfParser.parse_pdf lib input_path (lang args) in
          if isfile os input_path then
            library_calls (Proc.trace run) = calls (Eff.trace extraction)
            /\ match Eff.outcome extraction with
               | Ok (Some (c :: s)) =>
                   output_writes (Proc.trace run) = [(output_path, c :: s)]
                   /\ paths_written (Proc.trace run)
                      = [log_file; output_path]
                   /\ Proc.outcome run
                      = match write_text os output_path (c :: s) with
                        | Ok _ => Returned tt
                        | Raise _ => Exited 1
                        end
               | _ =>
                   output_writes (Proc.trace run) = []
                   /\ paths_written (Proc.trace run) = [log_file]
                   /\ Proc.outcome run = Exited 1
               end
          else
            (Proc.outcome run = Exited 1 /\ nothing_done)
            /\ log_records (Proc.trace run)
               = [(ERROR, ("Input file not found: " ++ input_path)%string)]
      end
  end.
Proof.
  cbv zeta.
  unfold main, setup_logging, Proc.perform, Proc.perform_exit, Proc.lift.
  destruct (basicConfig os "khmer_pdf_parser.log") as [[]|e]; [|now simpl].
  destruct (parse_args os) as [args|e|code]; [|now simpl|now simpl].
  simpl.
  destruct (isfile os (input_pdf args)); [simpl|now simpl].
  destruct (KhmerPdfParser.parse_pdf lib (input_pdf args) (lang args))
    as [tp [[[|c s]|]|e]]; simpl;
    try (destruct (write_text os (generate_output_path (input_pdf args))
                     (c :: s)) as [[]|e]; simpl);
    pose proof (output_writes_lift tp) as W;
    pose proof (paths_written_lift tp) as P;
    pose proof (library_calls_lift tp) as L;
    unfold output_writes, paths_written, library_calls in *; simpl;
    rewrite ?flat_map_app, ?W, ?P, ?L; simpl;
    rewrite ?app_nil_r; repeat split; reflexivity.
Qed.

Lemma pdf_output_path_fresh (input_path : string) :
  generate_output_path input_path <> input_path.
Proof.
  assert (E : generate_output_path input_path
              = (fst (OsPath.splitext input_path)
                 ++ "_PDF_Scanned.txt")%string).
  { unfold generate_output_path. now destruct (OsPath.splitext input_path). }
  rewrite E.
  apply (@suffixed_root "_PDF_Scanned.txt" "_"%char "PDF_Scanned.txt");
    [reflexivity | discriminate | reflexivity].
Qed.

Lemma parse_pdf_collapsed (pdf_path lang : string) (t : text) :
  nfc_spec (KhmerPdfParser.unicodedata_normalize lib "NFC") ->
  Eff.outcome (KhmerPdfParser.parse_pdf lib pdf_path lang) = Ok (Some t) ->
  collapsedb t = true.
Proof.
  intros NFC H. apply parse_pdf_some in H as [H|H].
  - apply parse_khmer_text_native_ok in H as [full [_ ->]].
    now apply normalize_collapsed.
  - apply parse_khmer_text_scanned_inv in H as [full ->].
    now apply normalize_collapsed.
Qed.


(** X12. The PDF script opens for writing its log file
    khmer_pdf_parser.log, to which logging appends, and after it at most
    one output file.  The output file is written only for an existing
    input file, at the generated output path, whose name is not that of
    the input; its content is the non-empty text [parse_pdf] returned,
    which is not blank and has no whitespace but single inner spaces. *)
Theorem main_writes :
  paths_written (Proc.trace (main lib os))
  = "khmer_pdf_parser.log"
      :: map fst (output_writes (Proc.trace (main lib os)))
  /\ (List.length (output_writes (Proc.trace (main lib os))) <= 1)%nat
  /\ forall p c,
       In (p, c) (output_writes (Proc.trace (main lib os))) ->
       exists args,
         parse_args os = Returned args
         /\ isfile os (input_pdf args) = true
         /\ p = generate_output_path (input_pdf args)
         /\ p <> input_pdf args
         /\ Eff.outcome
              (KhmerPdfParser.parse_pdf lib (input_pdf args) (lang args))
            = Ok (Some c)
         /\ c <> []
         /\ (nfc_spec (KhmerPdfParser.unicodedata_normalize lib "NFC") ->
             strip c <> [] /\ single_spaced c).
Proof.
  pose proof main_cases as H. cbv zeta in H.
  destruct (basicConfig os "khmer_pdf_parser.log") as [u|e].
  2:{ destruct H as (_ & -> & -> & _). simpl.
      repeat split; [lia|contradiction]. }
  destruct (parse_args os) as [args|e|code].
  2:{ destruct H as (_ & -> & -> & _). simpl.
      repeat split; [lia|contradiction]. }
  2:{ destruct H as (_ & -> & -> & _). simpl.
      repeat split; [lia|contradiction]. }
  destruct (isfile os (input_pdf args)) eqn:Hf.
  2:{ destruct H as [(_ & -> & -> & _) _]. simpl.
      repeat split; [lia|contradiction]. }
  destruct H as [_ H].
  destruct (Eff.outcome
              (KhmerPdfParser.parse_pdf lib (input_pdf args) (lang args)))
    as [[[|c s]|]|e] eqn:Hrun;
    destruct H as (-> & -> & _); simpl;
    (split; [reflexivity|]); (split; [lia|]); try contradiction.
  intros p c' [Heq|[]]. injection Heq as <- <-.
  exists args. split; [reflexivity|]. split; [exact Hf|].
  split; [reflexivity|]. split; [apply pdf_output_path_fresh|].
  split; [exact Hrun|]. split; [discriminate|]. intros NFC.
  assert (Hc : collapsedb (c :: s) = true)
    by (eapply parse_pdf_collapsed; eassumption).
  split; [|now apply collapsed_single_spaced].
  rewrite strip_collapsed by assumption. discriminate.
Qed.

(** X13. The PDF script touches the PDF and OCR libraries only through
    one run of [parse_pdf] on the input path with the chosen language,
    and only when the input file exists.  For a missing file it exits
    with status 1 without any library call and without opening an output
    file: the only file it writes is the log, which receives the one
    record "Input file not found". *)
Theorem main_guards_extraction (args : namespace) :
  parse_args os = Returned args ->
  (isfile os (input_pdf args) = false ->
   Proc.exit_status (main lib os) = 1%Z
   /\ library_calls (Proc.trace (main lib os)) = []
   /\ output_writes (Proc.trace (main lib os)) = []
   /\ paths_written (Proc.trace (main lib os)) = ["khmer_pdf_parser.log"]
   /\ (raises (basicConfig os "khmer_pdf_parser.log") = false ->
       log_records (Proc.trace (main lib os))
       = [(ERROR, ("Input file not found: " ++ input_pdf args)%string)]))
  /\ (isfile os (input_pdf args) = true ->
      raises (basicConfig os "khmer_pdf_parser.log") = false ->
      library_calls (Proc.trace (main lib os))
      = calls (Eff.trace (KhmerPdfParser.parse_pdf lib (input_pdf args)
                            (lang args)))).
Proof.
  intros Hargs. pose proof main_cases as H. cbv zeta in H.
  rewrite Hargs in H. unfold Proc.exit_status. split.
  - intros Hf. rewrite Hf in H.
    destruct (basicConfig os "khmer_pdf_parser.log") as [u|e].
    + destruct H as [(-> & -> & -> & ->) ->]. auto.
    + destruct H as (-> & -> & -> & ->).
      repeat split; auto. discriminate.
  - intros Hf Hb. rewrite Hf in H.
    destruct (basicConfig os "khmer_pdf_parser.log") as [u|e];
      [|discriminate].
    now destruct H as [-> _].
Qed.

End PdfMainFacts.

Section ImageMainFacts.
Import Ascii Py KhmerImageMain.
Local Open Scope string_scope.
Local Open Scope list_scope.

Variables Image Enhancer : Type.
Variable lib : KhmerImageRecognizer.collaborators Image Enhancer.
Variable os : system.

Lemma image_output_writes_lift
    (t : list (event (KhmerImageRecognizer.call Image Enhancer))) :
  image_output_writes (map (Proc.lift_event (@Lib Image Enhancer)) t) = [].
Proof.
  induction t as [|[l msg|c] t IH]; simpl; auto.
Qed.

Lemma image_paths_written_lift
    (t : list (event (KhmerImageRecognizer.call Image Enhancer))) :
  image_paths_written (map (Proc.lift_event (@Lib Image Enhancer)) t) = [].
Proof.
  induction t as [|[l msg|c] t IH]; simpl; auto.
Qed.

Lemma image_library_calls_lift
    (t : list (event (KhmerImageRecognizer.call Image Enhancer))) :
  image_library_calls (map (Proc.lift_event (@Lib Image Enhancer)) t)
  = calls t.
Proof.
  induction t as [|[l msg|c] t IH]; simpl; auto. now rewrite IH.
Qed.

(** What the run of [main] comes to, case by case. *)
Lemma image_main_cases :
  let log_file := "khmer_image_recognizer.log" in
  let run := main lib os in
  let nothing_done :=
    image_output_writes (Proc.trace run) = []
    /\ image_paths_written (Proc.trace run) = [log_file]
    /\ image_library_calls (Proc.trace run) = [] in
  match basicConfig os log_file with
  | Raise e => Proc.outcome run = Raised e /\ nothing_done
  | Ok _ =>
      match parse_args os with
      | Raised e => Proc.outcome run = Raised e /\ nothing_done
      | Exited code => Proc.outcome run = Exited code /\ nothing_done
      | Returned args =>
          let input_path := input_image args in
          let output_path :=
            generate_output_path input_path (output args) in
          let recognition :=
            KhmerImageRecognizer.parse_image lib input_path
              (Some output_path) (lang args) in
          if isfile os input_path then
            image_library_calls (Proc.trace run)
            = calls (Eff.trace recognition)
            /\ match Eff.outcome recognition with
               | Ok (Some (c :: s)) =>
                   image_output_writes (Proc.trace run)
                   = [(output_path, c :: s)]
                   /\ image_paths_written (Proc.trace run)
                      = [log_file; output_path]
                   /\ Proc.outcome run
                      = match write_text os output_path (c :: s) with
                        | Ok _ => Returned tt
                        | Raise _ => Exited 1
                        end
               | Ok _ =>
                   image_output_writes (Proc.trace run) = []
                   /\ image_paths_written (Proc.trace run) = [log_file]
                   /\ Proc.outcome run = Exited 1
               | Raise e =>
                   image_output_writes (Proc.trace run) = []
                   /\ image_paths_written (Proc.trace run) = [log_file]
                   /\ Proc.outcome run = Raised e
               end
          else
            (Proc.outcome run = Exited 1 /\ nothing_done)
            /\ image_log_records (Proc.trace run)
               = [(ERROR, ("Input file not found: " ++ input_path)%string)]
      end
  end.
Proof.
  cbv zeta.
  unfold main, setup_logging, Proc.perform, Proc.perform_exit, Proc.lift.
  destruct (basicConfig os "khmer_image_recognizer.log") as [[]|e];
    [|now simpl].
  destruct (parse_args os) as [args|e|code]; [|now simpl|now simpl].
  simpl.
  destruct (isfile os (input_image args)); [simpl|now simpl].
  destruct (KhmerImageRecognizer.parse_image lib (input_image args)
              (Some (generate_output_path (input_image args) (output args)))
              (lang args))
    as [tp [[[|c s]|]|e]]; simpl;
    try (destruct (write_text os
                     (generate_output_path (input_image args) (output args))
                     (c :: s)) as [[]|e]; simpl);
    pose proof (image_output_writes_lift tp) as W;
    pose proof (image_paths_written_lift tp) as P;
    pose proof (image_library_calls_lift tp) as L;
    unfold image_output_writes, image_paths_written, image_library_calls
      in *; simpl;
    rewrite ?flat_map_app, ?W, ?P, ?L; simpl;
    rewrite ?app_nil_r; repeat split; reflexivity.
Qed.


Lemma parse_image_collapsed (image_path : string)
    (output_path : option string) (lang : string) (t : text) :
  nfc_spec (KhmerImageRecognizer.unicodedata_normalize lib "NFC") ->
  Eff.outcome (KhmerImageRecognizer.parse_image lib image_path output_path
                 lang) = Ok (Some t) ->
  collapsedb t = true.
Proof.
  intros NFC H. apply parse_image_some in H as [image H].
  apply extract_text_from_image_ok in H as [raw ->].
  now apply normalize_collapsed.
Qed.


(** X15. The image script opens for writing its log file
    khmer_image_recognizer.log, to which logging appends, and after it
    at most one output file.  The output file is written only for an
    existing input file, at the path of [generate_output_path], whose
    name without [--output] is not that of the input; its content is the
    non-empty text [parse_image] returned, which is not blank and has no
    whitespace but single inner spaces. *)
Theorem image_main_writes :
  image_paths_written (Proc.trace (main lib os))
  = "khmer_image_recognizer.log"
      :: map fst (image_output_writes (Proc.trace (main lib os)))
  /\ (List.length (image_output_writes (Proc.trace (main lib os))) <= 1)%nat
  /\ forall p c,
       In (p, c) (image_output_writes (Proc.trace (main lib os))) ->
       exists args,
         parse_args os = Returned args
         /\ isfile os (input_image args) = true
         /\ p = generate_output_path (input_image args) (output args)
         /\ (output args = None -> p <> input_image args)
         /\ Eff.outcome
              (KhmerImageRecognizer.parse_image lib (input_image args)
                 (Some p) (lang args))
            = Ok (Some c)
         /\ c <> []
         /\ (nfc_spec (KhmerImageRecognizer.unicodedata_normalize lib "NFC")
             -> strip c <> [] /\ single_spaced c).
Proof.
  pose proof image_main_cases as H. cbv zeta in H.
  destruct (basicConfig os "khmer_image_recognizer.log") as [u|e].
  2:{ destruct H as (_ & -> & -> & _). simpl.
      repeat split; [lia|contradiction]. }
  destruct (parse_args os) as [args|e|code].
  2:{ destruct H as (_ & -> & -> & _). simpl.
      repeat split; [lia|contradiction]. }
  2:{ destruct H as (_ & -> & -> & _). simpl.
      repeat split; [lia|contradiction]. }
  destruct (isfile os (input_image args)) eqn:Hf.
  2:{ destruct H as [(_ & -> & -> & _) _]. simpl.
      repeat split; [lia|contradiction]. }
  destruct H as [_ H].
  destruct (Eff.outcome
              (KhmerImageRecognizer.parse_image lib (input_image args)
                 (Some (generate_output_path (input_image args)
                          (output args)))
                 (lang args)))
    as [[[|c s]|]|e] eqn:Hrun;
    destruct H as (-> & -> & _); simpl;
    (split; [reflexivity|]); (split; [lia|]); try contradiction.
  intros p c' [Heq|[]]. injection Heq as <- <-.
  exists args. split; [reflexivity|]. split; [exact Hf|].
  split; [reflexivity|]. split.
  { intros Hnone. rewrite Hnone.
    assert (E : generate_output_path (input_image args) None
                = (fst (OsPath.splitext (input_image args))
                   ++ "_TextImage.txt")%string).
    { unfold generate_output_path.
      now destruct (OsPath.splitext (input_image args)). }
    rewrite E.
    apply (@suffixed_root "_TextImage.txt" "_"%char "TextImage.txt");
      [reflexivity | discriminate | reflexivity]. }
  split; [exact Hrun|]. split; [discriminate|]. intros NFC.
  assert (Hc : collapsedb (c :: s) = true)
    by (eapply parse_image_collapsed; eassumption).
  split; [|now apply collapsed_single_spaced].
  rewrite strip_collapsed by assumption. discriminate.
Qed.

End ImageMainFacts.

(** * The further properties on simulated runs *)

Section MoreExamples.
Import Ascii Py.
Local Open Scope string_scope.
Local Open Scope list_scope.

(** A text layer on page 2 only: the result is that page's words. *)
Lemma native_strategy_words_witness :
  outcome (KhmerPdfParser.parse_khmer_text_native
             (Sim.pdf_lib SimOs.second_page_doc) "doc.pdf")
  = Ok (Sim.nfc (join [space] [Sim.greeting])).
Proof.
  exact (proj2 (@native_strategy_words _ _ (Sim.pdf_lib SimOs.second_page_doc)
                  "doc.pdf" [Ok None; Ok (Some Sim.greeting)]
                  eq_refl eq_refl) eq_refl).
Defined.

(** Two scanned pages, the second blank: the words of the first. *)
Lemma ocr_strategy_words_witness :
  outcome (KhmerPdfParser.parse_khmer_text_scanned
             (Sim.pdf_lib SimOs.two_page_scan) "scan.pdf" "khm")
  = Ok (Sim.nfc (join [space] [Sim.greeting])).
Proof.
  exact (@ocr_strategy_words _ _ (Sim.pdf_lib SimOs.two_page_scan)
           "scan.pdf" "khm"
           [Ok (Sim.greeting ++ [newline]); Ok [space; newline]]
           eq_refl eq_refl).
Defined.

(** Page 2 cannot be read: the native strategy raises what it raised. *)
Lemma native_strategy_raises_witness :
  let lib := Sim.pdf_lib Sim.first_page_doc in
  KhmerPdfParser.pdfplumber_open lib "doc.pdf" = Raise Sim.syntax_error
  \/ (exists pages pg,
         KhmerPdfParser.pdfplumber_open lib "doc.pdf" = Ok pages
         /\ In pg pages
         /\ KhmerPdfParser.extract_text lib pg = Raise Sim.syntax_error)
  \/ (exists pages,
         KhmerPdfParser.pdfplumber_open lib "doc.pdf" = Ok pages
         /\ forallb (page_returns lib) pages = true
         /\ forallb (page_blank lib) pages = true
         /\ Sim.syntax_error = KhmerPdfParser.no_text_extracted).
Proof.
  exact (@native_strategy_raises _ _ (Sim.pdf_lib Sim.first_page_doc)
           "doc.pdf" Sim.syntax_error eq_refl).
Defined.

Lemma detector_agrees_with_native_witness :
  outcome (KhmerPdfParser.detect_pdf_type (Sim.pdf_lib Sim.native_doc)
             "doc.pdf") = Ok "native"
  /\ exists e,
       outcome (KhmerPdfParser.parse_khmer_text_native
                  (Sim.pdf_lib Sim.blank_scan_doc) "scan.pdf") = Raise e.
Proof.
  split.
  - exact (proj1 (detector_agrees_with_native (Sim.pdf_lib Sim.native_doc)
                    "doc.pdf") Sim.greeting eq_refl).
  - exact (proj2 (detector_agrees_with_native
                    (Sim.pdf_lib Sim.blank_scan_doc) "scan.pdf") eq_refl).
Defined.

(** No OCR call for the native document; one rasterization for the
    document with a blank text layer. *)
Lemma parse_pdf_ocr_calls_witness :
  forallb (fun x => negb (is_ocr_call x))
          (trace (KhmerPdfParser.parse_pdf (Sim.pdf_lib Sim.native_doc)
                    "doc.pdf" "khm")) = true
  /\ filter (@is_rasterize Sim.Page Sim.Image)
            (trace (KhmerPdfParser.parse_pdf
                      (Sim.pdf_lib Sim.blank_layer_doc) "doc.pdf" "khm"))
     = [Call (KhmerPdfParser.Convert_from_path "doc.pdf" 300)].
Proof.
  split.
  - exact (proj1 (parse_pdf_ocr_calls (Sim.pdf_lib Sim.native_doc)
                    "doc.pdf" "khm") Sim.greeting eq_refl).
  - exact (proj2 (parse_pdf_ocr_calls (Sim.pdf_lib Sim.blank_layer_doc)
                    "doc.pdf" "khm")
             KhmerPdfParser.no_text_extracted eq_refl).
Defined.

Lemma preprocess_image_raises_witness :
  let lib := Sim.img_lib (Sim.one_file "page.png" Sim.sample_pixels)
                         (fun _ => Ok Sim.greeting) in
  raised_by_pillow lib "other.png" Sim.file_not_found
  /\ last (trace (KhmerImageRecognizer.preprocess_image lib "other.png"))
          (Log INFO "")
     = Log ERROR "Error during image preprocessing: no such file".
Proof.
  intros lib.
  exact (@preprocess_image_raises _ _ lib "other.png" Sim.file_not_found
           eq_refl).
Defined.

(** Only the last extension of the last component is cut off. *)
Lemma splitext_spec_witness :
  OsPath.splitext "scans.d/doc.v2.pdf" = ("scans.d/doc.v2", ".pdf").
Proof.
  exact (proj2 (proj2 (splitext_spec "scans.d/doc.v2.pdf"))
           "scans.d" "doc.v2.pdf" eq_refl eq_refl).
Defined.

(** The output lands next to the input, under another name. *)
Lemma generate_output_path_pdf_witness :
  KhmerPdfMain.generate_output_path "scans.d/doc.v2.pdf"
  <> "scans.d/doc.v2.pdf"
  /\ exists name',
       KhmerPdfMain.generate_output_path "scans.d/doc.v2.pdf"
       = ("scans.d" ++ String "/" name')%string
       /\ OsPath.lacks "/" name' = true.
Proof.
  pose (H := generate_output_path_pdf "scans.d/doc.v2.pdf").
  split.
  - exact (proj1 (proj2 H)).
  - exact (proj1 (proj2 (proj2 H)) "scans.d" "doc.v2.pdf" eq_refl eq_refl).
Defined.

Lemma generate_output_path_image_witness :
  KhmerImageMain.generate_output_path "page.png" (Some "out/text.txt")
  = "out/text.txt"
  /\ KhmerImageMain.generate_output_path "page.png" (Some "")
     = "page_TextImage.txt".
Proof.
  split.
  - exact (proj1 (generate_output_path_image "page.png"
                    (Some "out/text.txt")) "o"%char "ut/text.txt" eq_refl).
  - exact (proj1 (proj2 (generate_output_path_image "page.png" (Some ""))
                    (or_intror eq_refl))).
Defined.


(** The file written for the native document. *)
Lemma main_writes_witness :
  exists args,
    KhmerPdfMain.parse_args (SimOs.pdf_os (fun _ => true) SimOs.full)
    = Returned args
    /\ "scans/doc.v2_PDF_Scanned.txt"
       = KhmerPdfMain.generate_output_path (KhmerPdfMain.input_pdf args)
    /\ Sim.greeting <> [].
Proof.
  destruct (proj2 (proj2 (@main_writes _ _ (Sim.pdf_lib Sim.native_doc)
                            (SimOs.pdf_os (fun _ => true) SimOs.full)))
              "scans/doc.v2_PDF_Scanned.txt" Sim.greeting
              (or_introl eq_refl))
    as (args & Hargs & _ & Hp & _ & _ & Hc & _).
  exists args. auto.
Defined.

(** The input file is missing: status 1 and nothing done. *)
Lemma main_guards_extraction_witness :
  let run := KhmerPdfMain.main (Sim.pdf_lib Sim.native_doc)
               (SimOs.pdf_os (fun _ => false) SimOs.writable) in
  Proc.exit_status run = 1%Z
  /\ library_calls (Proc.trace run) = []
  /\ output_writes (Proc.trace run) = []
  /\ paths_written (Proc.trace run) = ["khmer_pdf_parser.log"].
Proof.
  destruct (proj1 (@main_guards_extraction _ _ (Sim.pdf_lib Sim.native_doc)
                     (SimOs.pdf_os (fun _ => false) SimOs.writable)
                     SimOs.pdf_args eq_refl) eq_refl)
    as (H1 & H2 & H3 & H4 & _).
  auto.
Defined.


Lemma image_main_writes_witness :
  exists args,
    KhmerImageMain.parse_args (SimOs.image_os (fun _ => true) SimOs.writable)
    = Returned args
    /\ "page_TextImage.txt"
       = KhmerImageMain.generate_output_path
           (KhmerImageMain.input_image args) (KhmerImageMain.output args)
    /\ Sim.greeting <> [].
Proof.
  destruct (proj2 (proj2 (@image_main_writes _ _
                     (Sim.img_lib
                        (Sim.one_file "page.png" Sim.sample_pixels)
                        (fun _ => Ok Sim.greeting))
                     (SimOs.image_os (fun _ => true) SimOs.writable)))
              "page_TextImage.txt" Sim.greeting (or_introl eq_refl))
    as (args & Hargs & _ & Hp & _ & _ & Hc & _).
  exists args. auto.
Defined.

End MoreExamples.

(** * Exceptions outside [Exception]: the PDF parser *)

Section BasePdfFacts.
Import Py Base KhmerPdfParserBase.
Local Open Scope string_scope.
Local Open Scope list_scope.

Variables Page Image : Type.
Variable lib : collaborators Page Image.

Lemma detect_pages_aborted (pages : list Page) (b : base_exception) :
  outcome (detect_pages lib pages) = Aborted b -> aborts lib b.
Proof.
  induction pages as [|pg rest IH]; simpl; [discriminate|].
  unfold perform.
  destruct (extract_text lib pg) as [text|e|b'] eqn:E; simpl.
  - destruct (KhmerPdfParser.truthy text); simpl; [discriminate|].
    destruct (detect_pages lib rest) as [t r]. exact IH.
  - discriminate.
  - intros H. injection H as ->. right. left. exists pg. exact E.
Qed.

Lemma detect_pdf_type_ending (pdf_path : string) :
  outcome (detect_pdf_type lib pdf_path) = Done "native"
  \/ outcome (detect_pdf_type lib pdf_path) = Done "scanned"
  \/ (exists b, outcome (detect_pdf_type lib pdf_path) = Aborted b
                /\ aborts lib b).
Proof.
  unfold detect_pdf_type, perform.
  destruct (pdfplumber_open lib pdf_path) as [pages|e|b] eqn:O; simpl.
  - pose proof (detect_pages_aborted pages) as A.
    destruct (detect_pages lib pages) as [t [[|]|e|b]]; simpl in *; auto.
    right. right. exists b. auto.
  - auto.
  - right. right. exists b. split; [reflexivity|]. left.
    exists pdf_path. exact O.
Qed.

Lemma native_pages_aborted (pages : list Page) (n : nat) (acc : list text)
    (b : base_exception) :
  outcome (native_pages lib n pages acc) = Aborted b -> aborts lib b.
Proof.
  revert n acc. induction pages as [|pg rest IH]; intros n acc; simpl;
    [discriminate|].
  unfold perform.
  destruct (extract_text lib pg) as [text|e|b'] eqn:E; simpl.
  - destruct (KhmerPdfParser.truthy text); simpl.
    + specialize (IH (S n) (acc ++ [KhmerPdfParser.text_of text])).
      destruct (native_pages lib (S n) rest _) as [t r]. exact IH.
    + specialize (IH (S n) acc).
      destruct (native_pages lib (S n) rest acc) as [t r]. exact IH.
  - discriminate.
  - intros H. injection H as ->. right. left. exists pg. exact E.
Qed.

Lemma parse_khmer_text_native_aborted (pdf_path : string)
    (b : base_exception) :
  outcome (parse_khmer_text_native lib pdf_path) = Aborted b ->
  aborts lib b.
Proof.
  unfold parse_khmer_text_native, perform.
  destruct (pdfplumber_open lib pdf_path) as [pages|e|b'] eqn:O; simpl.
  - pose proof (@native_pages_aborted pages 1 [] b) as A.
    destruct (native_pages lib 1 pages []) as [t [extracted|e|b']];
      simpl in *.
    + destruct (is_empty (strip (join [newline] extracted))); simpl;
        discriminate.
    + discriminate.
    + intros H. apply A. injection H as ->. reflexivity.
  - discriminate.
  - intros H. injection H as ->. left. exists pdf_path. exact O.
Qed.

Lemma scanned_pages_aborted (lang : string) (pages : list Image) (n : nat)
    (acc : list text) (b : base_exception) :
  outcome (scanned_pages lib lang n pages acc) = Aborted b -> aborts lib b.
Proof.
  revert n acc. induction pages as [|im rest IH]; intros n acc; simpl;
    [discriminate|].
  unfold perform.
  destruct (image_to_string lib im lang) as [text|e|b'] eqn:E; simpl.
  - specialize (IH (S n) (acc ++ [text])).
    destruct (scanned_pages lib lang (S n) rest _) as [t r]. exact IH.
  - discriminate.
  - intros H. injection H as ->. right. right. right.
    exists im, lang. exact E.
Qed.

Lemma parse_khmer_text_scanned_aborted (pdf_path lang : string)
    (b : base_exception) :
  outcome (parse_khmer_text_scanned lib pdf_path lang) = Aborted b ->
  aborts lib b.
Proof.
  unfold parse_khmer_text_scanned, perform. simpl.
  destruct (convert_from_path lib pdf_path 300) as [pages|e|b'] eqn:O;
    simpl.
  - pose proof (@scanned_pages_aborted lang pages 1 [] b) as A.
    destruct (scanned_pages lib lang 1 pages []) as [t [extracted|e|b']];
      simpl in *; [discriminate|discriminate|].
    intros H. apply A. injection H as ->. reflexivity.
  - discriminate.
  - intros H. injection H as ->. right. right. left.
    exists pdf_path, 300%Z. exact O.
Qed.

(** [parse_pdf] returns, or ends with what a library call ended with. *)
Lemma parse_pdf_ending (pdf_path lang : string) :
  (exists extracted,
      outcome (parse_pdf lib pdf_path lang) = Done extracted)
  \/ (exists b, outcome (parse_pdf lib pdf_path lang) = Aborted b
                /\ aborts lib b).
Proof.
  pose proof (parse_khmer_text_native_aborted pdf_path) as AN.
  pose proof (parse_khmer_text_scanned_aborted pdf_path lang) as AS.
  pose proof (detect_pdf_type_ending pdf_path) as D.
  unfold parse_pdf.
  destruct (detect_pdf_type lib pdf_path) as [td [pdf_type|e|b]];
    simpl in D.
  - assert (T : pdf_type = "native" \/ pdf_type = "scanned").
    { destruct D as [D|[D|[b [D _]]]];
        [left; congruence|right; congruence|discriminate]. }
    clear D. destruct T as [-> | ->]; simpl.
    + destruct (parse_khmer_text_native lib pdf_path)
        as [tn [text|e|b]]; simpl in *.
      * left. eexists. reflexivity.
      * destruct (parse_khmer_text_scanned lib pdf_path lang)
          as [ts [text|e'|b]]; simpl in *.
        -- left. eexists. reflexivity.
        -- left. eexists. reflexivity.
        -- right. exists b. auto.
      * right. exists b. auto.
    + destruct (parse_khmer_text_scanned lib pdf_path lang)
        as [ts [text|e'|b]]; simpl in *.
      * left. eexists. reflexivity.
      * left. eexists. reflexivity.
      * right. exists b. auto.
  - destruct D as [D|[D|[b [D _]]]]; discriminate.
  - right. exists b. split; [reflexivity|].
    destruct D as [D|[D|[b' [D A]]]]; try discriminate.
    injection D as ->. exact A.
Qed.

(** How [propagates] composes. *)
Lemma propagates_ret {A} (a : A) : propagates lib (ret a).
Proof. intros c b []. Qed.

Lemma propagates_raise {A} (e : exn) : propagates lib (raise (A := A) e).
Proof. intros c b []. Qed.

Lemma propagates_log (l : level) (msg : string) :
  propagates lib (log l msg).
Proof. intros c b [H|[]]. discriminate. Qed.

Lemma propagates_perform {A} (c : KhmerPdfParser.call Page Image)
    (r : ending A) :
  (forall b, call_aborted lib c b -> r = Aborted b) ->
  propagates lib (perform c r).
Proof.
  intros R c' b [H|[]] Hb. injection H as <-. exact (R b Hb).
Qed.

Lemma propagates_bind {A B} (m : M _ A) (k : A -> M _ B) :
  propagates lib m -> (forall a, propagates lib (k a)) ->
  propagates lib (bind m k).
Proof.
  intros Pm Pk c b. specialize (Pm c b).
  destruct m as [t [a|e|b']]; simpl in *.
  - specialize (Pk a c b). destruct (k a) as [t' r]. simpl in *.
    intros H Hb. apply in_app_or in H. destruct H as [H|H].
    + specialize (Pm H Hb). discriminate.
    + exact (Pk H Hb).
  - intros H Hb. specialize (Pm H Hb). discriminate.
  - intros H Hb. specialize (Pm H Hb). injection Pm as ->. reflexivity.
Qed.

Lemma propagates_try_except {A} (m : M _ A) (h : exn -> M _ A) :
  propagates lib m -> (forall e, propagates lib (h e)) ->
  propagates lib (try_except m h).
Proof.
  intros Pm Ph c b. specialize (Pm c b).
  destruct m as [t [a|e|b']]; simpl in *.
  - exact Pm.
  - specialize (Ph e c b). destruct (h e) as [t' r]. simpl in *.
    intros H Hb. apply in_app_or in H. destruct H as [H|H].
    + specialize (Pm H Hb). discriminate.
    + exact (Ph H Hb).
  - exact Pm.
Qed.

Ltac propagate :=
  repeat lazymatch goal with
    | |- propagates _ (ret _) => apply propagates_ret
    | |- propagates _ (raise _) => apply propagates_raise
    | |- propagates _ (log _ _) => apply propagates_log
    | |- propagates _ (perform _ _) =>
        apply propagates_perform; intros ? H; exact H
    | |- propagates _ (bind _ _) =>
        apply propagates_bind; [|intros ?; cbv beta zeta]
    | |- propagates _ (try_except _ _) =>
        apply propagates_try_except; [|intros ?; cbv beta zeta]
    end.

Lemma detect_pages_propagates (pages : list Page) :
  propagates lib (detect_pages lib pages).
Proof.
  induction pages as [|pg rest IH]; cbn [detect_pages]; propagate.
  destruct (KhmerPdfParser.truthy _); [propagate|exact IH].
Qed.

Lemma detect_pdf_type_propagates (pdf_path : string) :
  propagates lib (detect_pdf_type lib pdf_path).
Proof.
  unfold detect_pdf_type. propagate.
  - apply detect_pages_propagates.
  - match goal with |- context [if ?x then _ else _] => destruct x end;
      propagate.
Qed.

Lemma native_pages_propagates (pages : list Page) (n : nat)
    (acc : list text) :
  propagates lib (native_pages lib n pages acc).
Proof.
  revert n acc. induction pages as [|pg rest IH]; intros n acc;
    cbn [native_pages]; propagate.
  destruct (KhmerPdfParser.truthy _); propagate; apply IH.
Qed.

Lemma parse_khmer_text_native_propagates (pdf_path : string) :
  propagates lib (parse_khmer_text_native lib pdf_path).
Proof.
  unfold parse_khmer_text_native. propagate.
  - apply native_pages_propagates.
  - destruct (is_empty _); propagate.
Qed.

Lemma scanned_pages_propagates (lang : string) (pages : list Image)
    (n : nat) (acc : list text) :
  propagates lib (scanned_pages lib lang n pages acc).
Proof.
  revert n acc. induction pages as [|im rest IH]; intros n acc;
    cbn [scanned_pages]; propagate.
  apply IH.
Qed.

Lemma parse_khmer_text_scanned_propagates (pdf_path lang : string) :
  propagates lib (parse_khmer_text_scanned lib pdf_path lang).
Proof.
  unfold parse_khmer_text_scanned. propagate.
  apply scanned_pages_propagates.
Qed.

Lemma parse_pdf_propagates (pdf_path lang : string) :
  propagates lib (parse_pdf lib pdf_path lang).
Proof.
  unfold parse_pdf. propagate; [apply detect_pdf_type_propagates|].
  destruct (_ =? "native")%string; [|destruct (_ =? "scanned")%string];
    propagate;
    first [apply parse_khmer_text_native_propagates
          |apply parse_khmer_text_scanned_propagates].
Qed.

(** C4, as the code has it.  No [Exception] gets past the boundary of
    [parse_pdf]: a run never ends with one.  It ends with an exception
    outside [Exception] only when a library call ended with that very
    exception, so that it returns an optional text whenever the
    libraries raise [Exception]s only.  An exception outside
    [Exception] is not caught: when a library call made by the run ends
    with one, so does the run; [pdfplumber.open] on the input path is
    such a call. *)
Theorem parse_pdf_no_exception_escapes (pdf_path lang : string) :
  (forall e, outcome (parse_pdf lib pdf_path lang) <> Failed e)
  /\ (forall b,
         outcome (parse_pdf lib pdf_path lang) = Aborted b ->
         aborts lib b)
  /\ ((forall b, ~ aborts lib b) ->
      exists extracted,
        outcome (parse_pdf lib pdf_path lang) = Done extracted)
  /\ (forall c b,
         In (Call c) (trace (parse_pdf lib pdf_path lang)) ->
         call_aborted lib c b ->
         outcome (parse_pdf lib pdf_path lang) = Aborted b)
  /\ (forall b,
         pdfplumber_open lib pdf_path = Aborted b ->
         outcome (parse_pdf lib pdf_path lang) = Aborted b).
Proof.
  pose proof (parse_pdf_ending pdf_path lang) as E.
  split; [|split; [|split; [|split]]].
  - intros e H. destruct E as [[x E]|[b [E _]]]; congruence.
  - intros b H. destruct E as [[x E]|[b' [E A]]]; [congruence|].
    rewrite E in H. injection H as <-. exact A.
  - intros N. destruct E as [[x E]|[b [_ A]]].
    + exists x. exact E.
    + destruct (N b A).
  - exact (parse_pdf_propagates pdf_path lang).
  - intros b O. unfold parse_pdf, detect_pdf_type, perform.
    rewrite O. reflexivity.
Qed.

End BasePdfFacts.

(** * The two embeddings agree when nothing outside [Exception] is
    raised *)

Section BaseLaws.
Variable call : Type.

Lemma inject_ret {A} (a : A) :
  Base.inject (Eff.ret (call := call) a) = Base.ret a.
Proof. reflexivity. Qed.

Lemma inject_raise {A} (e : exn) :
  Base.inject (Eff.raise (call := call) (A := A) e) = Base.raise e.
Proof. reflexivity. Qed.

Lemma inject_perform {A} (c : call) (r : result A) :
  Base.inject (Eff.perform c r) = Base.perform c (Base.ending_of r).
Proof. reflexivity. Qed.

Lemma inject_bind {A B} (m : Eff.M call A) (k : A -> Eff.M call B) :
  Base.inject (Eff.bind m k)
  = Base.bind (Base.inject m) (fun a => Base.inject (k a)).
Proof.
  destruct m as [t [a|e]]; simpl; [|reflexivity].
  destruct (k a) as [t' r]. reflexivity.
Qed.

(** On a block that raises nothing outside [Exception], the handler
    that tests the class is the one of [Eff]. *)
Lemma inject_try_except {A} (m : Eff.M call A) (h : exn -> Eff.M call A) :
  Base.inject (Eff.try_except m h)
  = Base.try_except (Base.inject m) (fun e => Base.inject (h e)).
Proof.
  destruct m as [t [a|e]]; simpl; [reflexivity|].
  destruct (h e) as [t' r]. reflexivity.
Qed.

(** An exception outside [Exception] passes the handler. *)
Lemma try_except_aborted {A} (t : list (event call)) (b : base_exception)
    (h : exn -> Base.M call A) :
  Base.try_except (t, Aborted b) h = (t, Aborted b).
Proof. reflexivity. Qed.

End BaseLaws.

Section BasePdfAgreement.
Import Py.
Local Open Scope string_scope.
Local Open Scope list_scope.

Variables Page Image : Type.
Variable lib : KhmerPdfParser.collaborators Page Image.

Lemma detect_pages_of_exceptions (pages : list Page) :
  KhmerPdfParserBase.detect_pages (KhmerPdfParserBase.of_exceptions lib)
                                  pages
  = Base.inject (KhmerPdfParser.detect_pages lib pages).
Proof.
  induction pages as [|pg rest IH]; simpl; [reflexivity|].
  unfold Base.perform, perform. simpl.
  destruct (KhmerPdfParser.extract_text lib pg) as [text|e]; simpl;
    [|reflexivity].
  destruct (KhmerPdfParser.truthy text); [reflexivity|].
  rewrite IH.
  destruct (KhmerPdfParser.detect_pages lib rest) as [t [found|e]];
    reflexivity.
Qed.

Lemma detect_pdf_type_of_exceptions (pdf_path : string) :
  KhmerPdfParserBase.detect_pdf_type (KhmerPdfParserBase.of_exceptions lib)
                                     pdf_path
  = Base.inject (KhmerPdfParser.detect_pdf_type lib pdf_path).
Proof.
  unfold KhmerPdfParserBase.detect_pdf_type, KhmerPdfParser.detect_pdf_type,
    Base.perform, perform. simpl.
  destruct (KhmerPdfParser.pdfplumber_open lib pdf_path) as [pages|e];
    simpl; [|reflexivity].
  rewrite detect_pages_of_exceptions.
  destruct (KhmerPdfParser.detect_pages lib pages) as [t [[|]|e]];
    reflexivity.
Qed.

Lemma native_pages_of_exceptions (pages : list Page) (n : nat)
    (acc : list text) :
  KhmerPdfParserBase.native_pages (KhmerPdfParserBase.of_exceptions lib)
                                  n pages acc
  = Base.inject (KhmerPdfParser.native_pages lib n pages acc).
Proof.
  revert n acc. induction pages as [|pg rest IH]; intros n acc; simpl;
    [reflexivity|].
  unfold Base.perform, perform. simpl.
  destruct (KhmerPdfParser.extract_text lib pg) as [text|e]; simpl;
    [|reflexivity].
  destruct (KhmerPdfParser.truthy text); simpl; rewrite IH.
  - destruct (KhmerPdfParser.native_pages lib (S n) rest _) as [t [x|e]];
      reflexivity.
  - destruct (KhmerPdfParser.native_pages lib (S n) rest acc)
      as [t [x|e]]; reflexivity.
Qed.

Lemma parse_khmer_text_native_of_exceptions (pdf_path : string) :
  KhmerPdfParserBase.parse_khmer_text_native
    (KhmerPdfParserBase.of_exceptions lib) pdf_path
  = Base.inject (KhmerPdfParser.parse_khmer_text_native lib pdf_path).
Proof.
  unfold KhmerPdfParserBase.parse_khmer_text_native,
    KhmerPdfParser.parse_khmer_text_native, Base.perform, perform. simpl.
  destruct (KhmerPdfParser.pdfplumber_open lib pdf_path) as [pages|e];
    simpl; [|reflexivity].
  rewrite native_pages_of_exceptions.
  destruct (KhmerPdfParser.native_pages lib 1 pages [])
    as [t [extracted|e]]; simpl; [|reflexivity].
  destruct (is_empty (strip (join [newline] extracted))); reflexivity.
Qed.

Lemma scanned_pages_of_exceptions (lang : string) (pages : list Image)
    (n : nat) (acc : list text) :
  KhmerPdfParserBase.scanned_pages (KhmerPdfParserBase.of_exceptions lib)
                                   lang n pages acc
  = Base.inject (KhmerPdfParser.scanned_pages lib lang n pages acc).
Proof.
  revert n acc. induction pages as [|im rest IH]; intros n acc; simpl;
    [reflexivity|].
  unfold Base.perform, perform. simpl.
  destruct (KhmerPdfParser.image_to_string lib im lang) as [text|e]; simpl;
    [|reflexivity].
  rewrite IH.
  destruct (KhmerPdfParser.scanned_pages lib lang (S n) rest _)
    as [t [x|e]]; reflexivity.
Qed.

Lemma parse_khmer_text_scanned_of_exceptions (pdf_path lang : string) :
  KhmerPdfParserBase.parse_khmer_text_scanned
    (KhmerPdfParserBase.of_exceptions lib) pdf_path lang
  = Base.inject (KhmerPdfParser.parse_khmer_text_scanned lib pdf_path lang).
Proof.
  unfold KhmerPdfParserBase.parse_khmer_text_scanned,
    KhmerPdfParser.parse_khmer_text_scanned, Base.perform, perform. simpl.
  destruct (KhmerPdfParser.convert_from_path lib pdf_path 300)
    as [pages|e]; simpl; [|reflexivity].
  rewrite scanned_pages_of_exceptions.
  destruct (KhmerPdfParser.scanned_pages lib lang 1 pages [])
    as [t [extracted|e]]; reflexivity.
Qed.

(** On such libraries [parse_pdf] runs as in [KhmerPdfParser]: same
    trace, same result. *)
Lemma parse_pdf_of_exceptions (pdf_path lang : string) :
  KhmerPdfParserBase.parse_pdf (KhmerPdfParserBase.of_exceptions lib)
                               pdf_path lang
  = Base.inject (KhmerPdfParser.parse_pdf lib pdf_path lang).
Proof.
  unfold KhmerPdfParserBase.parse_pdf, KhmerPdfParser.parse_pdf.
  rewrite detect_pdf_type_of_exceptions.
  destruct (KhmerPdfParser.detect_pdf_type lib pdf_path)
    as [td [pdf_type|e]]; simpl; [|reflexivity].
  destruct (pdf_type =? "native")%string; simpl.
  - rewrite parse_khmer_text_native_of_exceptions.
    destruct (KhmerPdfParser.parse_khmer_text_native lib pdf_path)
      as [tn [text|e]]; simpl; [reflexivity|].
    rewrite parse_khmer_text_scanned_of_exceptions.
    destruct (KhmerPdfParser.parse_khmer_text_scanned lib pdf_path lang)
      as [ts [text|e']]; reflexivity.
  - destruct (pdf_type =? "scanned")%string; simpl; [|reflexivity].
    rewrite parse_khmer_text_scanned_of_exceptions.
    destruct (KhmerPdfParser.parse_khmer_text_scanned lib pdf_path lang)
      as [ts [text|e']]; reflexivity.
Qed.

Lemma of_exceptions_never_aborts (b : base_exception) :
  ~ KhmerPdfParserBase.aborts (KhmerPdfParserBase.of_exceptions lib) b.
Proof.
  intros [[p H]|[[pg H]|[[p [dpi H]]|[im [lang H]]]]]; simpl in H.
  - destruct (KhmerPdfParser.pdfplumber_open lib p); discriminate.
  - destruct (KhmerPdfParser.extract_text lib pg); discriminate.
  - destruct (KhmerPdfParser.convert_from_path lib p dpi); discriminate.
  - destruct (KhmerPdfParser.image_to_string lib im lang); discriminate.
Qed.

End BasePdfAgreement.

(** * Exceptions outside [Exception]: the image recognizer *)

Section BaseImageFacts.
Import Py Base KhmerImageRecognizerBase.
Local Open Scope string_scope.
Local Open Scope list_scope.

Variables Image Enhancer : Type.
Variable lib : collaborators Image Enhancer.

Lemma preprocess_image_makes_no_ocr_call (image_path : string) :
  forallb (fun x => negb (is_image_ocr_call x))
          (trace (preprocess_image lib image_path)) = true.
Proof.
  unfold preprocess_image, perform.
  destruct (Image_open lib image_path) as [img|e|b];
    [simpl|reflexivity|reflexivity].
  destruct (Image_convert lib img "L") as [gray|e|b];
    [simpl|reflexivity|reflexivity].
  destruct (ImageEnhance_Contrast lib gray) as [enhancer|e|b];
    [simpl|reflexivity|reflexivity].
  destruct (enhance lib enhancer 2) as [contrasted|e|b];
    [simpl|reflexivity|reflexivity].
  destruct (Image_point lib contrasted KhmerImageRecognizer.threshold "1")
    as [binary|e|b]; [simpl|reflexivity|reflexivity].
  destruct (Image_filter lib binary KhmerImageRecognizer.MedianFilter)
    as [denoised|e|b]; reflexivity.
Qed.

(** X7. [parse_image] lets no [Exception] past its boundary.  It returns
    the text recognised on the preprocessed image, and [None] when
    preprocessing or OCR raises an [Exception]; an exception outside
    [Exception] with which preprocessing or OCR ends is not caught, and
    the run ends with it.  When preprocessing does not return, the OCR
    engine is not called at all. *)
Theorem parse_image_outcome (image_path : string)
    (output_path : option string) (lang : string) :
  outcome (parse_image lib image_path output_path lang)
  = match outcome (preprocess_image lib image_path) with
    | Done image =>
        match outcome (extract_text_from_image lib image lang) with
        | Done text => Done (Some text)
        | Failed _ => Done None
        | Aborted b => Aborted b
        end
    | Failed _ => Done None
    | Aborted b => Aborted b
    end
  /\ (forall e,
         outcome (parse_image lib image_path output_path lang) <> Failed e)
  /\ ((forall image,
          outcome (preprocess_image lib image_path) <> Done image) ->
      forallb (fun x => negb (is_image_ocr_call x))
              (trace (parse_image lib image_path output_path lang))
      = true).
Proof.
  pose proof (preprocess_image_makes_no_ocr_call image_path) as K.
  unfold parse_image.
  destruct (preprocess_image lib image_path) as [tp [image|e|b]];
    simpl in *.
  - destruct (extract_text_from_image lib image lang) as [tx [t|e|b]];
      simpl; (split; [reflexivity|split; [discriminate|]]);
      intros N; destruct (N image eq_refl).
  - split; [reflexivity|split; [discriminate|]]. intros _.
    rewrite forallb_app, K. reflexivity.
  - split; [reflexivity|split; [discriminate|]]. intros _. exact K.
Qed.

End BaseImageFacts.

(** * Interrupted runs *)

Section BaseExamples.
Import Py Base.
Local Open Scope string_scope.
Local Open Scope list_scope.

(** C4 fails for exceptions outside [Exception]: on a one-page scan
    during whose OCR the user presses Ctrl-C, every library call before
    it returns and [parse_pdf] ends with [KeyboardInterrupt]. *)
Lemma parse_pdf_lets_keyboard_interrupt_through :
  let run :=
    KhmerPdfParserBase.parse_pdf SimBase.interrupted_scan "scan.pdf" "khm"
  in
  outcome run = Aborted KeyboardInterrupt
  /\ calls (trace run)
     = [KhmerPdfParser.Pdfplumber_open "scan.pdf";
        KhmerPdfParser.Extract_text (Ok None);
        KhmerPdfParser.Convert_from_path "scan.pdf" 300;
        KhmerPdfParser.Image_to_string (Ok []) "khm"].
Proof.
  split; reflexivity.
Qed.

(** The interrupted scan, and a document whose libraries raise nothing
    outside [Exception]. *)
Lemma parse_pdf_no_exception_escapes_witness :
  KhmerPdfParserBase.aborts SimBase.interrupted_scan KeyboardInterrupt
  /\ outcome (KhmerPdfParserBase.parse_pdf SimBase.interrupted_scan
                "scan.pdf" "khm")
     = Aborted KeyboardInterrupt
  /\ (exists extracted,
         outcome (KhmerPdfParserBase.parse_pdf
                    (KhmerPdfParserBase.of_exceptions
                       (Sim.pdf_lib Sim.native_doc)) "a.pdf" "khm")
         = Done extracted).
Proof.
  split; [|split].
  - apply (proj1 (proj2 (parse_pdf_no_exception_escapes
                           SimBase.interrupted_scan "scan.pdf" "khm"))).
    reflexivity.
  - apply (proj1 (proj2 (proj2 (proj2 (parse_pdf_no_exception_escapes
                                         SimBase.interrupted_scan
                                         "scan.pdf" "khm"))))
             (KhmerPdfParser.Image_to_string (Ok []) "khm")).
    + simpl. auto 20.
    + reflexivity.
  - apply (proj1 (proj2 (proj2 (parse_pdf_no_exception_escapes
             (KhmerPdfParserBase.of_exceptions
                (Sim.pdf_lib Sim.native_doc)) "a.pdf" "khm")))).
    intros b [[p H]|[[pg H]|[[p [dpi H]]|[im [lang H]]]]]; simpl in H.
    + discriminate.
    + destruct pg; discriminate.
    + discriminate.
    + destruct im; discriminate.
Defined.

Lemma parse_image_outcome_witness :
  let lib := SimBase.interrupted_image in
  outcome (KhmerImageRecognizerBase.parse_image lib "page.png" None "khm")
  = Aborted KeyboardInterrupt
  /\ forallb (fun x => negb (is_image_ocr_call x))
             (trace (KhmerImageRecognizerBase.parse_image
                       lib "other.png" None "khm"))
     = true.
Proof.
  split.
  - rewrite (proj1 (parse_image_outcome SimBase.interrupted_image
                      "page.png" None "khm")).
    reflexivity.
  - apply (proj2 (proj2 (parse_image_outcome SimBase.interrupted_image
                           "other.png" None "khm"))).
    intros image. simpl. discriminate.
Defined.

End BaseExamples.
